(** * Air-Sentinel OS v2.6: the control loop of [main.py], embedded and verified

    The firmware is one MicroPython module.  Its global [state] dictionary is
    used as a struct with a fixed set of keys, so it is a record here; the
    hardware and the two files it owns ([config.json], [cal_history.txt]) are
    gathered in a [World] that every operation takes and returns.

    Conventions of the embedding:
    - Python floats are exact rationals ([Q]); rounding is not modelled, so
      [12.0], [35.4], [3.3], ... are the decimal fractions as written.  The
      one float exception the loop can meet is the [OverflowError] of
      [int()] on an infinity, in the graph view: there a rational outside
      the range of a double stands for the infinity.  The statements about
      whole passes bound the offset and the window ([in_range]) so that
      every float of a pass is finite, and the rational reading is exact in
      that respect.
    - Millisecond tick counts are [Z]; [utime.ticks_diff] wraps as
      MicroPython defines it.
    - Strings are [string], a character being its code point.
    - A pin is its GPIO number and the pin levels are a finite map.
    - The OLED is an output-only collaborator; draw calls are left out, and
      so is the station's connection at start-up.  The values the views
      compute, and the network list of the scan, are modelled on their own
      ([dashboard_label], [graph_bar], [scan_wifi], [wifi_scan_lines]).
    - What the firmware reads from the outside (ADC counts, the button, the
      clock, the network) is an explicit argument of the function that reads
      it. *)

From Stdlib Require Import ZArith QArith Qround Lqa String Ascii List Lia.
From Stdlib Require Import Numbers.DecimalString.
From stdpp Require Import base tactics option list sorting gmap strings.

Local Open Scope string_scope.
Local Open Scope list_scope.
Local Open Scope Z_scope.

(** ** Numbers *)

(** [a < b] on floats, as a boolean. *)
Definition Qltb (a b : Q) : bool := negb (Qle_bool b a).

(** Python's [max(0, x)]: the second argument wins only when strictly greater. *)
Definition max0 (x : Q) : Q := if Qltb 0 x then x else 0%Q.

(** Python's [sum(l)]: left to right, from 0. *)
Definition sum (l : list Q) : Q := foldl Qplus 0%Q l.

(** Python's [int(x)] on a float: truncation towards zero. *)
Definition int_of_float (x : Q) : Z := Z.quot (Qnum x) (Zpos (Qden x)).

(** Python's [str(n)] on an int. *)
Definition str_of_int (n : Z) : string := NilZero.string_of_int (Z.to_int n).

(** ** 1. Hardware *)

Definition dust_led : nat := 26%nat.

(** [control_pins = [Pin(i, Pin.OUT) for i in range(2, 8)]] *)
Definition control_pins : list nat := seq 2 6.

(** Python's [enumerate]. *)
Definition enumerate {A} (l : list A) : list (nat * A) :=
  zip (seq 0 (length l)) l.

(** ** 2. State *)

(** [state["config"]], the persisted structure. *)
Record Config := mkConfig {
  cfg_ssid : string;
  cfg_pass : string;
  cfg_lat : string;
  cfg_lon : string;
  cfg_auto : bool;
  cfg_offset : Q
}.

(** The global [state] dictionary.  The two keys only [scan_wifi] and its
    view use ([networks], [last_scan_time]) are left out; [last_serial] is
    absent until the first telemetry record is printed. *)
Record State := mkState {
  mode : Z;
  auto_cycle : bool;
  msg_timer : Z;
  msg_text : string;
  dust_val : Q;
  dust_history : list Q;
  dust_offset : Q;
  weather_temp : string;
  weather_desc : string;
  last_weather_update : Z;
  last_ntp_update : Z;
  last_mode_change : Z;
  config : Config;
  last_serial : option Z
}.

(** What [config.json] holds: nothing ([open] raises [OSError]), text that
    [json.load] rejects ([ValueError]), or the JSON object of a
    configuration with its six keys, as [save_config] writes it.  The JSON
    codec is a platform routine, so such a file is the configuration it
    decodes to.  A file with another JSON value, or an object with other
    keys (which [update] would merge), is not one [save_config] writes and
    has no case here. *)
Inductive ConfigFile :=
  | Missing
  | Corrupt
  | Stored (c : Config).

(** One line of [cal_history.txt]: the formatted timestamp and the offset
    (which the file shows with four decimals). *)
Record LogEntry := mkLogEntry { le_ts : string; le_offset : Q }.

(** One telemetry record, as handed to [json.dumps]. *)
Record Telemetry := mkTelemetry {
  tm_ts : string;
  tm_dust : Q;
  tm_cat : string;
  tm_cal : Q;
  tm_temp : string;
  tm_weather : string;
  tm_rssi : option Z;
  tm_auto : bool
}.

(** The variables of the main loop, which live beside [state] at module
    level. *)
Record LoopVars := mkLoopVars {
  last_btn_state : bool;
  btn_start : Z;
  click_count : Z;
  last_click : Z
}.

(** Assignment to one key, the others kept. *)
Definition set_cfg_ssid (v : string) (c : Config) : Config :=
  mkConfig v (cfg_pass c) (cfg_lat c) (cfg_lon c) (cfg_auto c) (cfg_offset c).

Definition set_cfg_pass (v : string) (c : Config) : Config :=
  mkConfig (cfg_ssid c) v (cfg_lat c) (cfg_lon c) (cfg_auto c) (cfg_offset c).

Definition set_cfg_lat (v : string) (c : Config) : Config :=
  mkConfig (cfg_ssid c) (cfg_pass c) v (cfg_lon c) (cfg_auto c) (cfg_offset
    c).

Definition set_cfg_lon (v : string) (c : Config) : Config :=
  mkConfig (cfg_ssid c) (cfg_pass c) (cfg_lat c) v (cfg_auto c) (cfg_offset
    c).

Definition set_cfg_auto (v : bool) (c : Config) : Config :=
  mkConfig (cfg_ssid c) (cfg_pass c) (cfg_lat c) (cfg_lon c) v (cfg_offset c).

Definition set_cfg_offset (v : Q) (c : Config) : Config :=
  mkConfig (cfg_ssid c) (cfg_pass c) (cfg_lat c) (cfg_lon c) (cfg_auto c) v.

Definition set_mode (v : Z) (s : State) : State :=
  mkState v (auto_cycle s) (msg_timer s) (msg_text s) (dust_val s)
    (dust_history s) (dust_offset s) (weather_temp s) (weather_desc s)
    (last_weather_update s) (last_ntp_update s) (last_mode_change s) (config
    s) (last_serial s).

Definition set_auto_cycle (v : bool) (s : State) : State :=
  mkState (mode s) v (msg_timer s) (msg_text s) (dust_val s) (dust_history s)
    (dust_offset s) (weather_temp s) (weather_desc s) (last_weather_update s)
    (last_ntp_update s) (last_mode_change s) (config s) (last_serial s).

Definition set_msg_timer (v : Z) (s : State) : State :=
  mkState (mode s) (auto_cycle s) v (msg_text s) (dust_val s) (dust_history s)
    (dust_offset s) (weather_temp s) (weather_desc s) (last_weather_update s)
    (last_ntp_update s) (last_mode_change s) (config s) (last_serial s).

Definition set_msg_text (v : string) (s : State) : State :=
  mkState (mode s) (auto_cycle s) (msg_timer s) v (dust_val s) (dust_history
    s) (dust_offset s) (weather_temp s) (weather_desc s) (last_weather_update
    s) (last_ntp_update s) (last_mode_change s) (config s) (last_serial s).

Definition set_dust_val (v : Q) (s : State) : State :=
  mkState (mode s) (auto_cycle s) (msg_timer s) (msg_text s) v (dust_history
    s) (dust_offset s) (weather_temp s) (weather_desc s) (last_weather_update
    s) (last_ntp_update s) (last_mode_change s) (config s) (last_serial s).

Definition set_dust_history (v : list Q) (s : State) : State :=
  mkState (mode s) (auto_cycle s) (msg_timer s) (msg_text s) (dust_val s) v
    (dust_offset s) (weather_temp s) (weather_desc s) (last_weather_update s)
    (last_ntp_update s) (last_mode_change s) (config s) (last_serial s).

Definition set_dust_offset (v : Q) (s : State) : State :=
  mkState (mode s) (auto_cycle s) (msg_timer s) (msg_text s) (dust_val s)
    (dust_history s) v (weather_temp s) (weather_desc s) (last_weather_update
    s) (last_ntp_update s) (last_mode_change s) (config s) (last_serial s).

Definition set_weather_temp (v : string) (s : State) : State :=
  mkState (mode s) (auto_cycle s) (msg_timer s) (msg_text s) (dust_val s)
    (dust_history s) (dust_offset s) v (weather_desc s) (last_weather_update
    s) (last_ntp_update s) (last_mode_change s) (config s) (last_serial s).

Definition set_weather_desc (v : string) (s : State) : State :=
  mkState (mode s) (auto_cycle s) (msg_timer s) (msg_text s) (dust_val s)
    (dust_history s) (dust_offset s) (weather_temp s) v (last_weather_update
    s) (last_ntp_update s) (last_mode_change s) (config s) (last_serial s).

Definition set_last_weather_update (v : Z) (s : State) : State :=
  mkState (mode s) (auto_cycle s) (msg_timer s) (msg_text s) (dust_val s)
    (dust_history s) (dust_offset s) (weather_temp s) (weather_desc s) v
    (last_ntp_update s) (last_mode_change s) (config s) (last_serial s).

Definition set_last_ntp_update (v : Z) (s : State) : State :=
  mkState (mode s) (auto_cycle s) (msg_timer s) (msg_text s) (dust_val s)
    (dust_history s) (dust_offset s) (weather_temp s) (weather_desc s)
    (last_weather_update s) v (last_mode_change s) (config s) (last_serial s).

Definition set_last_mode_change (v : Z) (s : State) : State :=
  mkState (mode s) (auto_cycle s) (msg_timer s) (msg_text s) (dust_val s)
    (dust_history s) (dust_offset s) (weather_temp s) (weather_desc s)
    (last_weather_update s) (last_ntp_update s) v (config s) (last_serial s).

Definition set_config (v : Config) (s : State) : State :=
  mkState (mode s) (auto_cycle s) (msg_timer s) (msg_text s) (dust_val s)
    (dust_history s) (dust_offset s) (weather_temp s) (weather_desc s)
    (last_weather_update s) (last_ntp_update s) (last_mode_change s) v
    (last_serial s).

Definition set_last_serial (v : option Z) (s : State) : State :=
  mkState (mode s) (auto_cycle s) (msg_timer s) (msg_text s) (dust_val s)
    (dust_history s) (dust_offset s) (weather_temp s) (weather_desc s)
    (last_weather_update s) (last_ntp_update s) (last_mode_change s) (config
    s) v.

Definition set_last_btn_state (v : bool) (l : LoopVars) : LoopVars :=
  mkLoopVars v (btn_start l) (click_count l) (last_click l).

Definition set_btn_start (v : Z) (l : LoopVars) : LoopVars :=
  mkLoopVars (last_btn_state l) v (click_count l) (last_click l).

Definition set_click_count (v : Z) (l : LoopVars) : LoopVars :=
  mkLoopVars (last_btn_state l) (btn_start l) v (last_click l).

Definition set_last_click (v : Z) (l : LoopVars) : LoopVars :=
  mkLoopVars (last_btn_state l) (btn_start l) (click_count l) v.

(** What the portal sends to its client: the calibration log (or the fixed
    text when the file cannot be read), the confirmation of a save, or the
    settings form filled with the values shown. *)
Inductive Response :=
  | LogDump (log : option (list LogEntry))
  | Saved
  | Form (ssid lat lon : string) (offset : Q).

(** The device: the [state] dictionary, the loop variables, the pin levels,
    both files, the lines printed and the responses sent so far, and
    whether the flash accepts writes (an outside condition the firmware
    never changes). *)
Record World := mkWorld {
  st : State;
  vars : LoopVars;
  gpio : gmap nat bool;
  config_file : ConfigFile;
  log_file : option (list LogEntry);
  serial : list Telemetry;
  sent : list Response;
  storage_ok : bool
}.

Definition with_st (f : State → State) (w : World) : World :=
  mkWorld (f (st w)) (vars w) (gpio w) (config_file w) (log_file w) (serial w)
          (sent w) (storage_ok w).

Definition with_vars (f : LoopVars → LoopVars) (w : World) : World :=
  mkWorld (st w) (f (vars w)) (gpio w) (config_file w) (log_file w) (serial w)
          (sent w) (storage_ok w).

(** [pin.value(v)] *)
Definition pin_value (pin : nat) (v : bool) (w : World) : World :=
  mkWorld (st w) (vars w) (<[pin := v]> (gpio w)) (config_file w) (log_file w)
          (serial w) (sent w) (storage_ok w).

Definition set_config_file (f : ConfigFile) (w : World) : World :=
  mkWorld (st w) (vars w) (gpio w) f (log_file w) (serial w) (sent w)
          (storage_ok w).

Definition set_log_file (l : option (list LogEntry)) (w : World) : World :=
  mkWorld (st w) (vars w) (gpio w) (config_file w) l (serial w) (sent w)
          (storage_ok w).

(** [print(json.dumps(telemetry))] *)
Definition print (t : Telemetry) (w : World) : World :=
  mkWorld (st w) (vars w) (gpio w) (config_file w) (log_file w) (serial w ++ [t])
          (sent w) (storage_ok w).

(** [cl.send(r)] *)
Definition send (r : Response) (w : World) : World :=
  mkWorld (st w) (vars w) (gpio w) (config_file w) (log_file w) (serial w)
          (sent w ++ [r]) (storage_ok w).

(** ** 4. Storage & Logic: the classifier *)

Definition get_aqi_category (c : Q) : string * Z :=
  if Qle_bool c 12.0 then ("GOOD", 0)
  else if Qle_bool c 35.4 then ("MODERATE", 1)
  else if Qle_bool c 55.4 then ("UNHEALTHY-S", 2)
  else if Qle_bool c 150.4 then ("UNHEALTHY", 3)
  else if Qle_bool c 250.4 then ("V. UNHEALTHY", 4)
  else ("HAZARDOUS", 5).

Definition update_hardware (c : Q) (w : World) : World * string :=
  let '(cat_str, level) := get_aqi_category c in
  (foldl (λ w '(i, pin), pin_value pin (Z.eqb (Z.of_nat i) level) w) w
         (enumerate control_pins),
   cat_str).

(** ** Control flow: state, exceptions and [machine.reset()]

    A computation runs on the device and either returns a value, raises an
    exception that propagates, resets the machine (after which nothing else
    of the program runs), or is still inside a blocking loop when the events
    supplied to it are used up.  What it did to the device before stays
    done. *)
Inductive Res (A : Type) :=
  | Val (a : A)
  | Exn
  | Reset
  | Blocked.
Arguments Val {A} a.
Arguments Exn {A}.
Arguments Reset {A}.
Arguments Blocked {A}.

Definition M (A : Type) : Type := World → World * Res A.

#[global] Instance M_ret : MRet M := λ A a w, (w, Val a).

#[global] Instance M_bind : MBind M := λ A B f m w,
  match m w with
  | (w', Val a) => f a w'
  | (w', Exn) => (w', Exn)
  | (w', Reset) => (w', Reset)
  | (w', Blocked) => (w', Blocked)
  end.

Definition modify (f : World → World) : M unit := λ w, (f w, Val ()).

Definition raise {A} : M A := λ w, (w, Exn).

Definition machine_reset {A} : M A := λ w, (w, Reset).

Definition blocked {A} : M A := λ w, (w, Blocked).

(** [try: m  except: pass] *)
Definition try_pass (m : M unit) : M unit := λ w,
  match m w with
  | (w', Exn) => (w', Val ())
  | r => r
  end.

(** A value that may be missing: [None] raises. *)
Definition must {A} (o : option A) : M A :=
  match o with Some a => mret a | None => raise end.

(** ** Text *)

Definition is_space (c : ascii) : bool :=
  let n := N_of_ascii c in ((9 <=? n) && (n <=? 13) || (n =? 32))%N.

Definition digit_val (c : ascii) : option Z :=
  let n := Z.of_N (N_of_ascii c) in
  if (48 <=? n) && (n <=? 57) then Some (n - 48) else None.

Definition hex_val (c : ascii) : option Z :=
  let n := Z.of_N (N_of_ascii c) in
  if (48 <=? n) && (n <=? 57) then Some (n - 48)
  else if (65 <=? n) && (n <=? 70) then Some (n - 55)
  else if (97 <=? n) && (n <=? 102) then Some (n - 87)
  else None.

Fixpoint lstrip (s : string) : string :=
  match s with
  | String c r => if is_space c then lstrip r else s
  | EmptyString => s
  end.

(** The longest run of decimal digits at the front of [s]: its value on top
    of [acc], how many digits it has, and what follows it. *)
Fixpoint digits (acc : Z) (s : string) : Z * nat * string :=
  match s with
  | String c r =>
      match digit_val c with
      | Some d => let '(v, n, rest) := digits (10 * acc + d) r in (v, S n, rest)
      | None => (acc, O, s)
      end
  | EmptyString => (acc, O, s)
  end.

Definition sign (s : string) : bool * string :=
  match s with
  | String "-" r => (true, r)
  | String "+" r => (false, r)
  | _ => (false, s)
  end.

(** Python's [float(s)] on a string, for the decimal grammar
    [ws] [sign] digits [. digits] [e [sign] digits] [ws]
    (one of the two digit runs around the point may be empty), with the
    value of the literal; on these strings it is [float()].  [None] is
    [ValueError]: [float()] raises it on every string with a character
    that no float literal has ([float_raises] below), which is what the
    statements about a rejected offset assume.  [inf], [nan] and
    [infinity], which have no rational value, and digits grouped by
    underscores are taken by [float()] but not by this model; no statement
    relies on their being rejected. *)
Definition py_float (s : string) : option Q :=
  let '(neg, s) := sign (lstrip s) in
  let '(ip, ni, s) := digits 0 s in
  let '(m, nf, s) :=
    match s with
    | String "." r => digits ip r
    | _ => (ip, O, s)
    end in
  if (ni + nf =? 0)%nat then None else
  let ex :=
    match s with
    | String c r =>
        if (Ascii.eqb c "e" || Ascii.eqb c "E")%bool then
          let '(eneg, r) := sign r in
          let '(e, ne, r) := digits 0 r in
          if (ne =? 0)%nat then None else Some (if eneg then - e else e, r)
        else Some (0, s)
    | EmptyString => Some (0, s)
    end in
  match ex with
  | Some (e, rest) =>
      match lstrip rest with
      | EmptyString =>
          let q := (inject_Z m * Qpower 10 (e - Z.of_nat nf))%Q in
          Some (if neg then Qopp q else q)
      | _ => None
      end
  | None => None
  end.

(** Python's ["{:0Wd}".format(n)]. *)
Definition fmt_0d (width : nat) (n : Z) : string :=
  let pad (w : nat) (s : string) :=
    String.concat "" (replicate (w - String.length s) "0") +:+ s in
  if n <? 0 then "-" +:+ pad (width - 1)%nat (str_of_int (- n))
  else pad width (str_of_int n).


(** ** 3. Calibration & Logging *)

(** What [utime.localtime()] returns, fields [t[0]] to [t[5]]. *)
Record LocalTime := mkLocalTime {
  lt_year : Z;
  lt_month : Z;
  lt_mday : Z;
  lt_hour : Z;
  lt_minute : Z;
  lt_second : Z
}.

(** [log_calibration(offset)]; [t] is the clock reading it takes.  A failed
    append is swallowed. *)
Definition log_calibration (t : LocalTime) (offset : Q) : M unit :=
  modify (λ w,
    let ts := fmt_0d 4 (lt_year t) +:+ "-" +:+ fmt_0d 2 (lt_month t) +:+ "-"
              +:+ fmt_0d 2 (lt_mday t) +:+ " " +:+ fmt_0d 2 (lt_hour t) +:+ ":"
              +:+ fmt_0d 2 (lt_minute t) in
    if storage_ok w
    then set_log_file (Some (default [] (log_file w) ++ [mkLogEntry ts offset])) w
    else w).

(** The [offset] argument of [save_config] is a float from the calibration
    routine and a string (or the float default) from the portal. *)
Inductive PyVal :=
  | PyFloat (q : Q)
  | PyStr (s : string).

(** Python's [float(v)]. *)
Definition float (v : PyVal) : M Q :=
  match v with
  | PyFloat q => mret q
  | PyStr s => must (py_float s)
  end.

(** The assignment [state["config"][k] = v] when the argument is given. *)
Definition assign {A} (set : A → Config → Config) (arg : option A) : M unit :=
  match arg with
  | Some v => modify (with_st (λ s, set_config (set v (config s)) s))
  | None => mret ()
  end.

(** [save_config(ssid, password, lat, lon, auto, offset)], every argument
    defaulting to [None]; [t] is the clock reading [log_calibration] takes.
    [float(offset)] is outside the [try], so its [ValueError] propagates
    with the earlier assignments already made. *)
Definition save_config (t : LocalTime) (ssid password lat lon : option string)
    (auto : option bool) (offset : option PyVal) : M unit :=
  _ ← assign set_cfg_ssid ssid;
  _ ← assign set_cfg_pass password;
  _ ← assign set_cfg_lat lat;
  _ ← assign set_cfg_lon lon;
  _ ← assign set_cfg_auto auto;
  _ ← match offset with
      | Some o =>
          f ← float o;
          _ ← assign set_cfg_offset (Some f);
          f' ← float o;
          log_calibration t f'
      | None => mret ()
      end;
  modify (λ w, if storage_ok w then set_config_file (Stored (config (st w))) w
               else w).

(** [load_config()]: a file written by [save_config] holds all six keys,
    so that [update] replaces every key of the configuration; a missing or
    corrupt one ([except (OSError, ValueError)]) is recreated from the
    configuration in memory. *)
Definition load_config (t : LocalTime) : M unit := λ w,
  match config_file w with
  | Stored saved =>
      modify (with_st (λ s,
        let s := set_config saved s in
        let s := set_auto_cycle (cfg_auto (config s)) s in
        set_dust_offset (cfg_offset (config s)) s)) w
  | Missing | Corrupt => save_config t None None None None None None w
  end.

(** The voltage of one ADC count: [(dust_adc.read_u16()/65535)*3.3]. *)
Definition read_voltage (raw : Z) : Q := (inject_Z raw / 65535 * 3.3)%Q.

(** Python's [a / b] on floats. *)
Definition py_div (a b : Q) : M Q :=
  if Qeq_bool b 0 then raise else mret (a / b)%Q.

(** The sampling loop of [calibrate_sensor]: [adc i] is what the [i]-th
    [read_u16()] returns. *)
Definition calibration_samples (adc : nat → Z) (w : World) : World * list Q :=
  foldl (λ '(w, samples) i,
           let w := pin_value dust_led false w in
           let v := read_voltage (adc i) in
           let w := pin_value dust_led true w in
           (w, samples ++ [v]))
        (w, []) (seq 0 500).

(** [calibrate_sensor()]; [t] is the clock reading of the log entry and
    [t_end] the [utime.ticks_ms()] read on the last line. *)
Definition calibrate_sensor (adc : nat → Z) (t : LocalTime) (t_end : Z) : M unit :=
  _ ← modify (λ w, foldl (λ w pin, pin_value pin false w) w control_pins);
  samples ← (λ w, let '(w, samples) := calibration_samples adc w in
                  (w, Val samples));
  avg ← py_div (sum samples) (inject_Z (Z.of_nat (length samples)));
  _ ← modify (with_st (set_dust_offset avg));
  _ ← save_config t None None None None None (Some (PyFloat avg));
  _ ← modify (with_st (set_msg_text "CAL & LOGGED!"));
  modify (with_st (set_msg_timer (t_end + 2000))).

(** ** 4. Storage & Logic: [url_decode] *)

(** Python's [s.replace(old, new)] for one-character strings. *)
Fixpoint replace (old new : ascii) (s : string) : string :=
  match s with
  | String c r => String (if Ascii.eqb c old then new else c) (replace old new r)
  | EmptyString => EmptyString
  end.

(** The longest run of hexadecimal digits at the front of [s], as [digits]. *)
Fixpoint hex_digits (acc : Z) (s : string) : Z * nat * string :=
  match s with
  | String c r =>
      match hex_val c with
      | Some d => let '(v, n, rest) := hex_digits (16 * acc + d) r in (v, S n, rest)
      | None => (acc, O, s)
      end
  | EmptyString => (acc, O, s)
  end.

(** Python's [int(s, 16)] for the grammar [ws] [sign] [0x] hexdigits [ws];
    [None] is [ValueError]. *)
Definition py_int16 (s : string) : option Z :=
  let '(neg, s) := sign (lstrip s) in
  let s := match s with
           | String "0" (String "x" r) | String "0" (String "X" r) => r
           | _ => s
           end in
  let '(v, n, rest) := hex_digits 0 s in
  if (n =? 0)%nat then None else
  match lstrip rest with
  | EmptyString => Some (if neg then - v else v)
  | _ => None
  end.

(** Python's [chr(n)]; [None] is [ValueError].  Two hexadecimal digits
    never reach a code point above 255. *)
Definition py_chr (n : Z) : option ascii :=
  if (0 <=? n) && (n <? 256) then Some (ascii_of_N (Z.to_N n)) else None.

(** The [while] loop of [url_decode], one iteration per unit of [fuel]:
    [i] and [res] are the loop's variables.  Every iteration advances [i],
    so [len(s)] iterations are enough. *)
Fixpoint url_decode_loop (fuel : nat) (s : string) (i : nat) (res : string)
    : option string :=
  if (i <? String.length s)%nat then
    match fuel with
    | O => None
    | S fuel =>
        if bool_decide (String.get i s = Some "%"%char)
           && (i + 2 <? String.length s)%nat
        then
          n ← py_int16 (substring (i + 1) 2 s);
          c ← py_chr n;
          url_decode_loop fuel s (i + 3) (res +:+ String c "")
        else
          c ← String.get i s;
          url_decode_loop fuel s (i + 1) (res +:+ String c "")
    end
  else Some res.

(** [url_decode(s)]; [None] is the [ValueError] of a malformed escape. *)
Definition url_decode (s : string) : option string :=
  let s := replace "+" " " s in
  url_decode_loop (String.length s) s 0 "".


(** ** 5. Portal & Networking *)

(** Python's [pat in s] on strings. *)
Fixpoint contains (pat s : string) : bool :=
  String.prefix pat s ||
  match s with
  | String _ r => contains pat r
  | EmptyString => false
  end.

(** Python's [s.split(sep)] for a one-character separator. *)
Fixpoint split (sep : ascii) (s : string) : list string :=
  match s with
  | String c r =>
      if Ascii.eqb c sep then "" :: split sep r
      else match split sep r with
           | h :: t => String c h :: t
           | [] => [String c ""]
           end
  | EmptyString => [""]
  end.

(** The dictionary comprehension
    [{u.split('=')[0]: u.split('=')[1] for u in query.split('&')}]:
    a later pair overrides an earlier one, a pair without ['='] raises. *)
Definition parse_query (query : string) : option (gmap string string) :=
  foldl (λ acc u,
           p ← acc;
           let kv := split "=" u in
           k ← kv !! 0%nat;
           v ← kv !! 1%nat;
           Some (<[k := v]> p))
        (Some ∅) (split "&" query).

(** How one pass through the [try] block of the portal loop ends: with
    [continue], or by reaching the end of the block. *)
Inductive Flow :=
  | Continue
  | Fallthrough.

(** The body of the [try] block once a request [req] has been received;
    [t] is the clock reading a log entry would carry. *)
Definition handle_request (t : LocalTime) (req : string) : M Flow :=
  if contains "GET /logs" req then
    _ ← modify (λ w, send (LogDump (log_file w)) w);
    mret Continue
  else
    _ ← (if contains "GET /?s=" req then
           line ← must (split (ascii_of_nat 10) req !! 0%nat);
           target ← must (split " " line !! 1%nat);
           query ← must (split "?" target !! 1%nat);
           p ← must (parse_query query);
           s ← must (p !! "s" ≫= url_decode);
           pw ← must (p !! "p" ≫= url_decode);
           la ← must (p !! "la" ≫= url_decode);
           lo ← must (p !! "lo" ≫= url_decode);
           let os := match p !! "os" with
                     | Some v => PyStr v
                     | None => PyFloat 0.6
                     end in
           _ ← save_config t (Some s) (Some pw) (Some la) (Some lo) None (Some os);
           _ ← modify (send Saved);
           machine_reset
         else mret ());
    _ ← modify (λ w, send (Form (cfg_ssid (config (st w))) (cfg_lat (config (st w)))
                              (cfg_lon (config (st w))) (dust_offset (st w))) w);
    mret Fallthrough.

(** One pass of the portal's [while True]: what [accept]/[recv] delivered
    ([None] when they timed out or failed), the clock, and the state of the
    recovery button. *)
Record Poll := mkPoll {
  poll_request : option string;
  poll_time : LocalTime;
  poll_bootsel : bool
}.

(** [try: ...  except: pass] around the request handling. *)
Definition serve (p : Poll) : M Flow := λ w,
  match poll_request p with
  | Some req =>
      match handle_request (poll_time p) req w with
      | (w', Exn) => (w', Val Fallthrough)
      | r => r
      end
  | None => (w, Val Fallthrough)
  end.

(** The portal's [while True] loop over the passes supplied; it returns
    when the recovery button breaks out of it. *)
Fixpoint portal_loop (polls : list Poll) : M unit :=
  match polls with
  | [] => blocked
  | p :: rest =>
      flow ← serve p;
      match flow with
      | Continue => portal_loop rest
      | Fallthrough => if poll_bootsel p then mret () else portal_loop rest
      end
  end.

(** [run_setup_ap()]: it never returns to its caller. *)
Definition run_setup_ap (polls : list Poll) : M unit :=
  _ ← portal_loop polls;
  machine_reset.

(** ** Ticks *)

(** [utime.ticks_diff(a, b)] as MicroPython computes it, the tick period
    being [2^30]: the difference is shifted forward by half a period,
    wrapped, and shifted back. *)
Definition TICKS_PERIOD : Z := 2 ^ 30.

Definition ticks_diff (a b : Z) : Z :=
  Z.land (a - b + TICKS_PERIOD / 2) (TICKS_PERIOD - 1) - TICKS_PERIOD / 2.

(** ** 5. Portal & Networking: [sync_data] *)

(** The [current_weather] object of a response: each field is [None] when
    the key is missing or its value cannot be used ([int()] fails). *)
Record Weather := mkWeather {
  temperature : option Q;
  weathercode : option Z
}.

(** The network as one call of [sync_data] finds it: is the station
    connected, does [ntptime.settime()] succeed, and what does the weather
    request yield ([None] when the request, the JSON decoding or the
    lookup of [current_weather] fails). *)
Record Net := mkNet {
  isconnected : bool;
  settime_ok : bool;
  current_weather : option Weather
}.

Definition weather_codes : gmap Z string :=
  <[0 := "Clear"]> (<[1 := "Mainly Clear"]> (<[2 := "Partly Cloud"]>
  (<[3 := "Overcast"]> (<[61 := "Rainy"]> ∅)))).

(** [sync_data()]; [now] is its own reading of [utime.ticks_ms()]. *)
Definition sync_data (now : Z) (net : Net) : M unit := λ w,
  if negb (isconnected net) then (w, Val ()) else
  (_ ← (if ticks_diff now (last_ntp_update (st w)) >? 86400000 then
          try_pass (
            _ ← (if settime_ok net then mret () else raise);
            modify (with_st (set_last_ntp_update now)))
        else mret ());
   s ← (λ w, (w, Val (st w)));
   if ticks_diff now (last_weather_update s) >? 900000 then
     try_pass (
       curr ← must (current_weather net);
       temp ← must (temperature curr);
       _ ← modify (with_st (set_weather_temp (str_of_int (int_of_float temp) +:+ "C")));
       code ← must (weathercode curr);
       _ ← modify (with_st (set_weather_desc (default "Cloudy" (weather_codes !! code))));
       modify (with_st (set_last_weather_update now)))
   else mret ()) w.

(** ** 6. UI Views: the values the views compute

    The drawing itself is left out; these are the values handed to the
    display. *)

(** The status line of [view_dashboard] ([label]); [ticks] is the view's
    own reading of [utime.ticks_ms()].  The call of [update_hardware]
    drives the pins and yields the category. *)
Definition dashboard_label (ticks : Z) : M string := λ w,
  let '(w1, cat) := update_hardware (dust_val (st w)) w in
  let label := "STATUS: " +:+ cat in
  (w1, Val (if Qltb 35 (dust_val (st w1)) && Z.eqb ((ticks / 500) `mod` 2) 0
            then "!!! WARNING !!!" else label)).

(** A float that is not an infinity.  Floats being read as the rationals
    they stand for, a value outside the range of a double stands for the
    infinity the float arithmetic gives in its place. *)
Definition float_finite (x : Q) : bool :=
  Qltb (- inject_Z (2 ^ 1024)) x && Qltb x (inject_Z (2 ^ 1024)).

(** Python's [int(x)] on a float where the failure matters: [None] is the
    [OverflowError] on an infinity. *)
Definition py_int (x : Q) : option Z :=
  if float_finite x then Some (int_of_float x) else None.

(** The width of the filled bar of [view_graph] ([bar]), drawn from x = 2
    inside a frame 122 wide; [None] when [int()] raises. *)
Definition graph_bar (dust_val : Q) : option Z :=
  b ← py_int (dust_val * 2); Some (Z.min 120 b).







(** ** 7. Main Loop *)

Inductive View :=
  | view_dashboard
  | view_weather
  | view_graph
  | view_wifi_diag
  | view_wifi_scan.

#[global] Instance View_eq_dec : EqDecision View.
Proof. solve_decision. Defined.

Definition VIEWS : list View :=
  [view_dashboard; view_weather; view_graph; view_wifi_diag; view_wifi_scan].

Definition AUTO_VIEWS : list View := [view_dashboard; view_weather; view_graph].

(** Python's [l[i]], negative indices counting from the end. *)
Definition py_nth {A} (l : list A) (i : Z) : option A :=
  if 0 <=? i then l !! Z.to_nat i
  else if 0 <=? Z.of_nat (length l) + i then l !! Z.to_nat (Z.of_nat (length l) + i)
  else None.

(** Python's [l.index(x)]. *)
Fixpoint index_of `{EqDecision A} (x : A) (l : list A) : option Z :=
  match l with
  | [] => None
  | y :: r => if decide (y = x) then Some 0 else Z.succ <$> index_of x r
  end.

(** Python's [round(x)] and [round(x, n)]: ties go to the even neighbour. *)
Definition round_half_even (x : Q) : Z :=
  let f := Qfloor x in
  let r := (x - inject_Z f)%Q in
  if Qltb r 0.5 then f
  else if Qltb 0.5 r then f + 1
  else if Z.even f then f else f + 1.

Definition round (x : Q) (n : Z) : Q :=
  (inject_Z (round_half_even (x * Qpower 10 n)) / Qpower 10 n)%Q.

(** Everything one pass of the main loop reads from outside: the tick
    count and the button on its first line; what the portal and the
    calibration routine would read if this pass entered them; the ADC count
    of the sensor read; the tick count and the network seen by
    [sync_data]; the clock; and the station's status for the telemetry. *)
Record Tick := mkTick {
  now : Z;
  curr_btn : bool;
  portal_polls : list Poll;
  cal_adc : nat → Z;
  cal_time : LocalTime;
  cal_end : Z;
  adc : Z;
  sync_now : Z;
  net : Net;
  localtime : LocalTime;
  rssi : option Z
}.

(** The button edge ([if curr_btn != last_btn_state: ...]). *)
Definition button_edge (e : Tick) : M unit := λ w,
  if negb (eqb (curr_btn e) (last_btn_state (vars w))) then
    (_ ← (if curr_btn e then modify (with_vars (set_btn_start (now e)))
          else
            let dur := ticks_diff (now e) (btn_start (vars w)) in
            if dur >? 10000 then run_setup_ap (portal_polls e)
            else if dur >? 5000 then calibrate_sensor (cal_adc e) (cal_time e) (cal_end e)
            else if dur >? 20 then
              modify (with_vars (λ l, set_last_click (now e)
                                        (set_click_count (click_count l + 1) l)))
            else mret ());
     modify (with_vars (set_last_btn_state (curr_btn e)))) w
  else (w, Val ()).

(** The two actions of the click aggregation. *)
Inductive Tap :=
  | ShortTap
  | DoubleTap.

(** The click aggregation ([if click_count > 0 and ...]).  The value
    returned names the branch that ran, if any. *)
Definition click_aggregation (e : Tick) : M (option Tap) := λ w,
  if (click_count (vars w) >? 0)
     && (ticks_diff (now e) (last_click (vars w)) >? 250) then
    (tap ← (if click_count (vars w) >=? 2 then
              _ ← modify (with_st (λ s, set_auto_cycle (negb (auto_cycle s)) s));
              s ← (λ w, (w, Val (st w)));
              _ ← save_config (localtime e) None None None None
                              (Some (auto_cycle s)) None;
              _ ← modify (with_st (λ s,
                     set_msg_text (if auto_cycle s then "AUTO ON" else "AUTO OFF") s));
              _ ← modify (with_st (set_msg_timer (now e + 1000)));
              mret DoubleTap
            else
              _ ← modify (with_st (set_auto_cycle false));
              _ ← modify (with_st (λ s,
                     set_mode ((mode s + 1) `mod` Z.of_nat (length VIEWS)) s));
              _ ← modify (with_st (set_last_mode_change (now e)));
              mret ShortTap);
     _ ← modify (with_vars (set_click_count 0));
     mret (Some tap)) w
  else (w, Val None).

(** [l.pop(0)] followed by [l.append(x)]. *)
Definition pop0_append (x : Q) (l : list Q) : option (list Q) :=
  match l with
  | [] => None
  | _ :: r => Some (r ++ [x])
  end.

(** The sensor read and the smoothing ([# Read sensor]). *)
Definition read_sensor (e : Tick) : M unit :=
  _ ← modify (pin_value dust_led false);
  let v := read_voltage (adc e) in
  _ ← modify (pin_value dust_led true);
  s ← (λ w, (w, Val (st w)));
  let cur := max0 ((v - dust_offset s) * 170)%Q in
  h ← must (pop0_append cur (dust_history s));
  _ ← modify (with_st (set_dust_history h));
  modify (with_st (set_dust_val (sum (drop (length h - 15) h) / 15)%Q)).

(** [update_hardware] as a statement, its result dropped. *)
Definition do_update_hardware : M unit :=
  modify (λ w, (update_hardware (dust_val (st w)) w).1).

(** The telemetry ([if utime.ticks_diff(now, state.get("last_serial", 0)) ...]). *)
Definition telemetry (e : Tick) : M unit := λ w,
  if ticks_diff (now e) (default 0 (last_serial (st w))) >=? 1000 then
    let s := st w in
    let t := localtime e in
    let cat_str := (get_aqi_category (dust_val s)).1 in
    let ts := fmt_0d 4 (lt_year t) +:+ "-" +:+ fmt_0d 2 (lt_month t) +:+ "-"
              +:+ fmt_0d 2 (lt_mday t) +:+ " " +:+ fmt_0d 2 (lt_hour t) +:+ ":"
              +:+ fmt_0d 2 (lt_minute t) +:+ ":" +:+ fmt_0d 2 (lt_second t) in
    (_ ← modify (print (mkTelemetry ts (round (dust_val s) 2) cat_str
                          (round (dust_offset s) 4) (weather_temp s)
                          (weather_desc s) (rssi e) (auto_cycle s)));
     modify (with_st (set_last_serial (Some (now e))))) w
  else (w, Val ()).

(** The automatic view change ([if state["auto_cycle"] and ...]). *)
Definition auto_advance (e : Tick) : M unit := λ w,
  if auto_cycle (st w)
     && (ticks_diff (now e) (last_mode_change (st w)) >? 10000) then
    (cur_v ← must (py_nth VIEWS (mode (st w)));
     idx ← (if bool_decide (cur_v ∈ AUTO_VIEWS) then
              i ← must (index_of cur_v AUTO_VIEWS);
              mret ((i + 1) `mod` Z.of_nat (length AUTO_VIEWS))
            else mret 0);
     v ← must (py_nth AUTO_VIEWS idx);
     m ← must (index_of v VIEWS);
     _ ← modify (with_st (set_mode m));
     modify (with_st (set_last_mode_change (now e)))) w
  else (w, Val ()).

(** What the frame does besides drawing: the dashboard view, when it is
    the one shown, calls [update_hardware] once more, and the graph view
    converts the mean with [int()], which raises on an infinity (nothing
    catches it).  The other operations of the views are formatting and
    drawing, which do not fail on the values [state] can hold. *)
Definition render (e : Tick) : M unit := λ w,
  if now e <? msg_timer (st w) then (w, Val ())
  else if curr_btn e && (ticks_diff (now e) (btn_start (vars w)) >? 10000)
  then (w, Val ())
  else if curr_btn e && (ticks_diff (now e) (btn_start (vars w)) >? 5000)
  then (w, Val ())
  else
    (v ← must (py_nth VIEWS (mode (st w)));
     match v with
     | view_dashboard => do_update_hardware
     | view_graph =>
         s ← (λ w, (w, Val (st w)));
         _ ← must (graph_bar (dust_val s));
         mret ()
     | _ => mret ()
     end) w.

(** One pass of [while True]. *)
Definition loop_body (e : Tick) : M (option Tap) :=
  _ ← button_edge e;
  tap ← click_aggregation e;
  _ ← read_sensor e;
  _ ← sync_data (sync_now e) (net e);
  _ ← do_update_hardware;
  _ ← telemetry e;
  _ ← auto_advance e;
  _ ← render e;
  mret tap.

(** The passes of the main loop over the inputs supplied, with the taps
    they acted on, in order. *)
Fixpoint run (es : list Tick) : M (list Tap) :=
  match es with
  | [] => mret []
  | e :: rest =>
      tap ← loop_body e;
      taps ← run rest;
      mret (option_list tap ++ taps)
  end.

(** The [state] dictionary as the module creates it; [t0] is the
    [utime.ticks_ms()] read for [last_mode_change]. *)
Definition initial_state (t0 : Z) : State :=
  mkState 0 false 0 "" 0%Q (replicate 60 0%Q) 0.6%Q "--C" "Syncing..."
          (-900000) (-86400000) t0
          (mkConfig "" "" "51.7520" "-1.2577" false 0.6%Q) None.

(** The device when the module starts running, with the files and the
    flash as found. *)
Definition power_on (t0 : Z) (cf : ConfigFile) (lf : option (list LogEntry))
    (ok : bool) : World :=
  mkWorld (initial_state t0) (mkLoopVars false 0 0 0) ∅ cf lf [] [] ok.

(** * Notions the statements use *)

(** The six categories with their level indices. *)
Definition categories : list (string * Z) :=
  [("GOOD", 0); ("MODERATE", 1); ("UNHEALTHY-S", 2); ("UNHEALTHY", 3);
   ("V. UNHEALTHY", 4); ("HAZARDOUS", 5)].

(** The levels of the six category pins, in the order of [control_pins]. *)
Definition control_levels (w : World) : list (option bool) :=
  (λ pin, gpio w !! pin) <$> control_pins.

(** What holds of the [state] dictionary whenever the loop is running: the
    window has its 60 entries and [mode] indexes [VIEWS]. *)
Definition Inv (w : World) : Prop :=
  length (dust_history (st w)) = 60%nat ∧ 0 ≤ mode (st w) < 5.

(** The concentration estimate of one sensor read. *)
Definition concentration (raw : Z) (offset : Q) : Q :=
  max0 ((read_voltage raw - offset) * 170)%Q.

(** Two devices that differ at most in their pin levels. *)
Definition same_but_gpio (w w' : World) : Prop :=
  st w' = st w ∧ vars w' = vars w ∧ config_file w' = config_file w
  ∧ log_file w' = log_file w ∧ serial w' = serial w ∧ sent w' = sent w
  ∧ storage_ok w' = storage_ok w.

(** The timestamp of a log line. *)
Definition log_ts (t : LocalTime) : string :=
  fmt_0d 4 (lt_year t) +:+ "-" +:+ fmt_0d 2 (lt_month t) +:+ "-"
  +:+ fmt_0d 2 (lt_mday t) +:+ " " +:+ fmt_0d 2 (lt_hour t) +:+ ":"
  +:+ fmt_0d 2 (lt_minute t).

Definition or_keep {A} (arg : option A) (old : A) : A := default old arg.

(** The configuration after the assignments of the given arguments. *)
Definition assigned (ssid password lat lon : option string) (auto : option bool)
    (c : Config) : Config :=
  mkConfig (or_keep ssid (cfg_ssid c)) (or_keep password (cfg_pass c))
           (or_keep lat (cfg_lat c)) (or_keep lon (cfg_lon c))
           (or_keep auto (cfg_auto c)) (cfg_offset c).

Definition with_config (f : Config → Config) (w : World) : World :=
  with_st (λ s, set_config (f (config s)) s) w.

(** The rewrite of [config.json], which a failing flash swallows. *)
Definition persist (w : World) : World :=
  if storage_ok w then set_config_file (Stored (config (st w))) w else w.

(** The append to [cal_history.txt], which a failing flash swallows. *)
Definition append_log (t : LocalTime) (q : Q) (w : World) : World :=
  if storage_ok w
  then set_log_file (Some (default [] (log_file w) ++ [mkLogEntry (log_ts t) q])) w
  else w.

(** A computation that never touches the loop variables. *)
Definition keeps_vars {A} (m : M A) : Prop := ∀ w, vars (m w).1 = vars w.

(** The four things a release can do, read off the result of
    [button_edge]: hand the device to the portal, run the calibration and
    come back, count one more click, or nothing but note the new button
    state. *)
Definition enters_portal (e : Tick) (w : World) : Prop :=
  button_edge e w = run_setup_ap (portal_polls e) w.

Definition runs_calibration (e : Tick) (w : World) : Prop :=
  ∃ w1, calibrate_sensor (cal_adc e) (cal_time e) (cal_end e) w = (w1, Val ())
        ∧ button_edge e w = (with_vars (set_last_btn_state false) w1, Val ()).

Definition registers_click (e : Tick) (w : World) : Prop :=
  button_edge e w =
    (with_vars (λ l, mkLoopVars false (btn_start l) (click_count l + 1) (now e)) w,
     Val ()).

Definition ignores_release (e : Tick) (w : World) : Prop :=
  button_edge e w = (with_vars (set_last_btn_state false) w, Val ()).

(** The click counter and the time of the last click after [button_edge]. *)
Definition clicks_after (e : Tick) (w : World) : Z * Z :=
  (click_count (vars (button_edge e w).1), last_click (vars (button_edge e w).1)).

(** A device whose button has been held since tick [t0], otherwise as at
    power-on, and a pass of the loop at tick [t] that finds the button
    released or pressed, the rest of the outside world being quiet. *)
Definition held_since (t0 : Z) : World :=
  with_vars (λ l, set_btn_start t0 (set_last_btn_state true l))
            (power_on 0 Missing None true).

Definition quiet_tick (t : Z) (btn : bool) : Tick :=
  mkTick t btn [] (λ _, 0) (mkLocalTime 2026 1 1 0 0 0) t 0 t
         (mkNet false false None) (mkLocalTime 2026 1 1 0 0 0) None.

(** What the phases after the sensor read leave alone: the loop variables,
    the window and its mean, the offset, the auto-cycle flag, the message,
    the configuration, both files and the responses sent. *)
Definition late_frame (w w' : World) : Prop :=
  vars w' = vars w
  ∧ dust_history (st w') = dust_history (st w)
  ∧ dust_val (st w') = dust_val (st w)
  ∧ dust_offset (st w') = dust_offset (st w)
  ∧ auto_cycle (st w') = auto_cycle (st w)
  ∧ msg_text (st w') = msg_text (st w)
  ∧ msg_timer (st w') = msg_timer (st w)
  ∧ config (st w') = config (st w)
  ∧ config_file w' = config_file w
  ∧ log_file w' = log_file w
  ∧ sent w' = sent w
  ∧ storage_ok w' = storage_ok w.

(** A phase that returns normally, within [late_frame], with [mode] still
    an index of [VIEWS]. *)
Definition late_phase (m : M unit) (w : World) : Prop :=
  ∃ w', m w = (w', Val ()) ∧ late_frame w w' ∧ 0 ≤ mode (st w') < 5.

(** The device after the ShortTap branch and after the DoubleTap branch. *)
Definition short_tap (now : Z) (w : World) : World :=
  with_vars (set_click_count 0)
    (with_st (λ s, set_last_mode_change now
                     (set_mode ((mode s + 1) `mod` 5) (set_auto_cycle false s))) w).

Definition double_tap (now : Z) (w : World) : World :=
  let flag := negb (auto_cycle (st w)) in
  with_vars (set_click_count 0)
    (with_st (λ s, set_msg_timer (now + 1000)
                     (set_msg_text (if flag then "AUTO ON" else "AUTO OFF") s))
       (persist (with_config (set_cfg_auto flag) (with_st (set_auto_cycle flag) w)))).

(** A device that auto-cycles, with the flag persisted, one click pending
    since tick 0. *)
Definition auto_cycling_one_click : World :=
  let on := mkConfig "" "" "51.7520" "-1.2577" true 0.6%Q in
  mkWorld (set_config on (set_auto_cycle true (initial_state 0)))
          (mkLoopVars false 0 1 0) ∅ (Stored on) None [] [] true.

(** The loop variables after the button edge; [None] when the portal is
    entered. *)
Definition edge_vars (now : Z) (btn : bool) (l : LoopVars) : option LoopVars :=
  if negb (eqb btn (last_btn_state l)) then
    if btn then Some (set_last_btn_state btn (set_btn_start now l))
    else
      let dur := ticks_diff now (btn_start l) in
      if dur >? 10000 then None
      else if dur >? 5000 then Some (set_last_btn_state btn l)
      else if dur >? 20 then
        Some (set_last_btn_state btn
                (set_last_click now (set_click_count (click_count l + 1) l)))
      else Some (set_last_btn_state btn l)
  else Some l.

(** The loop variables after the click aggregation, and the tap acted on. *)
Definition aggregate_vars (now : Z) (l : LoopVars) : LoopVars * option Tap :=
  if (click_count l >? 0) && (ticks_diff now (last_click l) >? 250)
  then (set_click_count 0 l,
        Some (if click_count l >=? 2 then DoubleTap else ShortTap))
  else (l, None).

Definition gesture_step (now : Z) (btn : bool) (l : LoopVars)
    : option (LoopVars * option Tap) :=
  aggregate_vars now <$> edge_vars now btn l.

Fixpoint gesture_run (es : list Tick) (l : LoopVars) : option (LoopVars * list Tap) :=
  match es with
  | [] => Some (l, [])
  | e :: rest =>
      '(l1, tap) ← gesture_step (now e) (curr_btn e) l;
      '(l2, taps) ← gesture_run rest l1;
      Some (l2, option_list tap ++ taps)
  end.

(** The phases after the click aggregation, together. *)
Definition loop_tail (e : Tick) : M unit :=
  _ ← read_sensor e;
  _ ← sync_data (sync_now e) (net e);
  _ ← do_update_hardware;
  _ ← telemetry e;
  _ ← auto_advance e;
  render e.

(** The shapes of passes a scenario is made of: passes that find the
    button released (or pressed) no later than 250 ms after tick [t]; a
    release that ends a press begun at [start] and counts as a click; and a
    pass with the button released more than 250 ms after [t]. *)
Definition released_within (t : Z) (es : list Tick) : Prop :=
  Forall (λ e, curr_btn e = false ∧ ticks_diff (now e) t ≤ 250) es.

Definition pressed_within (t : Z) (es : list Tick) : Prop :=
  Forall (λ e, curr_btn e = true ∧ ticks_diff (now e) t ≤ 250) es.

Definition is_click (e : Tick) (start : Z) : Prop :=
  curr_btn e = false ∧ 20 < ticks_diff (now e) start ≤ 5000.

Definition fires_after (e : Tick) (t : Z) : Prop :=
  curr_btn e = false ∧ 250 < ticks_diff (now e) t.

(** The loop of [url_decode] seen from the suffix [s[i:]] still to be read:
    an escape is decoded when the suffix has at least three characters,
    that is, when [i + 2 < len(s)]. *)
Fixpoint decode_from (s : string) : option string :=
  match s with
  | EmptyString => Some ""
  | String c t =>
      match t with
      | String a (String b u) =>
          if Ascii.eqb c "%" then
            n ← py_int16 (String a (String b ""));
            ch ← py_chr n;
            String ch <$> decode_from u
          else String c <$> decode_from t
      | _ => String c <$> decode_from t
      end
  end.

Definition no_percent (s : string) : bool :=
  forallb (λ c, negb (Ascii.eqb c "%")) (list_ascii_of_string s).

(** The character of a well-formed escape [%ab]. *)
Definition escape_ok (a b : ascii) : bool :=
  match hex_val a, hex_val b with
  | Some va, Some vb =>
      bool_decide (py_int16 (String a (String b "")) ≫= py_chr
                   = Some (ascii_of_N (Z.to_N (16 * va + vb))))
  | _, _ => true
  end.

(** A connected device whose weather refresh is due, answered by a
    [current_weather] object that has a temperature but no
    [weathercode]. *)
Definition no_weathercode : Net :=
  mkNet true true (Some (mkWeather (Some 21.5%Q) None)).

Definition save_request (os : string) : string :=
  "GET /?s=home&p=secret&la=51.5&lo=-0.1&os=" +:+ os +:+ " HTTP/1.1".

(** Whether [float(offset)] succeeds on the [offset] argument given. *)
Definition offset_ok (offset : option PyVal) : bool :=
  match offset with
  | Some (PyStr s) => bool_decide (is_Some (py_float s))
  | _ => true
  end.

(** The built-in defaults of [state["config"]]. *)
Definition default_config : Config :=
  mkConfig "" "" "51.7520" "-1.2577" false 0.6%Q.

(** The window and its published mean hold no negative value. *)
Definition nonneg_window (w : World) : Prop :=
  Forall (λ x, (0 <= x)%Q) (dust_history (st w)) ∧ (0 <= dust_val (st w))%Q.

(** Where the automatic view change goes from view [m]. *)
Definition next_auto (m : Z) : Z := if m <? 3 then (m + 1) `mod` 3 else 0.

(** [s] has no occurrence of the character [c]. *)
Definition lacks (c : ascii) (s : string) : bool :=
  forallb (λ d, negb (Ascii.eqb d c)) (list_ascii_of_string s).

(** Python's [sep.join(l)] for a one-character separator. *)
Fixpoint join (sep : ascii) (l : list string) : string :=
  match l with
  | [] => ""
  | [s] => s
  | s :: r => s +:+ String sep (join sep r)
  end.

(** A query string made of the given [key=value] pairs. *)
Definition query_of (pairs : list (string * string)) : string :=
  join "&" ((λ kv, kv.1 +:+ String "=" kv.2) <$> pairs).

(** A key or a value that the query syntax leaves in one piece. *)
Definition clean (s : string) : bool := lacks "&" s && lacks "=" s.

(** The request line of a save, followed by whatever the client sends
    after the target. *)
Definition get_request (query rest : string) : string :=
  "GET /?" +:+ query +:+ String " " rest.

(** The query of the settings form. *)
Definition form_query (s p la lo os : string) : string :=
  query_of [("s", s); ("p", p); ("la", la); ("lo", lo); ("os", os)].

(** A form value as it can stand in the request line. *)
Definition form_value (s : string) : bool :=
  clean s && lacks " " s && lacks "?" s && lacks (ascii_of_nat 10) s.

(** The four text fields of a save, decoded; [None] when one of them has a
    malformed escape. *)
Definition decoded_fields (s p la lo : string)
    : option (string * string * string * string) :=
  s' ← url_decode s; p' ← url_decode p; la' ← url_decode la; lo' ← url_decode lo;
  Some (s', p', la', lo').

(** The characters a decimal literal is made of. *)
Definition numeric_char (c : ascii) : bool :=
  is_space c || bool_decide (is_Some (digit_val c))
  || Ascii.eqb c "+" || Ascii.eqb c "-" || Ascii.eqb c "." || Ascii.eqb c "e"
  || Ascii.eqb c "E".

Definition numeric (s : string) : bool :=
  forallb numeric_char (list_ascii_of_string s).

(** Two characters after a ['%'] that [int(.., 16)] rejects: the first is
    neither a hexadecimal digit, a blank nor a sign, or the first is a
    hexadecimal digit and the second is neither a hexadecimal digit nor a
    blank.  (A ['+'] has become a blank before the loop runs.) *)
Definition malformed (a b : ascii) : bool :=
  match hex_val a with
  | None => negb (is_space a) && negb (Ascii.eqb a "+") && negb (Ascii.eqb a "-")
  | Some _ =>
      match hex_val b with
      | None => negb (is_space b) && negb (Ascii.eqb b "+")
      | Some _ => false
      end
  end.

Definition malformed_ok (a b : ascii) : bool :=
  implb (malformed a b)
        (bool_decide (py_int16 (replace "+" " " (String a (String b ""))) ≫= py_chr
                      = None)).

(** The descriptions the weather cache can hold after a refresh. *)
Definition weather_descriptions : list string :=
  ["Clear"; "Mainly Clear"; "Partly Cloud"; "Overcast"; "Rainy"; "Cloudy"].

(** Magnitudes that keep every float of the loop far inside the range of
    a double: a calibration offset of at most [BOUND] in absolute value,
    with window entries of at most [1000 * BOUND]. *)
Definition BOUND : Q := inject_Z (10 ^ 300).

Definition in_range (w : World) : Prop :=
  (- BOUND <= dust_offset (st w) <= BOUND)%Q
  ∧ Forall (λ x, (- (1000 * BOUND) <= x <= 1000 * BOUND)%Q) (dust_history (st w)).

(** The counts [read_u16()] returns, for the sensor read and for the 500
    reads of a calibration. *)
Definition adc_ok (e : Tick) : Prop :=
  0 ≤ adc e ≤ 65535 ∧ ∀ i, 0 ≤ cal_adc e i ≤ 65535.

(** The offset a calibration at tick [e] measures. *)
Definition calibration_mean (e : Tick) : Q :=
  (sum ((λ i, read_voltage (cal_adc e i)) <$> seq 0 500) / inject_Z 500)%Q.

(** A character that occurs in no string [float()] accepts: a printable
    ASCII character that is neither a letter, a digit, a sign, a point nor
    an underscore.  (Letters and the underscore are left out because
    [float()] also takes [inf], [nan] and digits grouped by underscores;
    blanks and the characters beyond ASCII are left out as well.) *)
Definition not_float_char (c : ascii) : bool :=
  let n := nat_of_ascii c in
  ((33 <=? n) && (n <=? 126)
   && negb (((48 <=? n) && (n <=? 57)) || ((65 <=? n) && (n <=? 90))
            || ((97 <=? n) && (n <=? 122))))%nat
  && negb (Ascii.eqb c "+" || Ascii.eqb c "-" || Ascii.eqb c "." || Ascii.eqb c "_").

(** A sufficient test for [float(s)] to raise [ValueError]: [s] has a
    character that no float literal has. *)
Definition float_raises (s : string) : bool :=
  existsb not_float_char (list_ascii_of_string s).

(** The [offset] arguments on which [py_float] is [float()]: none, a
    float, a decimal literal, or a string that [float()] rejects by
    [float_raises]. *)
Definition offset_in_model (offset : option PyVal) : bool :=
  match offset with
  | Some (PyStr s) => bool_decide (is_Some (py_float s)) || float_raises s
  | _ => true
  end.

(** * Properties *)

(** ** The classifier *)

Lemma Qle_bool_spec (a b : Q) : reflect (a <= b)%Q (Qle_bool a b).
Proof. apply iff_reflect. symmetry. apply Qle_bool_iff. Qed.

Lemma Qltb_spec (a b : Q) : reflect (a < b)%Q (Qltb a b).
Proof.
  unfold Qltb. destruct (Qle_bool_spec b a); constructor; lra.
Qed.

Lemma level_range (c : Q) : 0 ≤ (get_aqi_category c).2 ≤ 5.
Proof.
  unfold get_aqi_category.
  repeat match goal with
         | |- context [Qle_bool c ?d] => destruct (Qle_bool c d)
         end; simpl; lia.
Qed.

(** C3.  For every concentration [c] the classifier returns one of the six
    categories with its level index 0-5, fixed by the ascending breakpoints
    12.0, 35.4, 55.4, 150.4 and 250.4 (each range closed above, the last
    unbounded); the result depends on the value of [c] alone; and
    [get_aqi_category 40.0] is [("UNHEALTHY-S", 2)].  (The spec's name
    V.UNHEALTHY stands for the label ["V. UNHEALTHY"].) *)
Theorem get_aqi_category_spec (c : Q) :
  get_aqi_category c ∈ categories
  ∧ 0 ≤ (get_aqi_category c).2 ≤ 5
  ∧ (get_aqi_category c = ("GOOD", 0) ↔ (c <= 12.0)%Q)
  ∧ (get_aqi_category c = ("MODERATE", 1) ↔ (12.0 < c <= 35.4)%Q)
  ∧ (get_aqi_category c = ("UNHEALTHY-S", 2) ↔ (35.4 < c <= 55.4)%Q)
  ∧ (get_aqi_category c = ("UNHEALTHY", 3) ↔ (55.4 < c <= 150.4)%Q)
  ∧ (get_aqi_category c = ("V. UNHEALTHY", 4) ↔ (150.4 < c <= 250.4)%Q)
  ∧ (get_aqi_category c = ("HAZARDOUS", 5) ↔ (250.4 < c)%Q)
  ∧ (∀ c' : Q, (c == c')%Q → get_aqi_category c' = get_aqi_category c)
  ∧ get_aqi_category 40.0 = ("UNHEALTHY-S", 2).
Proof.
  assert (Hext : ∀ c' : Q, (c == c')%Q → get_aqi_category c' = get_aqi_category c).
  { intros c' Hc. unfold get_aqi_category.
    repeat match goal with
           | |- context [Qle_bool c' ?d] =>
               replace (Qle_bool c' d) with (Qle_bool c d)
                 by (destruct (Qle_bool_spec c d), (Qle_bool_spec c' d);
                     try reflexivity; exfalso; lra)
           end.
    reflexivity. }
  unfold get_aqi_category in *.
  destruct (Qle_bool_spec c 12.0);
    [|destruct (Qle_bool_spec c 35.4);
      [|destruct (Qle_bool_spec c 55.4);
        [|destruct (Qle_bool_spec c 150.4);
          [|destruct (Qle_bool_spec c 250.4)]]]];
    (split; [unfold categories; set_solver|]);
    (split; [simpl; lia|]);
    repeat split; try assumption; try reflexivity; try discriminate;
    try (intros; exfalso; lra); try (intros; lra); try tauto.
Qed.

Lemma get_aqi_category_spec_witness :
  (35.4 < 40.0 <= 55.4)%Q ∧ get_aqi_category 40.0 = ("UNHEALTHY-S", 2).
Proof.
  split; [lra|].
  apply (proj2 (proj1 (proj2 (proj2 (proj2 (proj2 (get_aqi_category_spec 40.0))))))).
  lra.
Defined.

(** ** The output pins *)

Lemma update_hardware_gpio (c : Q) (w : World) :
  let l := (get_aqi_category c).2 in
  gpio (update_hardware c w).1 =
    <[7%nat := Z.eqb 5 l]> (<[6%nat := Z.eqb 4 l]> (<[5%nat := Z.eqb 3 l]>
    (<[4%nat := Z.eqb 2 l]> (<[3%nat := Z.eqb 1 l]> (<[2%nat := Z.eqb 0 l]> (gpio w)))))).
Proof.
  unfold update_hardware. destruct (get_aqi_category c) as [cat l]. reflexivity.
Qed.

Lemma update_hardware_frame (c : Q) (w : World) :
  let w' := (update_hardware c w).1 in
  st w' = st w ∧ vars w' = vars w ∧ config_file w' = config_file w
  ∧ log_file w' = log_file w ∧ serial w' = serial w ∧ sent w' = sent w
  ∧ storage_ok w' = storage_ok w.
Proof.
  unfold update_hardware. destruct (get_aqi_category c) as [cat l].
  repeat split.
Qed.

Lemma World_eq (w1 w2 : World) :
  st w1 = st w2 → vars w1 = vars w2 → gpio w1 = gpio w2 →
  config_file w1 = config_file w2 → log_file w1 = log_file w2 →
  serial w1 = serial w2 → sent w1 = sent w2 → storage_ok w1 = storage_ok w2 →
  w1 = w2.
Proof. destruct w1, w2; simpl; intros; subst; reflexivity. Qed.

Lemma update_hardware_levels (c : Q) (w : World) :
  control_levels (update_hardware c w).1 =
    (λ i, Some (bool_decide (Z.of_nat i = (get_aqi_category c).2))) <$> seq 0 6.
Proof.
  assert (Hl : 0 ≤ (get_aqi_category c).2 ≤ 5) by apply level_range.
  unfold control_levels. rewrite update_hardware_gpio. cbv zeta.
  generalize dependent ((get_aqi_category c).2). intros level Hl.
  cbn [fmap list_fmap control_pins seq].
  rewrite !lookup_insert.
  assert (Hcases : level = 0 ∨ level = 1 ∨ level = 2 ∨ level = 3 ∨ level = 4
                   ∨ level = 5) by lia.
  destruct Hcases as [E|[E|[E|[E|[E|E]]]]]; subst level;
    repeat (case_decide; try lia); reflexivity.
Qed.

(** C6.  After [update_hardware(c)] the six category pins, read in the
    order of [control_pins], are all driven, and the pin at index [i] is
    active exactly when [i] is the classifier's level for [c], a number from
    0 to 5: one pin is active and five are inactive.  For [c = 40.0] that is
    line 2.  Calling it again with a concentration of the same level
    leaves the device as it is. *)
Theorem update_hardware_one_hot (c : Q) (w : World) :
  let w' := (update_hardware c w).1 in
  let level := (get_aqi_category c).2 in
  0 ≤ level ≤ 5
  ∧ control_levels w' = (λ i, Some (bool_decide (Z.of_nat i = level))) <$> seq 0 6
  ∧ length (filter (λ v, v = Some true) (control_levels w')) = 1%nat
  ∧ length (filter (λ v, v = Some false) (control_levels w')) = 5%nat
  ∧ (∀ c' : Q, (get_aqi_category c').2 = level → (update_hardware c' w').1 = w')
  ∧ control_levels (update_hardware 40.0 w).1 =
      [Some false; Some false; Some true; Some false; Some false; Some false].
Proof.
  intros w' level.
  assert (Hl : 0 ≤ level ≤ 5) by apply level_range.
  assert (Hlv := update_hardware_levels c w). fold w' level in Hlv.
  assert (Hcases : level = 0 ∨ level = 1 ∨ level = 2 ∨ level = 3 ∨ level = 4
                   ∨ level = 5) by lia.
  split; [exact Hl|]. split; [exact Hlv|].
  split; [|split; [|split]].
  - rewrite Hlv.
    destruct Hcases as [E|[E|[E|[E|[E|E]]]]]; rewrite E; reflexivity.
  - rewrite Hlv.
    destruct Hcases as [E|[E|[E|[E|[E|E]]]]]; rewrite E; reflexivity.
  - intros c' Hc'.
    destruct (update_hardware_frame c' w') as (?&?&?&?&?&?&?).
    apply World_eq; try assumption.
    unfold w'. rewrite !update_hardware_gpio. cbv zeta. rewrite Hc'. unfold level.
    apply map_eq. intros k.
    rewrite !lookup_insert. repeat case_decide; congruence.
  - rewrite update_hardware_levels. reflexivity.
Qed.

Lemma update_hardware_one_hot_witness :
  (get_aqi_category 50.0).2 = (get_aqi_category 40.0).2
  ∧ (update_hardware 50.0 (update_hardware 40.0 (power_on 0 Missing None true)).1).1
    = (update_hardware 40.0 (power_on 0 Missing None true)).1.
Proof.
  split; [reflexivity|].
  apply (update_hardware_one_hot 40.0 (power_on 0 Missing None true)).
  reflexivity.
Defined.

(** ** The rolling window *)

Arguments ticks_diff : simpl never.
Arguments get_aqi_category : simpl never.
Arguments update_hardware : simpl never.
Arguments round : simpl never.
Arguments sum : simpl never.
Arguments fmt_0d : simpl never.
Arguments read_voltage : simpl never.
Arguments max0 : simpl never.
Arguments str_of_int : simpl never.
Arguments int_of_float : simpl never.

(** Unfolding of the control-flow combinators. *)
Ltac munfold :=
  unfold mbind, M_bind, mret, M_ret, modify, must, raise, try_pass,
    machine_reset, blocked in *.

Lemma read_sensor_eq (e : Tick) (w : World) :
  read_sensor e w =
    match pop0_append (concentration (adc e) (dust_offset (st w)))
                      (dust_history (st w)) with
    | Some h =>
        (with_st (λ s, set_dust_val (sum (drop (length h - 15) h) / 15)%Q
                         (set_dust_history h s))
                 (pin_value dust_led true (pin_value dust_led false w)),
         Val ())
    | None => (pin_value dust_led true (pin_value dust_led false w), Exn)
    end.
Proof.
  unfold read_sensor, concentration. munfold. simpl.
  destruct (pop0_append _ _); reflexivity.
Qed.

(** One sensor read on a 60-entry window: the oldest entry leaves, the
    new concentration enters, and [dust_val] is the mean of the last 15. *)
Lemma read_sensor_spec (e : Tick) (w : World)
    (Hlen : length (dust_history (st w)) = 60%nat) :
  let cur := concentration (adc e) (dust_offset (st w)) in
  ∃ w', read_sensor e w = (w', Val ())
    ∧ dust_history (st w') = drop 1 (dust_history (st w)) ++ [cur]
    ∧ length (dust_history (st w')) = 60%nat
    ∧ drop 45 (dust_history (st w')) = drop 46 (dust_history (st w)) ++ [cur]
    ∧ length (drop 45 (dust_history (st w'))) = 15%nat
    ∧ dust_val (st w') = (sum (drop 45 (dust_history (st w'))) / 15)%Q.
Proof.
  intros cur. rewrite read_sensor_eq. fold cur.
  destruct (dust_history (st w)) as [|x h] eqn:Hh; [discriminate|].
  simpl in Hlen. simpl pop0_append. eexists. split; [reflexivity|].
  assert (Hl : length (h ++ [cur]) = 60%nat) by (rewrite length_app; simpl; lia).
  simpl. rewrite Hl. change (60 - 15)%nat with 45%nat.
  repeat split; try assumption.
  - rewrite drop_app_le by lia. reflexivity.
  - rewrite length_drop. lia.
Qed.

(** ** The calibration routine *)

Arguments calibration_samples : simpl never.

Lemma same_but_gpio_refl (w : World) : same_but_gpio w w.
Proof. repeat split. Qed.

Lemma same_but_gpio_pin (w w' : World) (pin : nat) (v : bool) :
  same_but_gpio w w' → same_but_gpio w (pin_value pin v w').
Proof. intros (?&?&?&?&?&?&?). repeat split; assumption. Qed.

Lemma calibration_loop_spec (adc : nat → Z) (l : list nat) :
  ∀ (w : World) (acc : list Q),
  ∃ w1,
    foldl (λ '(w, samples) i,
             let w := pin_value dust_led false w in
             let v := read_voltage (adc i) in
             let w := pin_value dust_led true w in
             (w, samples ++ [v]))
          (w, acc) l
    = (w1, acc ++ ((λ i, read_voltage (adc i)) <$> l))
    ∧ same_but_gpio w w1.
Proof.
  induction l as [|i l IH]; intros w acc.
  - exists w. simpl. rewrite app_nil_r. split; [reflexivity|apply same_but_gpio_refl].
  - destruct (IH (pin_value dust_led true (pin_value dust_led false w))
                 (acc ++ [read_voltage (adc i)])) as (w1 & Heq & Hs).
    exists w1. split.
    + rewrite fmap_cons.
      replace (acc ++ read_voltage (adc i) :: ((λ i, read_voltage (adc i)) <$> l))
        with ((acc ++ [read_voltage (adc i)]) ++ ((λ i, read_voltage (adc i)) <$> l))
        by (rewrite <- app_assoc; reflexivity).
      exact Heq.
    + destruct Hs as (?&?&?&?&?&?&?). repeat split; assumption.
Qed.

Lemma calibration_samples_spec (adc : nat → Z) (w : World) :
  ∃ w1, calibration_samples adc w = (w1, (λ i, read_voltage (adc i)) <$> seq 0 500)
        ∧ same_but_gpio w w1.
Proof. unfold calibration_samples. apply (calibration_loop_spec adc _ w []). Qed.

Lemma foldl_Qplus_replicate (n : nat) (v : Q) :
  ∀ a : Q, (foldl Qplus a (replicate n v) == a + inject_Z (Z.of_nat n) * v)%Q.
Proof.
  induction n as [|n IH]; intros a.
  - simpl. ring.
  - cbn [replicate foldl]. rewrite IH.
    rewrite Nat2Z.inj_succ. unfold Z.succ. rewrite inject_Z_plus. ring.
Qed.

(** The mean of [n > 0] copies of [v] is [v]. *)
Lemma mean_replicate (n : nat) (v : Q) :
  (0 < n)%nat → (sum (replicate n v) / inject_Z (Z.of_nat n) == v)%Q.
Proof.
  intros Hn. unfold sum. rewrite foldl_Qplus_replicate.
  assert (Hz : ¬ (inject_Z (Z.of_nat n) == 0)%Q).
  { unfold Qeq. simpl. lia. }
  field. exact Hz.
Qed.

Lemma fmap_const_replicate {A B} (f : A → B) (v : B) (l : list A) :
  (∀ x, f x = v) → f <$> l = replicate (length l) v.
Proof.
  intros Hf. induction l as [|x l IH]; [reflexivity|].
  simpl. rewrite Hf. f_equal. exact IH.
Qed.

(** *** What [save_config] does, in one piece *)

Lemma World_eta (w : World) :
  mkWorld (st w) (vars w) (gpio w) (config_file w) (log_file w) (serial w)
          (sent w) (storage_ok w) = w.
Proof. destruct w; reflexivity. Qed.

Lemma State_eta (s : State) :
  mkState (mode s) (auto_cycle s) (msg_timer s) (msg_text s) (dust_val s)
          (dust_history s) (dust_offset s) (weather_temp s) (weather_desc s)
          (last_weather_update s) (last_ntp_update s) (last_mode_change s)
          (config s) (last_serial s) = s.
Proof. destruct s; reflexivity. Qed.

Lemma save_config_plain (t : LocalTime) (ssid password lat lon : option string)
    (auto : option bool) (w : World) :
  save_config t ssid password lat lon auto None w =
    (persist (with_config (assigned ssid password lat lon auto) w), Val ()).
Proof.
  destruct w as [[? ? ? ? ? ? ? ? ? ? ? ? [? ? ? ? ? ?] ?] ? ? ? ? ? ? ?].
  destruct ssid, password, lat, lon, auto; reflexivity.
Qed.

Lemma save_config_float (t : LocalTime) (ssid password lat lon : option string)
    (auto : option bool) (q : Q) (w : World) :
  save_config t ssid password lat lon auto (Some (PyFloat q)) w =
    (persist (append_log t q
       (with_config (λ c, set_cfg_offset q (assigned ssid password lat lon auto c)) w)),
     Val ()).
Proof.
  destruct w as [[? ? ? ? ? ? ? ? ? ? ? ? [? ? ? ? ? ?] ?] ? ? ? ? ? ? []];
    destruct ssid, password, lat, lon, auto; reflexivity.
Qed.

Lemma save_config_str (t : LocalTime) (ssid password lat lon : option string)
    (auto : option bool) (os : string) (w : World) :
  save_config t ssid password lat lon auto (Some (PyStr os)) w =
    match py_float os with
    | Some q =>
        (persist (append_log t q
           (with_config (λ c, set_cfg_offset q (assigned ssid password lat lon auto c)) w)),
         Val ())
    | None => (with_config (assigned ssid password lat lon auto) w, Exn)
    end.
Proof.
  unfold save_config, float. munfold.
  destruct w as [[? ? ? ? ? ? ? ? ? ? ? ? [? ? ? ? ? ?] ?] ? ? ? ? ? ? []];
    destruct ssid, password, lat, lon, auto; simpl;
    destruct (py_float os); reflexivity.
Qed.

(** C4.  The calibration routine returns normally after exactly 500 sensor
    reads.  The new offset, in [state] and in the configuration, is the sum
    of the 500 voltages divided by 500; a constant ADC count makes it the
    voltage of that count.  When the flash accepts writes, [config.json]
    holds the updated configuration and [cal_history.txt] has grown by
    exactly one entry, which carries that offset.  The message is
    "CAL & LOGGED!" and its timer is the tick count read at the end plus
    2000. *)
Theorem calibrate_sensor_spec (adc : nat → Z) (t : LocalTime) (t_end : Z)
    (w : World) (Hok : storage_ok w = true) :
  let samples := (λ i, read_voltage (adc i)) <$> seq 0 500 in
  let avg := (sum samples / inject_Z 500)%Q in
  ∃ w', calibrate_sensor adc t t_end w = (w', Val ())
    ∧ (∀ w0, (calibration_samples adc w0).2 = samples)
    ∧ length samples = 500%nat
    ∧ dust_offset (st w') = avg
    ∧ config (st w') = set_cfg_offset avg (config (st w))
    ∧ config_file w' = Stored (config (st w'))
    ∧ log_file w' = Some (default [] (log_file w) ++ [mkLogEntry (log_ts t) avg])
    ∧ msg_text (st w') = "CAL & LOGGED!"
    ∧ msg_timer (st w') = t_end + 2000
    ∧ (∀ raw, (∀ i, adc i = raw) → (avg == read_voltage raw)%Q).
Proof.
  intros samples avg.
  unfold calibrate_sensor. munfold.
  destruct (calibration_samples_spec adc
              (foldl (λ w pin, pin_value pin false w) w control_pins))
    as (w1 & Heq & Hs).
  rewrite Heq. fold samples.
  assert (Hlen : length samples = 500%nat).
  { unfold samples. rewrite length_fmap, length_seq. reflexivity. }
  unfold py_div. rewrite Hlen.
  change (Qeq_bool (inject_Z (Z.of_nat 500)) 0) with false.
  change (Z.of_nat 500) with 500. fold avg.
  munfold. cbn iota beta. rewrite save_config_float.
  assert (Hs0 : same_but_gpio w w1).
  { destruct Hs as (H1&H2&H3&H4&H5&H6&H7). repeat split;
      [rewrite H1|rewrite H2|rewrite H3|rewrite H4|rewrite H5|rewrite H6|rewrite H7];
      reflexivity. }
  destruct Hs0 as (H1&H2&H3&H4&H5&H6&H7). clear Heq Hs.
  destruct w1; simpl in H1, H2, H3, H4, H5, H6, H7; subst.
  assert (Hsamp : ∀ w0, (calibration_samples adc w0).2 = samples).
  { intros w0. destruct (calibration_samples_spec adc w0) as (w2 & Hw2 & _).
    rewrite Hw2. reflexivity. }
  generalize dependent Hsamp. generalize (calibration_samples adc). intros cs Hsamp.
  eexists. split; [reflexivity|].
  unfold persist, append_log, with_config. simpl. rewrite Hok. simpl.
  split; [exact Hsamp|].
  repeat (split; [reflexivity|]).
  intros raw Hraw. unfold avg, samples.
  rewrite (fmap_const_replicate _ (read_voltage raw)) by (intros i; rewrite Hraw; reflexivity).
  rewrite length_seq. apply (mean_replicate 500). lia.
Qed.

Lemma calibrate_sensor_spec_witness :
  ∃ w', calibrate_sensor (λ _, 13107) (mkLocalTime 2026 3 14 9 26 53) 70000
                         (power_on 0 Missing None true) = (w', Val ())
    ∧ (dust_offset (st w') == 0.66)%Q
    ∧ log_file w' = Some [mkLogEntry "2026-03-14 09:26" (dust_offset (st w'))]
    ∧ msg_timer (st w') = 72000.
Proof.
  destruct (calibrate_sensor_spec (λ _, 13107) (mkLocalTime 2026 3 14 9 26 53) 70000
              (power_on 0 Missing None true) eq_refl)
    as (w' & Hrun & _ & _ & Hoff & _ & _ & Hlog & _ & Htimer & Hconst).
  exists w'. split; [exact Hrun|]. split; [|split].
  - rewrite Hoff. rewrite (Hconst 13107 (λ _, eq_refl)). reflexivity.
  - rewrite Hlog, Hoff. reflexivity.
  - exact Htimer.
Defined.

(** ** Ticks *)

Lemma ticks_diff_mod (a b : Z) :
  ticks_diff a b = (a - b + 2 ^ 29) `mod` 2 ^ 30 - 2 ^ 29.
Proof.
  unfold ticks_diff, TICKS_PERIOD.
  change (2 ^ 30 - 1) with (Z.ones 30). rewrite Z.land_ones by lia.
  reflexivity.
Qed.

(** Within half a period, [ticks_diff] is the plain difference. *)
Lemma ticks_diff_small (a b : Z) :
  - 2 ^ 29 ≤ a - b < 2 ^ 29 → ticks_diff a b = a - b.
Proof.
  intros H. rewrite ticks_diff_mod. rewrite Z.mod_small by lia. lia.
Qed.

Lemma ticks_diff_same (a : Z) : ticks_diff a a = 0.
Proof. rewrite ticks_diff_small; lia. Qed.

(** ** What the blocking routines leave alone *)

Lemma keeps_vars_ret {A} (a : A) : keeps_vars (mret a).
Proof. intros w. reflexivity. Qed.

Lemma keeps_vars_bind {A B} (m : M A) (k : A → M B) :
  keeps_vars m → (∀ a, keeps_vars (k a)) → keeps_vars (m ≫= k).
Proof.
  intros Hm Hk w. unfold mbind, M_bind. specialize (Hm w).
  destruct (m w) as [w1 [a| | |]]; simpl in *; try assumption.
  rewrite Hk. assumption.
Qed.

Lemma keeps_vars_modify (f : World → World) :
  (∀ w, vars (f w) = vars w) → keeps_vars (modify f).
Proof. intros Hf w. apply Hf. Qed.

Lemma keeps_vars_must {A} (o : option A) : keeps_vars (must o).
Proof. intros w. destruct o; reflexivity. Qed.

Lemma keeps_vars_reset {A} : keeps_vars (@machine_reset A).
Proof. intros w. reflexivity. Qed.

Lemma keeps_vars_save_config (t : LocalTime) (ssid password lat lon : option string)
    (auto : option bool) (offset : option PyVal) :
  keeps_vars (save_config t ssid password lat lon auto offset).
Proof.
  intros w. destruct offset as [[q|os]|].
  - rewrite save_config_float. destruct w as [? ? ? ? ? ? ? []]; reflexivity.
  - rewrite save_config_str. destruct (py_float os); [|reflexivity].
    destruct w as [? ? ? ? ? ? ? []]; reflexivity.
  - rewrite save_config_plain. destruct w as [? ? ? ? ? ? ? []]; reflexivity.
Qed.

Lemma keeps_vars_handle_request (t : LocalTime) (req : string) :
  keeps_vars (handle_request t req).
Proof.
  unfold handle_request. destruct (contains "GET /logs" req).
  - apply keeps_vars_bind; [apply keeps_vars_modify; reflexivity|].
    intros _. apply keeps_vars_ret.
  - apply keeps_vars_bind.
    + destruct (contains "GET /?s=" req); [|apply keeps_vars_ret].
      repeat (apply keeps_vars_bind; [apply keeps_vars_must|intros ?]).
      apply keeps_vars_bind; [apply keeps_vars_save_config|intros _].
      apply keeps_vars_bind; [apply keeps_vars_modify; reflexivity|intros _].
      apply keeps_vars_reset.
    + intros _. apply keeps_vars_bind; [apply keeps_vars_modify; reflexivity|].
      intros _. apply keeps_vars_ret.
Qed.

Lemma keeps_vars_serve (p : Poll) : keeps_vars (serve p).
Proof.
  intros w. unfold serve. destruct (poll_request p) as [req|]; [|reflexivity].
  pose proof (keeps_vars_handle_request (poll_time p) req w) as H.
  destruct (handle_request (poll_time p) req w) as [w1 [a| | |]]; exact H.
Qed.

Lemma keeps_vars_portal_loop (polls : list Poll) : keeps_vars (portal_loop polls).
Proof.
  induction polls as [|p rest IH]; [intros w; reflexivity|].
  simpl. apply keeps_vars_bind; [apply keeps_vars_serve|].
  intros [|]; [exact IH|]. destruct (poll_bootsel p); [apply keeps_vars_ret|exact IH].
Qed.

Lemma keeps_vars_run_setup_ap (polls : list Poll) : keeps_vars (run_setup_ap polls).
Proof.
  apply keeps_vars_bind; [apply keeps_vars_portal_loop|].
  intros _. apply keeps_vars_reset.
Qed.

(** [run_setup_ap] does not come back to its caller. *)
Lemma run_setup_ap_no_return (polls : list Poll) (w : World) :
  (run_setup_ap polls w).2 = Reset ∨ (run_setup_ap polls w).2 = Blocked.
Proof.
  unfold run_setup_ap. munfold.
  assert (H : ∀ w, (portal_loop polls w).2 ≠ Exn).
  { clear w. induction polls as [|p rest IH]; intros w; [discriminate|].
    simpl. munfold. unfold serve.
    destruct (poll_request p) as [req|].
    - destruct (handle_request (poll_time p) req w) as [w1 [[|]| | |]];
        simpl; try discriminate; try apply IH.
      all: destruct (poll_bootsel p); [discriminate|apply IH].
    - destruct (poll_bootsel p); [discriminate|apply IH]. }
  specialize (H w).
  destruct (portal_loop polls w) as [w1 [[]| | |]]; simpl in *; auto.
  congruence.
Qed.

Arguments save_config : simpl never.
Arguments run_setup_ap : simpl never.
Arguments calibrate_sensor : simpl never.

(** The calibration routine in one piece: apart from the pin levels it
    starts from [w], and it always returns. *)
Lemma calibrate_sensor_eq (adc : nat → Z) (t : LocalTime) (t_end : Z) (w : World) :
  let avg := (sum ((λ i, read_voltage (adc i)) <$> seq 0 500) / inject_Z 500)%Q in
  ∃ w1, same_but_gpio w w1 ∧
    calibrate_sensor adc t t_end w =
      (with_st (set_msg_timer (t_end + 2000))
         (with_st (set_msg_text "CAL & LOGGED!")
            (persist (append_log t avg
               (with_config (λ c, set_cfg_offset avg
                                    (assigned None None None None None c))
                  (with_st (set_dust_offset avg) w1))))),
       Val ()).
Proof.
  intros avg. unfold calibrate_sensor. munfold.
  destruct (calibration_samples_spec adc
              (foldl (λ w pin, pin_value pin false w) w control_pins))
    as (w1 & Heq & Hs).
  exists w1. split.
  { destruct Hs as (H1&H2&H3&H4&H5&H6&H7). repeat split;
      [rewrite H1|rewrite H2|rewrite H3|rewrite H4|rewrite H5|rewrite H6|rewrite H7];
      reflexivity. }
  rewrite Heq. unfold py_div. rewrite length_fmap, length_seq.
  change (Qeq_bool (inject_Z (Z.of_nat 500)) 0) with false.
  change (Z.of_nat 500) with 500. fold avg.
  munfold. cbn iota beta. rewrite save_config_float. reflexivity.
Qed.

(** The calibration routine returns, and leaves the loop variables, the
    window and the view alone. *)
Lemma calibrate_sensor_total (adc : nat → Z) (t : LocalTime) (t_end : Z) (w : World) :
  ∃ w', calibrate_sensor adc t t_end w = (w', Val ())
    ∧ vars w' = vars w
    ∧ dust_history (st w') = dust_history (st w)
    ∧ mode (st w') = mode (st w)
    ∧ dust_offset (st w')
      = (sum ((λ i, read_voltage (adc i)) <$> seq 0 500) / inject_Z 500)%Q.
Proof.
  destruct (calibrate_sensor_eq adc t t_end w) as (w1 & Hs & Heq).
  rewrite Heq. eexists. split; [reflexivity|].
  destruct Hs as (H1&H2&_). rewrite <- H1, <- H2.
  destruct w1 as [? ? ? ? ? ? ? []]; repeat split.
Qed.

(** ** The button *)

(** [button_edge] on a release. *)
Lemma button_edge_release (e : Tick) (w : World) :
  last_btn_state (vars w) = true → curr_btn e = false →
  let dur := ticks_diff (now e) (btn_start (vars w)) in
  button_edge e w =
    (_ ← (if dur >? 10000 then run_setup_ap (portal_polls e)
          else if dur >? 5000
               then calibrate_sensor (cal_adc e) (cal_time e) (cal_end e)
               else if dur >? 20 then
                 modify (with_vars (λ l, set_last_click (now e)
                                           (set_click_count (click_count l + 1) l)))
               else mret ());
     modify (with_vars (set_last_btn_state false))) w.
Proof.
  intros Hpressed Hrelease. unfold button_edge. rewrite Hpressed, Hrelease.
  reflexivity.
Qed.

(** C1, as the code has it.  On a release the press duration [dur]
    decides: more than 10000 ms enters the setup portal; more than 5000 ms
    and at most 10000 ms runs the calibration; more than 20 ms and at most
    5000 ms registers one click at the current tick; 20 ms or less changes
    nothing but the recorded button state.  Neither hold registers a
    click. *)
Theorem button_release_classification (e : Tick) (w : World)
    (Hpressed : last_btn_state (vars w) = true) (Hrelease : curr_btn e = false) :
  let dur := ticks_diff (now e) (btn_start (vars w)) in
  (10000 < dur → enters_portal e w
                 ∧ clicks_after e w = (click_count (vars w), last_click (vars w)))
  ∧ (5000 < dur ≤ 10000 →
       runs_calibration e w
       ∧ clicks_after e w = (click_count (vars w), last_click (vars w)))
  ∧ (20 < dur ≤ 5000 → registers_click e w
                       ∧ clicks_after e w = (click_count (vars w) + 1, now e))
  ∧ (dur ≤ 20 → ignores_release e w
                ∧ clicks_after e w = (click_count (vars w), last_click (vars w))).
Proof.
  intros dur.
  pose proof (button_edge_release e w Hpressed Hrelease) as Hedge.
  cbv zeta in Hedge. fold dur in Hedge.
  unfold enters_portal, runs_calibration, registers_click, ignores_release,
    clicks_after.
  rewrite Hedge. clear Hedge. munfold.
  split; [|split; [|split]]; intros Hd; split.
  - replace (dur >? 10000) with true by lia.
    destruct (run_setup_ap_no_return (portal_polls e) w) as [H|H];
      destruct (run_setup_ap (portal_polls e) w) as [w1 r]; simpl in H; subst r;
      reflexivity.
  - replace (dur >? 10000) with true by lia.
    pose proof (keeps_vars_run_setup_ap (portal_polls e) w) as Hv.
    destruct (run_setup_ap_no_return (portal_polls e) w) as [H|H];
      destruct (run_setup_ap (portal_polls e) w) as [w1 r]; simpl in H, Hv; subst r;
      simpl; rewrite Hv; reflexivity.
  - replace (dur >? 10000) with false by lia.
    replace (dur >? 5000) with true by lia.
    destruct (calibrate_sensor_total (cal_adc e) (cal_time e) (cal_end e) w)
      as (w1 & Hc & _).
    exists w1. rewrite Hc. split; reflexivity.
  - replace (dur >? 10000) with false by lia.
    replace (dur >? 5000) with true by lia.
    destruct (calibrate_sensor_total (cal_adc e) (cal_time e) (cal_end e) w)
      as (w1 & Hc & Hv & _).
    rewrite Hc. simpl. rewrite Hv. reflexivity.
  - replace (dur >? 10000) with false by lia.
    replace (dur >? 5000) with false by lia.
    replace (dur >? 20) with true by lia. reflexivity.
  - replace (dur >? 10000) with false by lia.
    replace (dur >? 5000) with false by lia.
    replace (dur >? 20) with true by lia. reflexivity.
  - replace (dur >? 10000) with false by lia.
    replace (dur >? 5000) with false by lia.
    replace (dur >? 20) with false by lia. reflexivity.
  - replace (dur >? 10000) with false by lia.
    replace (dur >? 5000) with false by lia.
    replace (dur >? 20) with false by lia. reflexivity.
Qed.

Lemma button_release_classification_witness :
  registers_click (quiet_tick 100 false) (held_since 0).
Proof.
  destruct (button_release_classification (quiet_tick 100 false) (held_since 0)
              eq_refl eq_refl) as (_ & _ & Hclick & _).
  apply Hclick. change (20 < 100 ≤ 5000). lia.
Defined.

(** A press of exactly 10000 ms does not enter the portal: the release
    runs the calibration.  Likewise a press of exactly 5000 ms does not
    calibrate: the release registers a click. *)
Lemma release_at_10000ms_calibrates :
  ticks_diff (now (quiet_tick 10000 false)) (btn_start (vars (held_since 0))) = 10000
  ∧ ¬ enters_portal (quiet_tick 10000 false) (held_since 0)
  ∧ runs_calibration (quiet_tick 10000 false) (held_since 0)
  ∧ ticks_diff (now (quiet_tick 5000 false)) (btn_start (vars (held_since 0))) = 5000
  ∧ registers_click (quiet_tick 5000 false) (held_since 0).
Proof.
  split; [reflexivity|]. split; [|split; [|split; [reflexivity|]]].
  - unfold enters_portal. intros H. apply (f_equal snd) in H.
    vm_compute in H. discriminate.
  - unfold runs_calibration.
    destruct (calibrate_sensor_total (cal_adc (quiet_tick 10000 false))
                (cal_time (quiet_tick 10000 false)) (cal_end (quiet_tick 10000 false))
                (held_since 0)) as (w1 & Hc & _).
    exists w1. split; [exact Hc|].
    rewrite (button_edge_release (quiet_tick 10000 false) (held_since 0)
               eq_refl eq_refl).
    change (ticks_diff (now (quiet_tick 10000 false)) (btn_start (vars (held_since 0))))
      with 10000.
    cbv zeta. change (10000 >? 10000) with false. change (10000 >? 5000) with true.
    cbn iota. munfold. rewrite Hc. reflexivity.
  - unfold registers_click.
    rewrite (button_edge_release (quiet_tick 5000 false) (held_since 0)
               eq_refl eq_refl).
    reflexivity.
Qed.

(** ** The rest of a pass *)

Lemma late_frame_refl (w : World) : late_frame w w.
Proof. repeat split. Qed.

Lemma late_frame_trans (a b c : World) :
  late_frame a b → late_frame b c → late_frame a c.
Proof.
  unfold late_frame. intros H1 H2.
  destruct H1 as (?&?&?&?&?&?&?&?&?&?&?&?), H2 as (?&?&?&?&?&?&?&?&?&?&?&?).
  repeat split; congruence.
Qed.

Lemma sync_data_late (now : Z) (net : Net) (w : World) :
  0 ≤ mode (st w) < 5 → late_phase (sync_data now net) w.
Proof.
  intros Hm. unfold late_phase, sync_data. munfold.
  destruct (isconnected net); simpl;
    [|eexists; split; [reflexivity|split; [apply late_frame_refl|exact Hm]]].
  destruct (ticks_diff now (last_ntp_update (st w)) >? 86400000);
    [destruct (settime_ok net)|]; simpl;
    (destruct (ticks_diff now (last_weather_update (st w)) >? 900000);
     [destruct (current_weather net) as [[[temp|] [code|]]|]|]); simpl;
    (eexists; split; [reflexivity|split; [repeat split|exact Hm]]).
Qed.

Lemma do_update_hardware_late (w : World) :
  0 ≤ mode (st w) < 5 → late_phase do_update_hardware w.
Proof.
  intros Hm. unfold late_phase, do_update_hardware. munfold.
  destruct (update_hardware_frame (dust_val (st w)) w) as (H1&H2&H3&H4&H5&H6&H7).
  eexists. split; [reflexivity|]. rewrite H1.
  split; [|exact Hm]. unfold late_frame. rewrite H1, H2, H3, H4, H6, H7.
  repeat split.
Qed.

Lemma telemetry_late (e : Tick) (w : World) :
  0 ≤ mode (st w) < 5 → late_phase (telemetry e) w.
Proof.
  intros Hm. unfold late_phase, telemetry. munfold.
  destruct (ticks_diff (now e) (default 0 (last_serial (st w))) >=? 1000); simpl;
    (eexists; split; [reflexivity|split; [repeat split|exact Hm]]).
Qed.

Lemma auto_advance_late (e : Tick) (w : World) :
  0 ≤ mode (st w) < 5 → late_phase (auto_advance e) w.
Proof.
  intros Hm. unfold late_phase, auto_advance. munfold.
  destruct (auto_cycle (st w)
            && (ticks_diff (now e) (last_mode_change (st w)) >? 10000));
    [|eexists; split; [reflexivity|split; [apply late_frame_refl|exact Hm]]].
  assert (Hcases : mode (st w) = 0 ∨ mode (st w) = 1 ∨ mode (st w) = 2
                   ∨ mode (st w) = 3 ∨ mode (st w) = 4) by lia.
  destruct Hcases as [E|[E|[E|[E|E]]]]; rewrite E; simpl;
    (eexists; split; [reflexivity|split; [repeat split|simpl; lia]]).
Qed.

(** The frame returns, or the graph view has raised on a mean that is not
    finite; either way within [late_frame]. *)
Lemma render_cases (e : Tick) (w : World) :
  0 ≤ mode (st w) < 5 →
  ∃ w', late_frame w w' ∧ 0 ≤ mode (st w') < 5
    ∧ (render e w = (w', Val ())
       ∨ (render e w = (w', Exn) ∧ float_finite (dust_val (st w) * 2) = false)).
Proof.
  intros Hm. unfold render. munfold.
  destruct (now e <? msg_timer (st w));
    [exists w; split; [apply late_frame_refl|split; [exact Hm|left; reflexivity]]|].
  destruct (curr_btn e && (ticks_diff (now e) (btn_start (vars w)) >? 10000));
    [exists w; split; [apply late_frame_refl|split; [exact Hm|left; reflexivity]]|].
  destruct (curr_btn e && (ticks_diff (now e) (btn_start (vars w)) >? 5000));
    [exists w; split; [apply late_frame_refl|split; [exact Hm|left; reflexivity]]|].
  assert (Hcases : mode (st w) = 0 ∨ mode (st w) = 1 ∨ mode (st w) = 2
                   ∨ mode (st w) = 3 ∨ mode (st w) = 4) by lia.
  destruct Hcases as [E|[E|[E|[E|E]]]]; rewrite E; simpl;
    try (exists w; split; [apply late_frame_refl|split; [exact Hm|left; reflexivity]]).
  - destruct (do_update_hardware_late w Hm) as (w' & Hrun & Hf & Hm').
    exists w'. split; [exact Hf|]. split; [exact Hm'|]. left. exact Hrun.
  - exists w. split; [apply late_frame_refl|]. split; [exact Hm|].
    unfold graph_bar, py_int. munfold.
    destruct (float_finite (dust_val (st w) * 2)); simpl; [left|right; split];
      reflexivity.
Qed.

Lemma render_late (e : Tick) (w : World) :
  0 ≤ mode (st w) < 5 → float_finite (dust_val (st w) * 2) = true →
  late_phase (render e) w.
Proof.
  intros Hm Hfin. destruct (render_cases e w Hm) as (w' & Hf & Hm' & [Hr|[_ Hr]]).
  - exists w'. split; [exact Hr|]. split; [exact Hf|exact Hm'].
  - rewrite Hfin in Hr. discriminate.
Qed.

Lemma late_phase_bind (m : M unit) (k : M unit) (w : World) :
  late_phase m w →
  (∀ w1, 0 ≤ mode (st w1) < 5 → late_phase k w1) →
  late_phase (_ ← m; k) w.
Proof.
  intros (w1 & Hm & Hf & Hmode) Hk.
  destruct (Hk w1 Hmode) as (w2 & Hkk & Hf2 & Hmode2).
  exists w2. unfold mbind, M_bind. rewrite Hm, Hkk.
  split; [reflexivity|]. split; [|exact Hmode2].
  eapply late_frame_trans; eassumption.
Qed.

(** ** The click aggregation *)

Lemma click_aggregation_eq (e : Tick) (w : World) :
  click_aggregation e w =
    if (click_count (vars w) >? 0)
       && (ticks_diff (now e) (last_click (vars w)) >? 250)
    then if click_count (vars w) >=? 2
         then (double_tap (now e) w, Val (Some DoubleTap))
         else (short_tap (now e) w, Val (Some ShortTap))
    else (w, Val None).
Proof.
  unfold click_aggregation.
  destruct ((click_count (vars w) >? 0)
            && (ticks_diff (now e) (last_click (vars w)) >? 250)); [|reflexivity].
  destruct (click_count (vars w) >=? 2); [|reflexivity].
  munfold. cbn beta iota. rewrite save_config_plain.
  destruct w as [[? ? ? ? ? ? ? ? ? ? ? ? [? ? ? ? ? ?] ?] ? ? ? ? ? ? []];
    reflexivity.
Qed.

(** C10.  A ShortTap (one pending click, quiet window over) clears the
    runtime auto-cycle flag and advances the view, and that is all it does
    to the state that matters here: the configuration in memory, with its
    [auto] field, [config.json] and the calibration log are as before.  So
    a restart after the tap loads the auto-cycle flag that the file
    holds, whatever the tap did to the flag in memory. *)
Theorem short_tap_is_ram_only (e : Tick) (w : World)
    (Hone : click_count (vars w) = 1)
    (Hquiet : 250 < ticks_diff (now e) (last_click (vars w))) :
  ∃ w', click_aggregation e w = (w', Val (Some ShortTap))
    ∧ auto_cycle (st w') = false
    ∧ mode (st w') = (mode (st w) + 1) `mod` 5
    ∧ config (st w') = config (st w)
    ∧ config_file w' = config_file w
    ∧ log_file w' = log_file w
    ∧ ∀ (saved : Config) (t : LocalTime) (t0 : Z),
        config_file w = Stored saved →
        ∃ w2, load_config t (power_on t0 (config_file w') (log_file w') (storage_ok w'))
                = (w2, Val ())
              ∧ auto_cycle (st w2) = cfg_auto saved
              ∧ config_file w2 = Stored saved.
Proof.
  rewrite click_aggregation_eq, Hone.
  replace (ticks_diff (now e) (last_click (vars w)) >? 250) with true by lia.
  simpl. eexists. split; [reflexivity|].
  repeat (split; [reflexivity|]).
  intros saved t t0 Hfile. unfold load_config. simpl. rewrite Hfile.
  eexists. split; [reflexivity|]. split; reflexivity.
Qed.

Lemma short_tap_is_ram_only_witness :
  ∃ w', click_aggregation (quiet_tick 300 false) auto_cycling_one_click
          = (w', Val (Some ShortTap))
    ∧ auto_cycle (st w') = false
    ∧ cfg_auto (config (st w')) = true
    ∧ ∃ w2, load_config (mkLocalTime 2026 1 1 0 0 0)
              (power_on 0 (config_file w') (log_file w') (storage_ok w'))
              = (w2, Val ())
            ∧ auto_cycle (st w2) = true.
Proof.
  destruct (short_tap_is_ram_only (quiet_tick 300 false) auto_cycling_one_click
              eq_refl eq_refl)
    as (w' & Hrun & Hauto & _ & Hcfg & _ & _ & Hload).
  exists w'. split; [exact Hrun|]. split; [exact Hauto|].
  split; [rewrite Hcfg; reflexivity|].
  destruct (Hload _ (mkLocalTime 2026 1 1 0 0 0) 0 eq_refl) as (w2 & Hl & Ha & _).
  exists w2. split; [exact Hl|exact Ha].
Defined.

(** ** The gesture machine

    The button edge and the click aggregation read and write the loop
    variables only through [now] and [curr_btn].  Their projection on the
    loop variables is a small automaton; a pass of the main loop that does
    not enter the portal follows it. *)

Lemma button_edge_vars (e : Tick) (w : World) (l1 : LoopVars) :
  edge_vars (now e) (curr_btn e) (vars w) = Some l1 →
  ∃ w1, button_edge e w = (w1, Val ())
        ∧ vars w1 = l1
        ∧ dust_history (st w1) = dust_history (st w)
        ∧ mode (st w1) = mode (st w)
        ∧ (dust_offset (st w1) = dust_offset (st w)
           ∨ dust_offset (st w1) = calibration_mean e).
Proof.
  unfold edge_vars, button_edge.
  destruct (negb (eqb (curr_btn e) (last_btn_state (vars w))));
    [|intros [= <-]; eexists; repeat split; left; reflexivity].
  munfold.
  destruct (curr_btn e); [intros [= <-]; eexists; repeat split; left; reflexivity|].
  destruct (ticks_diff (now e) (btn_start (vars w)) >? 10000); [discriminate|].
  destruct (ticks_diff (now e) (btn_start (vars w)) >? 5000).
  { intros [= <-].
    destruct (calibrate_sensor_total (cal_adc e) (cal_time e) (cal_end e) w)
      as (w1 & Hc & Hv & Hh & Hm & Ho).
    rewrite Hc. eexists. split; [reflexivity|]. simpl. rewrite Hv.
    repeat split; try assumption. right. exact Ho. }
  destruct (ticks_diff (now e) (btn_start (vars w)) >? 20);
    intros [= <-]; eexists; repeat split; left; reflexivity.
Qed.

Lemma click_aggregation_vars (e : Tick) (w : World) :
  0 ≤ mode (st w) < 5 →
  ∃ w1, click_aggregation e w = (w1, Val (aggregate_vars (now e) (vars w)).2)
        ∧ vars w1 = (aggregate_vars (now e) (vars w)).1
        ∧ dust_history (st w1) = dust_history (st w)
        ∧ dust_offset (st w1) = dust_offset (st w)
        ∧ 0 ≤ mode (st w1) < 5.
Proof.
  intros Hm. rewrite click_aggregation_eq. unfold aggregate_vars.
  destruct ((click_count (vars w) >? 0)
            && (ticks_diff (now e) (last_click (vars w)) >? 250));
    [|eexists; repeat split; try reflexivity; apply Hm].
  destruct (click_count (vars w) >=? 2); eexists; (split; [reflexivity|]).
  - unfold double_tap.
    destruct w as [? ? ? ? ? ? ? []]; simpl in *; repeat split; apply Hm.
  - unfold short_tap. simpl. repeat split;
      [apply Z.mod_pos_bound; lia | apply Z.mod_pos_bound; lia].
Qed.

Lemma loop_body_tail (e : Tick) (w : World) :
  loop_body e w =
    (_ ← button_edge e; tap ← click_aggregation e; _ ← loop_tail e; mret tap) w.
Proof.
  unfold loop_body, loop_tail. unfold mbind, M_bind, mret, M_ret.
  destruct (button_edge e w) as [w1 [[]| | |]]; try reflexivity.
  destruct (click_aggregation e w1) as [w2 [tap| | |]]; try reflexivity.
  repeat match goal with
         | |- context [match ?m ?e ?w with pair _ _ => _ end] =>
             destruct (m e w) as [? [[]| | |]]; try reflexivity
         | |- context [match ?m ?w with pair _ _ => _ end] =>
             destruct (m w) as [? [[]| | |]]; try reflexivity
         end.
Qed.

(** The tail of a pass on a device in its invariant: one sensor read on
    the window, without touching the loop variables, the offset, the
    configuration or the files; it returns, or the graph view has raised on
    a mean that is not finite. *)
Lemma loop_tail_cases (e : Tick) (w : World) :
  Inv w →
  let cur := concentration (adc e) (dust_offset (st w)) in
  ∃ w' r, loop_tail e w = (w', r)
    ∧ Inv w'
    ∧ vars w' = vars w
    ∧ dust_history (st w') = drop 1 (dust_history (st w)) ++ [cur]
    ∧ dust_val (st w') = (sum (drop 45 (dust_history (st w'))) / 15)%Q
    ∧ dust_offset (st w') = dust_offset (st w)
    ∧ config (st w') = config (st w)
    ∧ config_file w' = config_file w
    ∧ log_file w' = log_file w
    ∧ (r = Val () ∨ (r = Exn ∧ float_finite (dust_val (st w') * 2) = false)).
Proof.
  intros [Hlen Hmode] cur.
  destruct (read_sensor_spec e w Hlen) as (w1 & Hrs & Hh & Hl & _ & _ & Hv).
  fold cur in Hh.
  assert (Hsame : vars w1 = vars w ∧ mode (st w1) = mode (st w)
                  ∧ config (st w1) = config (st w)
                  ∧ config_file w1 = config_file w ∧ log_file w1 = log_file w
                  ∧ dust_offset (st w1) = dust_offset (st w)).
  { rewrite read_sensor_eq in Hrs.
    destruct (pop0_append _ _); [|discriminate].
    injection Hrs as <-. repeat split. }
  destruct Hsame as (Hv1 & Hm1 & Hc1 & Hcf1 & Hlf1 & Ho1).
  assert (Hmode1 : 0 ≤ mode (st w1) < 5) by (rewrite Hm1; exact Hmode).
  assert (Hlate : late_phase
            (_ ← sync_data (sync_now e) (net e);
             _ ← do_update_hardware;
             _ ← telemetry e;
             auto_advance e) w1).
  { apply late_phase_bind; [apply sync_data_late; exact Hmode1|intros w2 H2].
    apply late_phase_bind; [apply do_update_hardware_late; exact H2|intros w3 H3].
    apply late_phase_bind; [apply telemetry_late; exact H3|intros w4 H4].
    apply auto_advance_late; exact H4. }
  destruct Hlate as (w5 & Hrun & Hf & Hmode5).
  destruct (render_cases e w5 Hmode5) as (w' & Hf' & Hmode' & Hr).
  pose proof (late_frame_trans _ _ _ Hf Hf') as Hff.
  destruct Hff as (F1&F2&F3&F4&F5&F6&F7&F8&F9&F10&F11&F12).
  assert (Htail : loop_tail e w = render e w5).
  { unfold loop_tail. revert Hrun. unfold mbind, M_bind. rewrite Hrs.
    destruct (sync_data (sync_now e) (net e) w1) as [? [[]| | |]]; try discriminate.
    destruct (do_update_hardware _) as [? [[]| | |]]; try discriminate.
    destruct (telemetry e _) as [? [[]| | |]]; try discriminate.
    destruct (auto_advance e _) as [? [[]| | |]]; try discriminate.
    intros [= ->]. reflexivity. }
  assert (Hdv : dust_val (st w5) = dust_val (st w'))
    by (destruct Hf' as (_&_&G&_); symmetry; exact G).
  assert (Hfacts : Inv w'
    ∧ vars w' = vars w
    ∧ dust_history (st w') = drop 1 (dust_history (st w)) ++ [cur]
    ∧ dust_val (st w') = (sum (drop 45 (dust_history (st w'))) / 15)%Q
    ∧ dust_offset (st w') = dust_offset (st w)
    ∧ config (st w') = config (st w)
    ∧ config_file w' = config_file w
    ∧ log_file w' = log_file w).
  { split; [split; [rewrite F2; exact Hl|exact Hmode']|].
    rewrite F1, F2, F3, F4, F8, F9, F10, Hh, Hv1, Hc1, Hcf1, Hlf1, Ho1.
    repeat (split; [reflexivity|]).
    split; [rewrite Hv, Hh; reflexivity|].
    repeat split. }
  destruct Hfacts as (A1&A2&A3&A4&A5&A6&A7&A8).
  destruct Hr as [Hr|[Hr Hfin]].
  - exists w', (Val ()). split.
    { rewrite Htail. exact Hr. }
    repeat (split; [assumption|]). left. reflexivity.
  - exists w', Exn. split.
    { rewrite Htail. exact Hr. }
    repeat (split; [assumption|]). right. split; [reflexivity|].
    rewrite <- Hdv. exact Hfin.
Qed.

(** One pass follows the gesture machine, and shifts the window by one
    reading, taken with the offset the pass ends with (the old one, or the
    one a calibration in this pass has measured); it returns, or the graph
    view has raised on a mean that is not finite. *)
Lemma loop_body_cases (e : Tick) (w : World) (l' : LoopVars) (tap : option Tap) :
  Inv w →
  gesture_step (now e) (curr_btn e) (vars w) = Some (l', tap) →
  ∃ w' r, loop_body e w = (w', r) ∧ vars w' = l' ∧ Inv w'
    ∧ dust_history (st w') =
        drop 1 (dust_history (st w)) ++ [concentration (adc e) (dust_offset (st w'))]
    ∧ dust_val (st w') = (sum (drop 45 (dust_history (st w'))) / 15)%Q
    ∧ (dust_offset (st w') = dust_offset (st w)
       ∨ dust_offset (st w') = calibration_mean e)
    ∧ (r = Val tap ∨ (r = Exn ∧ float_finite (dust_val (st w') * 2) = false)).
Proof.
  intros [Hlen Hmode] Hstep. unfold gesture_step in Hstep.
  destruct (edge_vars (now e) (curr_btn e) (vars w)) as [l1|] eqn:Hedge;
    [|discriminate].
  simpl in Hstep. injection Hstep as Hagg.
  destruct (button_edge_vars e w l1 Hedge) as (w1 & Hb & Hv1 & Hh1 & Hm1 & Ho1).
  assert (Hmode1 : 0 ≤ mode (st w1) < 5) by (rewrite Hm1; exact Hmode).
  destruct (click_aggregation_vars e w1 Hmode1)
    as (w2 & Hc & Hv2 & Hh2 & Ho2 & Hmode2).
  rewrite Hv1, Hagg in Hc, Hv2. simpl in Hc, Hv2.
  assert (Hinv2 : Inv w2) by (split; [rewrite Hh2, Hh1; exact Hlen|exact Hmode2]).
  destruct (loop_tail_cases e w2 Hinv2)
    as (w3 & r & Ht & Hinv3 & Hv3 & Hh3 & Hd3 & Ho3 & _ & _ & _ & Hr).
  exists w3, (match r with Val _ => Val tap | Exn => Exn | Reset => Reset
                         | Blocked => Blocked end).
  split.
  { rewrite loop_body_tail. unfold mbind, M_bind, mret, M_ret.
    rewrite Hb, Hc, Ht. destruct r as [[]| | |]; reflexivity. }
  split; [congruence|]. split; [exact Hinv3|].
  split; [rewrite Hh3, Hh2, Hh1, Ho3; reflexivity|].
  split; [exact Hd3|].
  split; [rewrite Ho3, Ho2; exact Ho1|].
  destruct Hr as [->|[-> Hfin]]; [left; reflexivity|right; split; [reflexivity|exact Hfin]].
Qed.

(** *** Magnitudes

    With the offset and the window within [in_range] and 16-bit counts
    from the converter, every value of a pass stays within [in_range], far
    below the largest double: no float of the pass is an infinity. *)

Lemma BOUND_large : (1000 <= BOUND)%Q.
Proof. unfold BOUND, Qle. apply Z.leb_le. vm_compute. reflexivity. Qed.

Lemma foldl_Qplus_bounds (lo hi : Q) (l : list Q) :
  Forall (λ x, (lo <= x <= hi)%Q) l →
  ∀ a : Q, (a + inject_Z (Z.of_nat (length l)) * lo <= foldl Qplus a l
            <= a + inject_Z (Z.of_nat (length l)) * hi)%Q.
Proof.
  induction 1 as [|x l Hx Hl IH]; intros a.
  - change (inject_Z (Z.of_nat (length (@nil Q)))) with 0%Q. simpl. lra.
  - specialize (IH (a + x)%Q). cbn [length foldl].
    rewrite Nat2Z.inj_succ. unfold Z.succ. rewrite inject_Z_plus.
    change (inject_Z 1) with 1%Q.
    set (n := inject_Z (Z.of_nat (length l))) in *. lra.
Qed.

Lemma mean_bounds (lo hi : Q) (l : list Q) (k : Z) :
  0 < k → Z.of_nat (length l) = k → Forall (λ x, (lo <= x <= hi)%Q) l →
  (lo <= sum l / inject_Z k <= hi)%Q.
Proof.
  intros Hk Hlen HF.
  pose proof (foldl_Qplus_bounds lo hi l HF 0) as [H1 H2].
  rewrite Hlen in H1, H2. fold (sum l) in H1, H2.
  assert (Hpos : (0 < inject_Z k)%Q) by (unfold Qlt; simpl; lia).
  split.
  - apply Qle_shift_div_l; [exact Hpos|]. lra.
  - apply Qle_shift_div_r; [exact Hpos|]. lra.
Qed.

Lemma read_voltage_bounds (raw : Z) :
  0 ≤ raw ≤ 65535 → (0 <= read_voltage raw <= 3.3)%Q.
Proof.
  intros Hraw. unfold read_voltage.
  assert (Hq : (0 <= inject_Z raw / 65535 <= 1)%Q).
  { split.
    - apply Qle_shift_div_l; [reflexivity|]. unfold Qle. simpl. lia.
    - apply Qle_shift_div_r; [reflexivity|]. unfold Qle. simpl. lia. }
  set (q := (inject_Z raw / 65535)%Q) in *. lra.
Qed.

Lemma concentration_bounds (raw : Z) (offset : Q) :
  0 ≤ raw ≤ 65535 → (- BOUND <= offset <= BOUND)%Q →
  (- (1000 * BOUND) <= concentration raw offset <= 1000 * BOUND)%Q.
Proof.
  intros Hraw Hoff. pose proof (read_voltage_bounds raw Hraw) as Hv.
  pose proof BOUND_large as HB.
  unfold concentration, max0.
  set (v := read_voltage raw) in *.
  destruct (Qltb_spec 0 ((v - offset) * 170)); lra.
Qed.

Lemma bound_finite (x : Q) :
  (- (1000 * BOUND) <= x <= 1000 * BOUND)%Q → float_finite (x * 2) = true.
Proof.
  intros Hx. unfold float_finite.
  assert (HB : (2000 * BOUND < inject_Z (2 ^ 1024))%Q).
  { unfold BOUND, Qlt. vm_compute. reflexivity. }
  set (I := inject_Z (2 ^ 1024)) in *.
  destruct (Qltb_spec (- I) (x * 2)); [|lra].
  destruct (Qltb_spec (x * 2) I); [reflexivity|lra].
Qed.

Lemma calibration_mean_bounds (e : Tick) :
  adc_ok e → (0 <= calibration_mean e <= 3.3)%Q.
Proof.
  intros [_ Hcal]. unfold calibration_mean.
  apply mean_bounds; [lia|rewrite length_fmap, length_seq; reflexivity|].
  apply Forall_fmap, Forall_forall. intros i _. apply read_voltage_bounds, Hcal.
Qed.

(** What a pass does to the window keeps the device within [in_range],
    and the mean it publishes is finite. *)
Lemma pass_in_range (e : Tick) (w w' : World) :
  in_range w → adc_ok e → length (dust_history (st w')) = 60%nat →
  dust_history (st w') =
    drop 1 (dust_history (st w)) ++ [concentration (adc e) (dust_offset (st w'))] →
  dust_val (st w') = (sum (drop 45 (dust_history (st w'))) / 15)%Q →
  dust_offset (st w') = dust_offset (st w) ∨ dust_offset (st w') = calibration_mean e →
  in_range w' ∧ float_finite (dust_val (st w') * 2) = true.
Proof.
  intros [Hoff Hhist] Hadc Hlen Hh Hv Ho.
  pose proof BOUND_large as HB.
  assert (Hoff' : (- BOUND <= dust_offset (st w') <= BOUND)%Q).
  { destruct Ho as [-> | ->]; [exact Hoff|].
    pose proof (calibration_mean_bounds e Hadc). lra. }
  assert (Hhist' : Forall (λ x, (- (1000 * BOUND) <= x <= 1000 * BOUND)%Q)
                     (dust_history (st w'))).
  { rewrite Hh. apply Forall_app. split; [apply Forall_drop; exact Hhist|].
    constructor; [|constructor].
    apply concentration_bounds; [apply Hadc|exact Hoff']. }
  split; [split; assumption|].
  apply bound_finite. rewrite Hv. change 15%Q with (inject_Z 15).
  apply mean_bounds; [lia| |apply Forall_drop; exact Hhist'].
  rewrite length_drop, Hlen. reflexivity.
Qed.

(** One pass on a device within [in_range] returns, following the gesture
    machine and shifting the window by one reading. *)
Lemma loop_body_gesture (e : Tick) (w : World) (l' : LoopVars) (tap : option Tap) :
  Inv w → in_range w → adc_ok e →
  gesture_step (now e) (curr_btn e) (vars w) = Some (l', tap) →
  ∃ w', loop_body e w = (w', Val tap) ∧ vars w' = l' ∧ Inv w'
    ∧ (∃ offset, dust_history (st w') =
         drop 1 (dust_history (st w)) ++ [concentration (adc e) offset])
    ∧ dust_val (st w') = (sum (drop 45 (dust_history (st w'))) / 15)%Q
    ∧ in_range w'
    ∧ float_finite (dust_val (st w') * 2) = true.
Proof.
  intros Hinv Hrange Hadc Hstep.
  destruct (loop_body_cases e w l' tap Hinv Hstep)
    as (w' & r & Hb & Hv & Hinv' & Hh & Hd & Ho & Hr).
  destruct (pass_in_range e w w' Hrange Hadc (proj1 Hinv') Hh Hd Ho) as [Hrange' Hfin].
  destruct Hr as [-> | [_ Hr]]; [|rewrite Hfin in Hr; discriminate].
  exists w'. split; [exact Hb|]. split; [exact Hv|]. split; [exact Hinv'|].
  split; [eexists; exact Hh|]. split; [exact Hd|]. split; assumption.
Qed.

(** A run follows the gesture machine. *)
Lemma run_gesture (es : list Tick) :
  ∀ (w : World) (l' : LoopVars) (taps : list Tap),
  Inv w → in_range w → Forall adc_ok es →
  gesture_run es (vars w) = Some (l', taps) →
  ∃ w', run es w = (w', Val taps) ∧ vars w' = l' ∧ Inv w' ∧ in_range w'.
Proof.
  induction es as [|e rest IH]; intros w l' taps Hinv Hrange Hadc Hrun.
  - injection Hrun as <- <-. exists w. repeat split; first [apply Hinv|apply Hrange].
  - simpl in Hrun.
    destruct (gesture_step (now e) (curr_btn e) (vars w)) as [[l1 tap]|] eqn:Hstep;
      [|discriminate].
    simpl in Hrun.
    destruct (gesture_run rest l1) as [[l2 taps']|] eqn:Hrest; [|discriminate].
    injection Hrun as <- <-.
    apply Forall_cons in Hadc as [Hadc1 Hadc2].
    destruct (loop_body_gesture e w l1 tap Hinv Hrange Hadc1 Hstep)
      as (w1 & Hb & Hv1 & Hinv1 & _ & _ & Hrange1 & _).
    rewrite <- Hv1 in Hrest.
    destruct (IH w1 l2 taps' Hinv1 Hrange1 Hadc2 Hrest) as (w2 & Hr & Hv2 & Hinv2 & Hrange2).
    exists w2. simpl. unfold mbind, M_bind, mret, M_ret. rewrite Hb, Hr.
    split; [reflexivity|]. split; [exact Hv2|]. split; assumption.
Qed.

Lemma gesture_run_app (a b : list Tick) (l l1 l2 : LoopVars) (ta tb : list Tap) :
  gesture_run a l = Some (l1, ta) →
  gesture_run b l1 = Some (l2, tb) →
  gesture_run (a ++ b) l = Some (l2, ta ++ tb).
Proof.
  revert l ta. induction a as [|e a IH]; intros l ta Ha Hb.
  - injection Ha as <- <-. exact Hb.
  - simpl in *.
    destruct (gesture_step (now e) (curr_btn e) l) as [[l' tap]|]; [|discriminate].
    simpl in *.
    destruct (gesture_run a l') as [[l'' taps]|] eqn:Hrun; [|discriminate].
    injection Ha as <- <-.
    rewrite (IH l' taps Hrun Hb). simpl. rewrite app_assoc. reflexivity.
Qed.

(** Passes that see no button change and fall inside the quiet window of
    the last click (or find no click pending) change nothing. *)
Lemma gesture_run_still (es : list Tick) (l : LoopVars) :
  Forall (λ e, curr_btn e = last_btn_state l
               ∧ (click_count l ≤ 0 ∨ ticks_diff (now e) (last_click l) ≤ 250)) es →
  gesture_run es l = Some (l, []).
Proof.
  induction 1 as [|e es [Hb Hq] _ IH]; [reflexivity|].
  simpl. unfold gesture_step, edge_vars, aggregate_vars.
  rewrite Hb, eqb_reflx. simpl.
  replace ((click_count l >? 0) && (ticks_diff (now e) (last_click l) >? 250))
    with false by (destruct Hq; lia).
  simpl. rewrite IH. reflexivity.
Qed.

(** A press, inside the quiet window or with no click pending. *)
Lemma gesture_step_press (e : Tick) (l : LoopVars) :
  last_btn_state l = false → curr_btn e = true →
  click_count l ≤ 0 ∨ ticks_diff (now e) (last_click l) ≤ 250 →
  gesture_step (now e) (curr_btn e) l =
    Some (mkLoopVars true (now e) (click_count l) (last_click l), None).
Proof.
  intros Hl Hb Hq. unfold gesture_step, edge_vars, aggregate_vars.
  rewrite Hl, Hb. simpl.
  replace ((click_count l >? 0) && (ticks_diff (now e) (last_click l) >? 250))
    with false by (destruct Hq; lia).
  reflexivity.
Qed.

(** A release that counts as a click: the counter goes up, the quiet
    window restarts, and no tap is acted on in that pass. *)
Lemma gesture_step_click (e : Tick) (l : LoopVars) :
  last_btn_state l = true → curr_btn e = false →
  20 < ticks_diff (now e) (btn_start l) ≤ 5000 →
  gesture_step (now e) (curr_btn e) l =
    Some (mkLoopVars false (btn_start l) (click_count l + 1) (now e), None).
Proof.
  intros Hl Hb Hd. unfold gesture_step, edge_vars, aggregate_vars.
  rewrite Hl, Hb. simpl.
  replace (ticks_diff (now e) (btn_start l) >? 10000) with false by lia.
  replace (ticks_diff (now e) (btn_start l) >? 5000) with false by lia.
  replace (ticks_diff (now e) (btn_start l) >? 20) with true by lia.
  simpl. rewrite ticks_diff_same. rewrite andb_false_r. reflexivity.
Qed.

(** The first pass after the quiet window, the button unchanged. *)
Lemma gesture_step_fire (e : Tick) (l : LoopVars) :
  curr_btn e = last_btn_state l → 0 < click_count l →
  250 < ticks_diff (now e) (last_click l) →
  gesture_step (now e) (curr_btn e) l =
    Some (set_click_count 0 l,
          Some (if click_count l >=? 2 then DoubleTap else ShortTap)).
Proof.
  intros Hb Hc Hq. unfold gesture_step, edge_vars, aggregate_vars.
  rewrite Hb, eqb_reflx. simpl.
  replace (click_count l >? 0) with true by lia.
  replace (ticks_diff (now e) (last_click l) >? 250) with true by lia.
  reflexivity.
Qed.

Lemma gesture_run_cons (e : Tick) (rest : list Tick) (l l1 l2 : LoopVars)
    (tap : option Tap) (taps : list Tap) :
  gesture_step (now e) (curr_btn e) l = Some (l1, tap) →
  gesture_run rest l1 = Some (l2, taps) →
  gesture_run (e :: rest) l = Some (l2, option_list tap ++ taps).
Proof. intros Hs Hr. simpl. rewrite Hs. simpl. rewrite Hr. reflexivity. Qed.

(** One click, then quiet: one ShortTap. *)
Lemma gesture_single_click (l : LoopVars) (r : Tick) (quiet : list Tick) (fire : Tick) :
  last_btn_state l = true → click_count l = 0 →
  is_click r (btn_start l) → released_within (now r) quiet → fires_after fire (now r) →
  gesture_run (r :: quiet ++ [fire]) l =
    Some (mkLoopVars false (btn_start l) 0 (now r), [ShortTap]).
Proof.
  intros Hl Hc [Hr Hd] Hq [Hf Hfd].
  eapply (gesture_run_cons r _ l _ _ None [ShortTap]).
  { rewrite Hr. rewrite <- Hr at 1. apply gesture_step_click; assumption. }
  rewrite Hc. simpl.
  eapply (gesture_run_app quiet [fire] _ _ _ [] [ShortTap]).
  { apply gesture_run_still. eapply Forall_impl; [exact Hq|].
    intros e [? ?]. simpl. split; [assumption|right; assumption]. }
  eapply (gesture_run_cons fire [] _ _ _ (Some ShortTap) []); [|reflexivity].
  rewrite gesture_step_fire; [reflexivity|exact Hf|simpl; lia|exact Hfd].
Qed.

(** With no click pending: released passes, a press, pressed passes. *)
Lemma gesture_press_phase (l : LoopVars) (idle : list Tick) (press : Tick)
    (held : list Tick) :
  last_btn_state l = false → click_count l = 0 →
  Forall (λ e, curr_btn e = false) idle → curr_btn press = true →
  Forall (λ e, curr_btn e = true) held →
  gesture_run (idle ++ press :: held) l =
    Some (mkLoopVars true (now press) 0 (last_click l), []).
Proof.
  intros Hl Hc Hi Hp Hh.
  eapply (gesture_run_app idle (press :: held) _ _ _ [] []).
  { apply gesture_run_still. eapply Forall_impl; [exact Hi|].
    intros e He. simpl. split; [congruence|left; lia]. }
  eapply (gesture_run_cons press held l _ _ None []).
  { rewrite gesture_step_press; [rewrite Hc; reflexivity|assumption..|left; lia]. }
  apply gesture_run_still. eapply Forall_impl; [exact Hh|].
  intros e He. simpl. split; [assumption|left; lia].
Qed.

(** Two clicks with every pass in between inside the quiet window of the
    first: one DoubleTap. *)
Lemma gesture_double_click (l : LoopVars) (r1 : Tick) (idle : list Tick)
    (press : Tick) (held : list Tick) (r2 : Tick) (quiet : list Tick) (fire : Tick) :
  last_btn_state l = true → click_count l = 0 →
  is_click r1 (btn_start l) → released_within (now r1) idle →
  curr_btn press = true → ticks_diff (now press) (now r1) ≤ 250 →
  pressed_within (now r1) held →
  is_click r2 (now press) → released_within (now r2) quiet →
  fires_after fire (now r2) →
  gesture_run (r1 :: idle ++ press :: held ++ r2 :: quiet ++ [fire]) l =
    Some (mkLoopVars false (now press) 0 (now r2), [DoubleTap]).
Proof.
  intros Hl Hc [Hr1 Hd1] Hi Hp Hpd Hh [Hr2 Hd2] Hq [Hf Hfd].
  eapply (gesture_run_cons r1 _ l _ _ None [DoubleTap]).
  { rewrite Hr1. rewrite <- Hr1 at 1. apply gesture_step_click; assumption. }
  rewrite Hc. simpl.
  eapply (gesture_run_app idle _ _ _ _ [] [DoubleTap]).
  { apply gesture_run_still. eapply Forall_impl; [exact Hi|].
    intros e [? ?]. simpl. split; [assumption|right; assumption]. }
  eapply (gesture_run_cons press _ _ _ _ None [DoubleTap]).
  { rewrite gesture_step_press; [reflexivity|reflexivity|exact Hp|right; exact Hpd]. }
  simpl.
  eapply (gesture_run_app held _ _ _ _ [] [DoubleTap]).
  { apply gesture_run_still. eapply Forall_impl; [exact Hh|].
    intros e [? ?]. simpl. split; [assumption|right; assumption]. }
  eapply (gesture_run_cons r2 _ _ _ _ None [DoubleTap]).
  { rewrite Hr2. rewrite <- Hr2 at 1. apply gesture_step_click;
      [reflexivity|exact Hr2|exact Hd2]. }
  simpl.
  eapply (gesture_run_app quiet [fire] _ _ _ [] [DoubleTap]).
  { apply gesture_run_still. eapply Forall_impl; [exact Hq|].
    intros e [? ?]. simpl. split; [assumption|right; assumption]. }
  eapply (gesture_run_cons fire [] _ _ _ (Some DoubleTap) []); [|reflexivity].
  rewrite gesture_step_fire; [reflexivity|exact Hf|simpl; lia|exact Hfd].
Qed.

(** A click whose quiet window ends before the next click: two ShortTaps. *)
Lemma gesture_two_short_taps (l : LoopVars) (r1 : Tick) (quiet1 : list Tick)
    (fire1 : Tick) (idle : list Tick) (press : Tick) (held : list Tick)
    (r2 : Tick) (quiet2 : list Tick) (fire2 : Tick) :
  last_btn_state l = true → click_count l = 0 →
  is_click r1 (btn_start l) → released_within (now r1) quiet1 →
  fires_after fire1 (now r1) →
  Forall (λ e, curr_btn e = false) idle → curr_btn press = true →
  Forall (λ e, curr_btn e = true) held →
  is_click r2 (now press) → released_within (now r2) quiet2 →
  fires_after fire2 (now r2) →
  gesture_run ((r1 :: quiet1 ++ [fire1]) ++ (idle ++ press :: held)
               ++ (r2 :: quiet2 ++ [fire2])) l =
    Some (mkLoopVars false (now press) 0 (now r2), [ShortTap; ShortTap]).
Proof.
  intros Hl Hc H1 Hq1 Hf1 Hi Hp Hh H2 Hq2 Hf2.
  eapply (gesture_run_app _ _ _ _ _ [ShortTap] [ShortTap]).
  { apply gesture_single_click; assumption. }
  eapply (gesture_run_app _ _ _ _ _ [] [ShortTap]).
  { apply gesture_press_phase; [reflexivity|reflexivity|assumption..]. }
  apply (gesture_single_click (mkLoopVars true (now press) 0 (now r1)));
    [reflexivity|reflexivity|assumption..].
Qed.

(** A second press that begins inside the quiet window of the first click
    and is still held when the window ends: the ShortTap fires while the
    button is down, and the second click gets a ShortTap of its own. *)
Lemma gesture_held_past_window (l : LoopVars) (r1 : Tick) (idle : list Tick)
    (press : Tick) (held : list Tick) (late : Tick) (held2 : list Tick)
    (r2 : Tick) (quiet : list Tick) (fire : Tick) :
  last_btn_state l = true → click_count l = 0 →
  is_click r1 (btn_start l) → released_within (now r1) idle →
  curr_btn press = true → ticks_diff (now press) (now r1) ≤ 250 →
  pressed_within (now r1) held →
  curr_btn late = true → 250 < ticks_diff (now late) (now r1) →
  Forall (λ e, curr_btn e = true) held2 →
  is_click r2 (now press) → released_within (now r2) quiet →
  fires_after fire (now r2) →
  gesture_run (r1 :: idle ++ press :: held ++ late :: held2 ++ r2 :: quiet ++ [fire]) l =
    Some (mkLoopVars false (now press) 0 (now r2), [ShortTap; ShortTap]).
Proof.
  intros Hl Hc [Hr1 Hd1] Hi Hp Hpd Hh Hlate Hlated Hh2 H2 Hq Hf.
  eapply (gesture_run_cons r1 _ l _ _ None [ShortTap; ShortTap]).
  { rewrite Hr1. rewrite <- Hr1 at 1. apply gesture_step_click; assumption. }
  rewrite Hc. simpl.
  eapply (gesture_run_app idle _ _ _ _ [] [ShortTap; ShortTap]).
  { apply gesture_run_still. eapply Forall_impl; [exact Hi|].
    intros e [? ?]. simpl. split; [assumption|right; assumption]. }
  eapply (gesture_run_cons press _ _ _ _ None [ShortTap; ShortTap]).
  { rewrite gesture_step_press; [reflexivity|reflexivity|exact Hp|right; exact Hpd]. }
  simpl.
  eapply (gesture_run_app held _ _ _ _ [] [ShortTap; ShortTap]).
  { apply gesture_run_still. eapply Forall_impl; [exact Hh|].
    intros e [? ?]. simpl. split; [assumption|right; assumption]. }
  eapply (gesture_run_cons late _ _ _ _ (Some ShortTap) [ShortTap]).
  { rewrite gesture_step_fire; [reflexivity|exact Hlate|simpl; lia|exact Hlated]. }
  simpl.
  eapply (gesture_run_app held2 _ _ _ _ [] [ShortTap]).
  { apply gesture_run_still. eapply Forall_impl; [exact Hh2|].
    intros e He. simpl. split; [assumption|left; lia]. }
  apply (gesture_single_click (mkLoopVars true (now press) 0 (now r1)));
    [reflexivity|reflexivity|assumption..].
Qed.

(** The device at power-on, and with it [held_since], is within
    [in_range]; the quiet ticks deliver counts of 0. *)
Lemma in_range_st (w w' : World) : st w' = st w → in_range w → in_range w'.
Proof. unfold in_range. intros ->. trivial. Qed.

Lemma power_on_in_range (t0 : Z) (cf : ConfigFile) (lf : option (list LogEntry))
    (ok : bool) :
  in_range (power_on t0 cf lf ok).
Proof.
  pose proof BOUND_large as HB. split; simpl; [lra|].
  apply (Forall_replicate (λ x, (- (1000 * BOUND) <= x <= 1000 * BOUND)%Q) 60 0%Q).
  lra.
Qed.

Lemma quiet_tick_adc_ok (t : Z) (btn : bool) : adc_ok (quiet_tick t btn).
Proof. split; [simpl; lia|intros i; simpl; lia]. Qed.

(** C2.  (1) A pass that comes no later than 250 ms after the last
    registered click takes no tap action.  (2) The first pass after that
    window with exactly one click pending acts as one ShortTap: the view
    advances, auto-cycle is off, no click stays pending.  (3) With two or
    more pending it acts as one DoubleTap: auto-cycle is toggled, the new
    flag is written to the configuration and (the flash accepting writes)
    to [config.json], no click stays pending.  Over whole passes of the
    main loop, on a device within [in_range] with 16-bit counts from the
    converter: (4) two clicks, the second released no later than 250 ms
    after the first was (every pass up to the second release lying inside
    the quiet window of the first click), then quiet, yield the single
    action DoubleTap.  (5) Once the quiet window of a click has ended in a
    ShortTap, a later click yields a ShortTap of its own: the taps are
    ShortTap, ShortTap, never a DoubleTap.  (6) A second press that begins
    inside the quiet window of the first click but is still held when the
    window ends does not make a DoubleTap either: the ShortTap fires while
    the button is down and the second click yields another ShortTap. *)
Theorem click_aggregation_spec :
  (∀ (e : Tick) (w : World),
     ticks_diff (now e) (last_click (vars w)) ≤ 250 →
     click_aggregation e w = (w, Val None))
  ∧ (∀ (e : Tick) (w : World),
       click_count (vars w) = 1 →
       250 < ticks_diff (now e) (last_click (vars w)) →
       ∃ w', click_aggregation e w = (w', Val (Some ShortTap))
         ∧ mode (st w') = (mode (st w) + 1) `mod` 5
         ∧ auto_cycle (st w') = false
         ∧ click_count (vars w') = 0)
  ∧ (∀ (e : Tick) (w : World),
       2 ≤ click_count (vars w) →
       250 < ticks_diff (now e) (last_click (vars w)) →
       ∃ w', click_aggregation e w = (w', Val (Some DoubleTap))
         ∧ auto_cycle (st w') = negb (auto_cycle (st w))
         ∧ config (st w') = set_cfg_auto (auto_cycle (st w')) (config (st w))
         ∧ (storage_ok w = true → config_file w' = Stored (config (st w')))
         ∧ mode (st w') = mode (st w)
         ∧ click_count (vars w') = 0)
  ∧ (∀ (w : World) (r1 : Tick) (idle : list Tick) (press : Tick)
       (held : list Tick) (r2 : Tick) (quiet : list Tick) (fire : Tick),
       Inv w → in_range w →
       Forall adc_ok (r1 :: idle ++ press :: held ++ r2 :: quiet ++ [fire]) →
       last_btn_state (vars w) = true → click_count (vars w) = 0 →
       is_click r1 (btn_start (vars w)) → released_within (now r1) idle →
       curr_btn press = true → ticks_diff (now press) (now r1) ≤ 250 →
       pressed_within (now r1) held →
       is_click r2 (now press) → released_within (now r2) quiet →
       fires_after fire (now r2) →
       ∃ w', run (r1 :: idle ++ press :: held ++ r2 :: quiet ++ [fire]) w
               = (w', Val [DoubleTap])
             ∧ click_count (vars w') = 0)
  ∧ (∀ (w : World) (r1 : Tick) (quiet1 : list Tick) (fire1 : Tick)
       (idle : list Tick) (press : Tick) (held : list Tick)
       (r2 : Tick) (quiet2 : list Tick) (fire2 : Tick),
       Inv w → in_range w →
       Forall adc_ok ((r1 :: quiet1 ++ [fire1]) ++ (idle ++ press :: held)
                      ++ (r2 :: quiet2 ++ [fire2])) →
       last_btn_state (vars w) = true → click_count (vars w) = 0 →
       is_click r1 (btn_start (vars w)) → released_within (now r1) quiet1 →
       fires_after fire1 (now r1) →
       Forall (λ e, curr_btn e = false) idle → curr_btn press = true →
       Forall (λ e, curr_btn e = true) held →
       is_click r2 (now press) → released_within (now r2) quiet2 →
       fires_after fire2 (now r2) →
       ∃ w', run ((r1 :: quiet1 ++ [fire1]) ++ (idle ++ press :: held)
                  ++ (r2 :: quiet2 ++ [fire2])) w
               = (w', Val [ShortTap; ShortTap]))
  ∧ (∀ (w : World) (r1 : Tick) (idle : list Tick) (press : Tick)
       (held : list Tick) (late : Tick) (held2 : list Tick)
       (r2 : Tick) (quiet : list Tick) (fire : Tick),
       Inv w → in_range w →
       Forall adc_ok (r1 :: idle ++ press :: held ++ late :: held2
                      ++ r2 :: quiet ++ [fire]) →
       last_btn_state (vars w) = true → click_count (vars w) = 0 →
       is_click r1 (btn_start (vars w)) → released_within (now r1) idle →
       curr_btn press = true → ticks_diff (now press) (now r1) ≤ 250 →
       pressed_within (now r1) held →
       curr_btn late = true → 250 < ticks_diff (now late) (now r1) →
       Forall (λ e, curr_btn e = true) held2 →
       is_click r2 (now press) → released_within (now r2) quiet →
       fires_after fire (now r2) →
       ∃ w', run (r1 :: idle ++ press :: held ++ late :: held2
                  ++ r2 :: quiet ++ [fire]) w
               = (w', Val [ShortTap; ShortTap])).
Proof.
  split; [|split; [|split; [|split; [|split]]]].
  - intros e w Hq. rewrite click_aggregation_eq.
    replace (ticks_diff (now e) (last_click (vars w)) >? 250) with false by lia.
    rewrite andb_false_r. reflexivity.
  - intros e w Hone Hq. rewrite click_aggregation_eq, Hone.
    replace (ticks_diff (now e) (last_click (vars w)) >? 250) with true by lia.
    simpl. eexists. split; [reflexivity|]. repeat split.
  - intros e w Htwo Hq. rewrite click_aggregation_eq.
    replace (click_count (vars w) >? 0) with true by lia.
    replace (ticks_diff (now e) (last_click (vars w)) >? 250) with true by lia.
    replace (click_count (vars w) >=? 2) with true by lia.
    simpl. eexists. split; [reflexivity|]. unfold double_tap, persist.
    destruct w as [? ? ? ? ? ? ? []]; simpl; repeat split; discriminate.
  - intros w r1 idle press held r2 quiet fire Hinv Hrange Hadc
           Hl Hc H1 Hi Hp Hpd Hh H2 Hq Hf.
    destruct (run_gesture _ w _ _ Hinv Hrange Hadc
                (gesture_double_click (vars w) r1 idle press held r2 quiet fire
                   Hl Hc H1 Hi Hp Hpd Hh H2 Hq Hf))
      as (w' & Hrun & Hv & _).
    exists w'. split; [exact Hrun|]. rewrite Hv. reflexivity.
  - intros w r1 quiet1 fire1 idle press held r2 quiet2 fire2
           Hinv Hrange Hadc Hl Hc H1 Hq1 Hf1 Hi Hp Hh H2 Hq2 Hf2.
    destruct (run_gesture _ w _ _ Hinv Hrange Hadc
                (gesture_two_short_taps (vars w) r1 quiet1 fire1 idle press held
                   r2 quiet2 fire2 Hl Hc H1 Hq1 Hf1 Hi Hp Hh H2 Hq2 Hf2))
      as (w' & Hrun & _).
    exists w'. exact Hrun.
  - intros w r1 idle press held late held2 r2 quiet fire
           Hinv Hrange Hadc Hl Hc H1 Hi Hp Hpd Hh Hlate Hlated Hh2 H2 Hq Hf.
    destruct (run_gesture _ w _ _ Hinv Hrange Hadc
                (gesture_held_past_window (vars w) r1 idle press held late held2
                   r2 quiet fire Hl Hc H1 Hi Hp Hpd Hh Hlate Hlated Hh2 H2 Hq Hf))
      as (w' & Hrun & _).
    exists w'. exact Hrun.
Qed.

(** Two clicks of 100 ms each, the second released 200 ms after the
    first, then silence. *)
Lemma click_aggregation_spec_witness :
  ∃ w', run (quiet_tick 100 false
             :: [quiet_tick 150 false]
             ++ quiet_tick 200 true
             :: [quiet_tick 250 true]
             ++ quiet_tick 300 false
             :: [quiet_tick 400 false; quiet_tick 500 false]
             ++ [quiet_tick 600 false])
            (held_since 0)
          = (w', Val [DoubleTap])
        ∧ click_count (vars w') = 0.
Proof.
  destruct click_aggregation_spec as (_ & _ & _ & Hdouble & _).
  apply Hdouble.
  - split; [reflexivity|simpl; lia].
  - apply (in_range_st (power_on 0 Missing None true)); [reflexivity|].
    apply power_on_in_range.
  - repeat constructor; apply quiet_tick_adc_ok.
  - reflexivity.
  - reflexivity.
  - split; [reflexivity|]. change (20 < 100 ≤ 5000). lia.
  - repeat constructor. change (50 ≤ 250). lia.
  - reflexivity.
  - change (100 ≤ 250). lia.
  - repeat constructor. change (150 ≤ 250). lia.
  - split; [reflexivity|]. change (20 < 100 ≤ 5000). lia.
  - repeat constructor; [change (100 ≤ 250)|change (200 ≤ 250)]; lia.
  - split; [reflexivity|]. change (250 < 300). lia.
Defined.

(** The button is released at 100 ms, pressed again 100 ms later and held
    for 200 ms: the second press begins inside the 250 ms after the first
    click, but the pass at 395 ms finds the window over with the button
    still down and fires a ShortTap; the release at 400 ms is a click of
    its own, which ends in a second ShortTap.  No DoubleTap. *)
Lemma second_press_held_past_window :
  ticks_diff (now (quiet_tick 200 true)) (now (quiet_tick 100 false)) = 100
  ∧ ∃ w', run [quiet_tick 100 false; quiet_tick 200 true; quiet_tick 395 true;
               quiet_tick 400 false; quiet_tick 500 false; quiet_tick 700 false]
              (held_since 0)
          = (w', Val [ShortTap; ShortTap]).
Proof.
  split; [reflexivity|].
  assert (Hinv : Inv (held_since 0)) by (split; [reflexivity|simpl; lia]).
  assert (Hrange : in_range (held_since 0)).
  { apply (in_range_st (power_on 0 Missing None true)); [reflexivity|].
    apply power_on_in_range. }
  destruct (run_gesture [quiet_tick 100 false; quiet_tick 200 true; quiet_tick 395 true;
                         quiet_tick 400 false; quiet_tick 500 false; quiet_tick 700 false]
              (held_since 0) (mkLoopVars false 200 0 400) [ShortTap; ShortTap]
              Hinv Hrange) as (w' & Hrun & _).
  - repeat constructor; apply quiet_tick_adc_ok.
  - reflexivity.
  - exists w'. exact Hrun.
Qed.

(** ** The rolling window, pass after pass *)





(** ** [url_decode] *)

Lemma string_length_app (p s : string) :
  String.length (p +:+ s) = (String.length p + String.length s)%nat.
Proof. induction p as [|c p IH]; simpl; [reflexivity|]. rewrite IH. reflexivity. Qed.

Lemma string_app_cons (c : ascii) (p q : string) :
  String c p +:+ q = String c (p +:+ q).
Proof. reflexivity. Qed.

Lemma string_app_assoc (p q r : string) : (p +:+ q) +:+ r = p +:+ (q +:+ r).
Proof.
  induction p as [|c p IH]; [reflexivity|].
  rewrite !string_app_cons, IH. reflexivity.
Qed.

Lemma string_app_nil_r (p : string) : p +:+ "" = p.
Proof.
  induction p as [|c p IH]; [reflexivity|].
  rewrite string_app_cons, IH. reflexivity.
Qed.

Lemma get_app_length (p : string) (c : ascii) (t : string) :
  String.get (String.length p) (p +:+ String c t) = Some c.
Proof. induction p as [|d p IH]; simpl; [reflexivity|exact IH]. Qed.

Lemma substring_app_length (p s : string) (k n : nat) :
  substring (String.length p + k) n (p +:+ s) = substring k n s.
Proof. induction p as [|d p IH]; simpl; [reflexivity|exact IH]. Qed.

Lemma substring_0_0 (u : string) : substring 0 0 u = "".
Proof. destruct u; reflexivity. Qed.

Lemma replace_app (old new : ascii) (p s : string) :
  replace old new (p +:+ s) = replace old new p +:+ replace old new s.
Proof.
  induction p as [|c p IH]; [reflexivity|].
  rewrite string_app_cons. cbn [replace]. rewrite string_app_cons, IH.
  reflexivity.
Qed.

Lemma replace_length (old new : ascii) (s : string) :
  String.length (replace old new s) = String.length s.
Proof. induction s as [|c s IH]; simpl; [reflexivity|]. rewrite IH. reflexivity. Qed.

(** The loop at index [len(p)] of [p + suf] does to [res] what
    [decode_from suf] says, as soon as the fuel covers the suffix. *)
Lemma url_decode_loop_suffix (fuel : nat) :
  ∀ (p suf res : string),
  (String.length suf ≤ fuel)%nat →
  url_decode_loop fuel (p +:+ suf) (String.length p) res =
    (String.append res <$> decode_from suf).
Proof.
  induction fuel as [|fuel IH]; intros p suf res Hfuel.
  - destruct suf; [|simpl in Hfuel; lia].
    simpl. rewrite string_length_app. simpl.
    replace (String.length p <? String.length p + 0)%nat with false
      by (symmetry; apply Nat.ltb_ge; lia).
    rewrite string_app_nil_r. reflexivity.
  - destruct suf as [|c t].
    { simpl. rewrite string_length_app. simpl.
      replace (String.length p <? String.length p + 0)%nat with false
        by (symmetry; apply Nat.ltb_ge; lia).
      rewrite string_app_nil_r. reflexivity. }
    cbn [url_decode_loop]. rewrite string_length_app.
    replace (String.length p <? String.length p + String.length (String c t))%nat
      with true by (symmetry; apply Nat.ltb_lt; simpl; lia).
    rewrite get_app_length.
    assert (Hstep : ∀ d u, p +:+ String d u = (p +:+ String d "") +:+ u).
    { intros d u. rewrite string_app_assoc. reflexivity. }
    assert (Hone : String.length (p +:+ String c "") = (String.length p + 1)%nat).
    { rewrite string_length_app. reflexivity. }
    assert (Hlit : (c' ← Some c;
                    url_decode_loop fuel (p +:+ String c t) (String.length p + 1)
                                    (res +:+ String c' ""))
                   = String.append res <$> (String c <$> decode_from t)).
    { simpl. rewrite Hstep, <- Hone. rewrite IH by (simpl in Hfuel; lia).
      destruct (decode_from t) as [r|]; simpl; [|reflexivity].
      rewrite string_app_assoc. reflexivity. }
    destruct t as [|a [|b u]].
    + replace (String.length p + 2 <? String.length p + String.length (String c ""))%nat
        with false by (symmetry; apply Nat.ltb_ge; simpl; lia).
      rewrite andb_false_r. exact Hlit.
    + replace (String.length p + 2
               <? String.length p + String.length (String c (String a "")))%nat
        with false by (symmetry; apply Nat.ltb_ge; simpl; lia).
      rewrite andb_false_r. exact Hlit.
    + replace (String.length p + 2
               <? String.length p + String.length (String c (String a (String b u))))%nat
        with true by (symmetry; apply Nat.ltb_lt; simpl; lia).
      rewrite andb_true_r.
      cbn [decode_from].
      destruct (Ascii.eqb_spec c "%") as [->|Hc].
      * rewrite bool_decide_eq_true_2 by reflexivity.
        rewrite substring_app_length. cbn [substring]. rewrite substring_0_0.
        destruct (py_int16 (String a (String b ""))) as [n|]; [|reflexivity].
        cbn [mbind option_bind]. destruct (py_chr n) as [ch|]; [|reflexivity].
        cbn [mbind option_bind].
        replace (p +:+ String "%" (String a (String b u)))
          with ((p +:+ String "%" (String a (String b ""))) +:+ u)
          by (rewrite string_app_assoc; reflexivity).
        replace (String.length p + 3)%nat
          with (String.length (p +:+ String "%" (String a (String b ""))))
          by (rewrite string_length_app; reflexivity).
        rewrite IH by (simpl in Hfuel; lia).
        destruct (decode_from u) as [r|]; simpl; [|reflexivity].
        rewrite string_app_assoc. reflexivity.
      * rewrite bool_decide_eq_false_2 by congruence.
        exact Hlit.
Qed.

Lemma url_decode_suffix (s : string) :
  url_decode s = decode_from (replace "+" " " s).
Proof.
  unfold url_decode.
  rewrite (url_decode_loop_suffix _ "" (replace "+" " " s) "") by lia.
  destruct (decode_from _); reflexivity.
Qed.

Lemma decode_from_no_percent (pre suf : string) :
  no_percent pre = true →
  decode_from (pre +:+ suf) = String.append pre <$> decode_from suf.
Proof.
  induction pre as [|c pre IH]; intros Hp.
  - change ("" +:+ suf) with suf. destruct (decode_from suf); reflexivity.
  - unfold no_percent in Hp. simpl in Hp. apply andb_prop in Hp as [Hc Hp].
    rewrite string_app_cons.
    assert (Hlit : decode_from (String c (pre +:+ suf))
                   = String c <$> decode_from (pre +:+ suf)).
    { cbn [decode_from]. destruct (pre +:+ suf) as [|a [|b u]]; try reflexivity.
      destruct (Ascii.eqb c "%"); [discriminate|reflexivity]. }
    rewrite Hlit, (IH Hp). destruct (decode_from suf); reflexivity.
Qed.

Lemma no_percent_replace (s : string) :
  no_percent (replace "+" " " s) = no_percent s.
Proof.
  unfold no_percent. induction s as [|c s IH]; [reflexivity|].
  simpl. rewrite IH. f_equal.
  destruct (Ascii.eqb_spec c "+") as [->|]; reflexivity.
Qed.

(** Every character is one of the 256 code points. *)
Lemma all_ascii (f : ascii → bool) :
  forallb f (ascii_of_nat <$> seq 0 256) = true → ∀ a, f a = true.
Proof.
  intros H a. rewrite forallb_forall in H. apply H.
  rewrite <- (ascii_nat_embedding a). apply in_map. apply in_seq.
  pose proof (nat_ascii_bounded a). lia.
Qed.

Lemma escape_char (a b : ascii) (va vb : Z) :
  hex_val a = Some va → hex_val b = Some vb →
  py_int16 (String a (String b "")) ≫= py_chr
    = Some (ascii_of_N (Z.to_N (16 * va + vb))).
Proof.
  intros Ha Hb.
  assert (H : escape_ok a b = true).
  { revert b Hb. revert a Ha.
    assert (Hall : ∀ a b, escape_ok a b = true).
    { intros a. apply (all_ascii (λ b, escape_ok a b)). revert a.
      apply (all_ascii (λ a, forallb (λ b, escape_ok a b) (ascii_of_nat <$> seq 0 256))).
      vm_compute. reflexivity. }
    intros a _ b _. apply Hall. }
  unfold escape_ok in H. rewrite Ha, Hb in H.
  apply bool_decide_eq_true in H. exact H.
Qed.

Lemma hex_val_plain (a : ascii) (va : Z) :
  hex_val a = Some va → Ascii.eqb a "+" = false ∧ Ascii.eqb a "%" = false.
Proof.
  intros Ha.
  assert (H : (match hex_val a with
               | Some _ => negb (Ascii.eqb a "+") && negb (Ascii.eqb a "%")
               | None => true
               end) = true).
  { revert a Ha. intros a _. revert a. apply all_ascii. vm_compute. reflexivity. }
  rewrite Ha in H. apply andb_prop in H as [H1 H2].
  split; [destruct (Ascii.eqb a "+")|destruct (Ascii.eqb a "%")];
    first [reflexivity|discriminate].
Qed.

Lemma decode_from_short (t : string) :
  (String.length t < 3)%nat → decode_from t = Some t.
Proof.
  destruct t as [|a [|b [|c u]]]; simpl; intros H; try reflexivity. lia.
Qed.

(** C9, as the code has it.  [url_decode] first turns every ['+'] into a
    space.  Then (1) a string without ['%'] comes back as it is; (2) a
    ['%'] followed by two hexadecimal digits [a], [b] (so that, [i] being
    its index, [i + 2 < len(s)]) is decoded to the character with code
    [16 a + b], whatever follows, also when nothing follows: an escape
    that ends the string is decoded; (3) a ['%'] at an index [i] with
    [i + 2 >= len(s)], that is, followed by fewer than two characters, is
    copied through as it is. *)
Theorem url_decode_spec :
  (∀ s : string, no_percent s = true → url_decode s = Some (replace "+" " " s))
  ∧ (∀ (pre : string) (a b : ascii) (rest : string) (va vb : Z),
       no_percent pre = true → hex_val a = Some va → hex_val b = Some vb →
       let s := pre +:+ String "%" (String a (String b rest)) in
       (String.length pre + 2 < String.length s)%nat
       ∧ url_decode s =
           (r ← url_decode rest;
            Some (replace "+" " " pre
                  +:+ String (ascii_of_N (Z.to_N (16 * va + vb))) r)))
  ∧ (∀ (pre t : string),
       no_percent pre = true →
       let s := pre +:+ String "%" t in
       ¬ (String.length pre + 2 < String.length s)%nat →
       url_decode s = Some (replace "+" " " s)).
Proof.
  split; [|split].
  - intros s Hs. rewrite url_decode_suffix.
    rewrite <- (string_app_nil_r (replace "+" " " s)) at 1.
    rewrite decode_from_no_percent by (rewrite no_percent_replace; exact Hs).
    simpl. rewrite string_app_nil_r. reflexivity.
  - intros pre a b rest va vb Hpre Ha Hb s. split.
    { unfold s. rewrite string_length_app. simpl. lia. }
    unfold s. rewrite !url_decode_suffix, replace_app.
    rewrite decode_from_no_percent by (rewrite no_percent_replace; exact Hpre).
    destruct (hex_val_plain a va Ha) as [Ha1 _].
    destruct (hex_val_plain b vb Hb) as [Hb1 _].
    cbn [replace]. rewrite Ha1, Hb1. change (Ascii.eqb "%" "+") with false.
    cbn [decode_from]. change (Ascii.eqb "%" "%") with true. cbn iota.
    pose proof (escape_char a b va vb Ha Hb) as Hesc.
    destruct (py_int16 (String a (String b ""))) as [n|]; [|discriminate].
    cbn [mbind option_bind] in *. rewrite Hesc.
    destruct (decode_from (replace "+" " " rest)); reflexivity.
  - intros pre t Hpre s Hshort.
    assert (Ht : (String.length t < 2)%nat).
    { unfold s in Hshort. rewrite string_length_app in Hshort. simpl in Hshort. lia. }
    unfold s. rewrite url_decode_suffix, replace_app.
    rewrite decode_from_no_percent by (rewrite no_percent_replace; exact Hpre).
    rewrite decode_from_short; [reflexivity|].
    rewrite replace_length. simpl. lia.
Qed.

Lemma url_decode_spec_witness :
  url_decode "a+b%2Fc" = Some "a b/c" ∧ url_decode "100%" = Some "100%".
Proof.
  destruct url_decode_spec as (_ & Hesc & Hlit). split.
  - apply (Hesc "a+b" "2"%char "F"%char "c" 2 15); reflexivity.
  - apply (Hlit "100" ""); [reflexivity|]. simpl. lia.
Defined.

(** An escape whose two digits end the string is decoded, not copied. *)
Lemma url_decode_final_escape :
  url_decode "%41" = Some "A" ∧ url_decode "%41" ≠ Some "%41"
  ∧ url_decode "abc%41" = Some "abcA".
Proof. split; [reflexivity|]. split; [discriminate|reflexivity]. Qed.

(** ** The background tasks *)

(** Without connectivity [sync_data] does nothing. *)
Lemma sync_data_offline (now : Z) (net : Net) (w : World) :
  isconnected net = false → sync_data now net w = (w, Val ()).
Proof. intros H. unfold sync_data. rewrite H. reflexivity. Qed.

(** Whatever the network does, [sync_data] returns; a time sync that
    fails leaves its timestamp alone, and so does a weather refresh that
    fails at any point. *)
Lemma sync_data_timestamps (now : Z) (net : Net) (w : World) :
  ∃ w', sync_data now net w = (w', Val ())
    ∧ (settime_ok net = false → last_ntp_update (st w') = last_ntp_update (st w))
    ∧ ((∀ temp code, current_weather net ≠ Some (mkWeather (Some temp) (Some code)))
       → last_weather_update (st w') = last_weather_update (st w)).
Proof.
  unfold sync_data. munfold.
  destruct (isconnected net); simpl; [|eexists; repeat split].
  destruct (ticks_diff now (last_ntp_update (st w)) >? 86400000);
    [destruct (settime_ok net)|]; simpl;
    (destruct (ticks_diff now (last_weather_update (st w)) >? 900000);
     [destruct (current_weather net) as [[[temp|] [code|]]|]|]); simpl;
    eexists; (split; [reflexivity|]); split; intros H;
    first [reflexivity | discriminate | exfalso; eapply H; reflexivity].
Qed.

(** A refresh that fails before the temperature has been read keeps both
    cached weather values. *)
Lemma sync_data_keeps_cache (now : Z) (net : Net) (w : World) :
  (∀ temp code, current_weather net ≠ Some (mkWeather (Some temp) code)) →
  ∃ w', sync_data now net w = (w', Val ())
    ∧ weather_temp (st w') = weather_temp (st w)
    ∧ weather_desc (st w') = weather_desc (st w).
Proof.
  intros H. unfold sync_data. munfold.
  destruct (isconnected net); simpl; [|eexists; repeat split].
  destruct (ticks_diff now (last_ntp_update (st w)) >? 86400000);
    [destruct (settime_ok net)|]; simpl;
    (destruct (ticks_diff now (last_weather_update (st w)) >? 900000);
     [destruct (current_weather net) as [[[temp|] code]|]|]); simpl;
    try (exfalso; eapply H; reflexivity);
    eexists; repeat split.
Qed.

(** The telemetry looks at the tick count and [last_serial] only; when a
    second has passed it prints exactly one record. *)
Lemma telemetry_emits (e : Tick) (w : World) :
  ∃ w', telemetry e w = (w', Val ())
    ∧ (1000 ≤ ticks_diff (now e) (default 0 (last_serial (st w))) →
       (∃ r, serial w' = serial w ++ [r]) ∧ last_serial (st w') = Some (now e))
    ∧ (ticks_diff (now e) (default 0 (last_serial (st w))) < 1000 → w' = w).
Proof.
  unfold telemetry. munfold.
  destruct (ticks_diff (now e) (default 0 (last_serial (st w))) >=? 1000) eqn:Hc;
    simpl; eexists; (split; [reflexivity|]); split; intros H; try lia.
  - split; [eexists|]; reflexivity.
  - reflexivity.
Qed.

(** C5, at the input where the code departs from it.  The refresh fails
    (its timestamp is unchanged, so it will be retried) and the cached
    description is kept, but the cached temperature ["--C"] has already
    been overwritten by ["21C"]. *)
Theorem failed_refresh_overwrites_temperature :
  let w := power_on 0 Missing None true in
  let w' := (sync_data 1000 no_weathercode w).1 in
  (sync_data 1000 no_weathercode w).2 = Val ()
  ∧ last_weather_update (st w') = last_weather_update (st w)
  ∧ weather_desc (st w') = weather_desc (st w)
  ∧ weather_temp (st w) = "--C"
  ∧ weather_temp (st w') = "21C".
Proof. vm_compute. repeat split. Qed.

(** ** The portal *)

(** C8, at the input where the code departs from it.  The offset sent
    as [%2B0.5] (a browser's encoding of [+0.5]) would decode to a valid
    number, but the portal hands it to [float()] undecoded: the
    [ValueError] is swallowed, nothing is written to either file, no
    confirmation is sent and the device does not reboot; the four decoded
    fields are left half-applied in memory.  The same request with the
    offset [0.5] is saved, confirmed and followed by the reboot. *)
Theorem portal_offset_not_decoded :
  let t := mkLocalTime 2026 3 14 9 26 53 in
  let w := power_on 0 Missing None true in
  let bad := serve (mkPoll (Some (save_request "%2B0.5")) t false) w in
  let good := serve (mkPoll (Some (save_request "0.5")) t false) w in
  (url_decode "%2B0.5" ≫= py_float) = Some 0.5%Q
  ∧ py_float "%2B0.5" = None
  ∧ bad.2 = Val Fallthrough
  ∧ config_file bad.1 = Missing
  ∧ log_file bad.1 = None
  ∧ sent bad.1 = []
  ∧ cfg_ssid (config (st bad.1)) = "home"
  ∧ cfg_offset (config (st bad.1)) = 0.6%Q
  ∧ good.2 = Reset
  ∧ sent good.1 = [Saved]
  ∧ config_file good.1 = Stored (mkConfig "home" "secret" "51.5" "-0.1" false 0.5%Q)
  ∧ log_file good.1 = Some [mkLogEntry "2026-03-14 09:26" 0.5%Q].
Proof. vm_compute. repeat split. Qed.

(** ** The configuration store *)

Lemma save_config_ok (t : LocalTime) (ssid password lat lon : option string)
    (auto : option bool) (offset : option PyVal) (w : World) :
  offset_ok offset = true →
  ∃ w', save_config t ssid password lat lon auto offset w = (w', Val ())
    ∧ storage_ok w' = storage_ok w
    ∧ (storage_ok w = true → config_file w' = Stored (config (st w')))
    ∧ (storage_ok w = false → config_file w' = config_file w
                              ∧ log_file w' = log_file w).
Proof.
  intros Hok. destruct offset as [[q|os]|].
  - rewrite save_config_float. eexists. split; [reflexivity|].
    destruct w as [? ? ? ? ? ? ? []]; repeat split; discriminate.
  - rewrite save_config_str. simpl in Hok. apply bool_decide_eq_true in Hok.
    destruct Hok as [q Hq]. rewrite Hq. eexists. split; [reflexivity|].
    destruct w as [? ? ? ? ? ? ? []]; repeat split; discriminate.
  - rewrite save_config_plain. eexists. split; [reflexivity|].
    destruct w as [? ? ? ? ? ? ? []]; repeat split; discriminate.
Qed.

(** X1.  Whatever [save_config] is given (with an offset [float()]
    accepts) on a flash that takes the write, a restart that loads
    [config.json] gets back the configuration that was in memory after the
    save, key for key, takes its runtime auto-cycle flag and its sensor
    offset from it, and does not write the file again. *)
Theorem save_then_load_round_trip (t t' : LocalTime) (t0 : Z)
    (ssid password lat lon : option string) (auto : option bool)
    (offset : option PyVal) (w : World)
    (Hflash : storage_ok w = true) (Hoffset : offset_ok offset = true) :
  ∃ w' w2,
    save_config t ssid password lat lon auto offset w = (w', Val ())
    ∧ load_config t' (power_on t0 (config_file w') (log_file w') true) = (w2, Val ())
    ∧ config (st w2) = config (st w')
    ∧ auto_cycle (st w2) = cfg_auto (config (st w'))
    ∧ dust_offset (st w2) = cfg_offset (config (st w'))
    ∧ config_file w2 = config_file w'
    ∧ log_file w2 = log_file w'.
Proof.
  destruct (save_config_ok t ssid password lat lon auto offset w Hoffset)
    as (w' & Hsave & _ & Hfile & _).
  specialize (Hfile Hflash).
  exists w'. eexists. split; [exact Hsave|].
  unfold load_config. cbn [config_file power_on]. rewrite Hfile.
  split; [reflexivity|]. repeat split.
Qed.

Lemma save_then_load_round_trip_witness :
  ∃ w' w2,
    save_config (mkLocalTime 2026 3 14 9 26 53) (Some "home") (Some "secret")
                None None (Some true) (Some (PyStr "0.75"))
                (power_on 0 Missing None true) = (w', Val ())
    ∧ load_config (mkLocalTime 2026 3 15 0 0 0)
                  (power_on 5 (config_file w') (log_file w') true) = (w2, Val ())
    ∧ config (st w2) = config (st w').
Proof.
  destruct (save_then_load_round_trip (mkLocalTime 2026 3 14 9 26 53)
              (mkLocalTime 2026 3 15 0 0 0) 5 (Some "home") (Some "secret")
              None None (Some true) (Some (PyStr "0.75"))
              (power_on 0 Missing None true) eq_refl eq_refl)
    as (w' & w2 & Hs & Hl & Hc & _).
  exists w', w2. repeat split; assumption.
Defined.

(** X2.  When [config.json] is missing or corrupt, [load_config] does
    not raise and leaves [state] exactly as it was; on a flash that takes
    the write it creates the file with the configuration in memory (at
    start-up, the built-in defaults) without touching the calibration log,
    and on a failing flash it changes nothing at all.  A restart after the
    successful case then reads those very values. *)
Theorem load_config_recreates_file (t : LocalTime) (w : World)
    (Hfile : config_file w = Missing ∨ config_file w = Corrupt) :
  ∃ w', load_config t w = (w', Val ())
    ∧ st w' = st w
    ∧ log_file w' = log_file w
    ∧ (storage_ok w = true → config_file w' = Stored (config (st w)))
    ∧ (storage_ok w = false → w' = w)
    ∧ (∀ t0 lf, w = power_on t0 (config_file w) lf true →
         config_file w' = Stored default_config
         ∧ load_config t (power_on t0 (config_file w') lf true)
           = (power_on t0 (config_file w') lf true, Val ())).
Proof.
  assert (Hload : load_config t w = (persist w, Val ())).
  { unfold load_config. destruct Hfile as [-> | ->];
      rewrite save_config_plain; unfold with_config, assigned, or_keep;
      destruct w as [[? ? ? ? ? ? ? ? ? ? ? ? [? ? ? ? ? ?] ?] ? ? ? ? ? ? ?];
      reflexivity. }
  rewrite Hload. eexists. split; [reflexivity|]. unfold persist.
  split; [destruct (storage_ok w); reflexivity|].
  split; [destruct (storage_ok w); reflexivity|].
  split; [intros ->; reflexivity|].
  split; [intros ->; reflexivity|].
  intros t0 lf Hw. rewrite Hw. split; reflexivity.
Qed.

Lemma load_config_recreates_file_witness :
  ∃ w', load_config (mkLocalTime 2026 1 1 0 0 0) (power_on 0 Corrupt None true)
          = (w', Val ())
        ∧ config_file w' = Stored default_config.
Proof.
  destruct (load_config_recreates_file (mkLocalTime 2026 1 1 0 0 0)
              (power_on 0 Corrupt None true) (or_intror eq_refl))
    as (w' & Hl & _ & _ & Hf & _).
  exists w'. split; [exact Hl|]. apply Hf. reflexivity.
Defined.

(** ** The main loop as a whole *)

Lemma button_edge_portal (e : Tick) (w : World) :
  edge_vars (now e) (curr_btn e) (vars w) = None →
  10000 < ticks_diff (now e) (btn_start (vars w))
  ∧ ((button_edge e w).2 = Reset ∨ (button_edge e w).2 = Blocked).
Proof.
  unfold edge_vars, button_edge.
  destruct (negb (eqb (curr_btn e) (last_btn_state (vars w)))); [|discriminate].
  destruct (curr_btn e); [discriminate|].
  destruct (ticks_diff (now e) (btn_start (vars w)) >? 10000) eqn:Hd;
    [|repeat match goal with |- context [if ?c then _ else _] => destruct c end;
      discriminate].
  intros _. split; [lia|]. munfold.
  destruct (run_setup_ap_no_return (portal_polls e) w) as [H|H];
    destruct (run_setup_ap (portal_polls e) w) as [w1 r]; simpl in H; subst r;
    simpl; auto.
Qed.

Lemma loop_body_portal (e : Tick) (w : World) :
  edge_vars (now e) (curr_btn e) (vars w) = None →
  (loop_body e w).2 = Reset ∨ (loop_body e w).2 = Blocked.
Proof.
  intros H. destruct (button_edge_portal e w H) as [_ Hr].
  destruct (button_edge e w) as [w1 r] eqn:Hb. simpl in Hr.
  assert (Hl : loop_body e w = (w1, match r with Reset => Reset | _ => Blocked end)).
  { rewrite loop_body_tail. unfold mbind, M_bind at 1. rewrite Hb.
    destruct Hr as [-> | ->]; reflexivity. }
  rewrite Hl. destruct Hr as [-> | ->]; simpl; auto.
Qed.

(** X5.  On a device with a 60-entry window and a valid view index, whose
    offset and window are within [in_range] (at most 1e300 and 1e303 in
    absolute value), and with 16-bit counts from the converter, a pass of
    the main loop never ends in an exception: either it returns, again
    with a 60-entry window, a valid view index and within [in_range], the
    mean it has published being finite so that the [int()] of the graph
    view does not raise, or the button was released after more than
    10000 ms and the device is in the setup portal, from which it only
    leaves by a reset.  The same holds of any number of passes. *)
Theorem main_loop_never_raises (w : World) (Hinv : Inv w) (Hrange : in_range w) :
  (∀ e : Tick, adc_ok e →
     (loop_body e w).2 ≠ Exn
     ∧ (∀ w' tap, loop_body e w = (w', Val tap) →
          Inv w' ∧ in_range w' ∧ is_Some (graph_bar (dust_val (st w'))))
     ∧ ((∀ w' tap, loop_body e w ≠ (w', Val tap)) →
        curr_btn e = false ∧ last_btn_state (vars w) = true
        ∧ 10000 < ticks_diff (now e) (btn_start (vars w))))
  ∧ (∀ es : list Tick, Forall adc_ok es →
       (run es w).2 ≠ Exn
       ∧ (∀ w' taps, run es w = (w', Val taps) → Inv w' ∧ in_range w')).
Proof.
  assert (Hone : ∀ (w : World) (e : Tick), Inv w → in_range w → adc_ok e →
     (loop_body e w).2 ≠ Exn
     ∧ (∀ w' tap, loop_body e w = (w', Val tap) →
          Inv w' ∧ in_range w' ∧ is_Some (graph_bar (dust_val (st w'))))).
  { clear w Hinv Hrange. intros w e Hinv Hrange Hadc.
    destruct (edge_vars (now e) (curr_btn e) (vars w)) as [l1|] eqn:Hedge.
    - destruct (loop_body_gesture e w (aggregate_vars (now e) l1).1
                  (aggregate_vars (now e) l1).2 Hinv Hrange Hadc)
        as (w1 & Hrun & _ & Hinv1 & _ & _ & Hrange1 & Hfin).
      { unfold gesture_step. rewrite Hedge. simpl.
        destruct (aggregate_vars (now e) l1); reflexivity. }
      rewrite Hrun. split; [discriminate|]. intros w' tap [= <- _].
      split; [exact Hinv1|]. split; [exact Hrange1|].
      unfold graph_bar, py_int. rewrite Hfin. eexists. reflexivity.
    - destruct (loop_body_portal e w Hedge) as [H|H]; split;
        try (rewrite H; discriminate);
        intros w' tap Heq; rewrite Heq in H; discriminate. }
  split.
  - intros e Hadc. destruct (Hone w e Hinv Hrange Hadc) as [H1 H2].
    split; [exact H1|]. split; [exact H2|]. intros Hnever.
    destruct (edge_vars (now e) (curr_btn e) (vars w)) as [l1|] eqn:Hedge.
    + destruct (loop_body_gesture e w (aggregate_vars (now e) l1).1
                  (aggregate_vars (now e) l1).2 Hinv Hrange Hadc) as (w1 & Hrun & _).
      { unfold gesture_step. rewrite Hedge. simpl.
        destruct (aggregate_vars (now e) l1); reflexivity. }
      exfalso. exact (Hnever _ _ Hrun).
    + destruct (button_edge_portal e w Hedge) as [Hd _].
      unfold edge_vars in Hedge.
      destruct (curr_btn e), (last_btn_state (vars w)); simpl in Hedge;
        try discriminate. repeat split. exact Hd.
  - intros es. revert w Hinv Hrange.
    induction es as [|e rest IH]; intros w Hinv Hrange Hadc.
    + split; [discriminate|]. intros w' taps Heq.
      change (run [] w) with (w, Val (@nil Tap)) in Heq.
      inversion Heq; subst. split; assumption.
    + apply Forall_cons in Hadc as [Hadc1 Hadc2].
      destruct (Hone w e Hinv Hrange Hadc1) as [H1 H2].
      assert (Hrun : run (e :: rest) w =
                match loop_body e w with
                | (w1, Val tap) =>
                    match run rest w1 with
                    | (w2, Val taps) => (w2, Val (option_list tap ++ taps))
                    | (w2, Exn) => (w2, Exn)
                    | (w2, Reset) => (w2, Reset)
                    | (w2, Blocked) => (w2, Blocked)
                    end
                | (w1, Exn) => (w1, Exn)
                | (w1, Reset) => (w1, Reset)
                | (w1, Blocked) => (w1, Blocked)
                end) by reflexivity.
      rewrite Hrun. clear Hrun.
      destruct (loop_body e w) as [w1 [tap| | |]] eqn:Hb; simpl in H1;
        try (split; [first [discriminate|exfalso; apply H1; reflexivity]
                    |intros ? ? ?; discriminate]).
      destruct (H2 w1 tap eq_refl) as (Hinv1 & Hrange1 & _).
      destruct (IH w1 Hinv1 Hrange1 Hadc2) as [I1 I2].
      destruct (run rest w1) as [w2 [taps| | |]] eqn:Hr; simpl in I1;
        try (split; [first [discriminate|exfalso; apply I1; reflexivity]
                    |intros ? ? ?; discriminate]).
      split; [discriminate|].
      intros w' taps' Heq. inversion Heq; subst. eapply I2. reflexivity.
Qed.

Lemma main_loop_never_raises_witness :
  (run [quiet_tick 50 true; quiet_tick 100 false; quiet_tick 400 false]
       (power_on 0 Missing None true)).2 ≠ Exn.
Proof.
  apply (main_loop_never_raises (power_on 0 Missing None true)).
  - split; [reflexivity|simpl; lia].
  - apply power_on_in_range.
  - repeat constructor; apply quiet_tick_adc_ok.
Defined.

(** Outside [in_range] the loop can die: with the graph view showing and
    an offset of -1e307, the first reading is far beyond the largest
    double, the mean published is an infinity, and the [int()] of the
    graph view raises out of the loop. *)
Lemma graph_view_raises_on_infinite_mean :
  (loop_body (quiet_tick 50 false)
     (with_st (λ s, set_mode 2 (set_dust_offset (- inject_Z (10 ^ 307)) s))
              (power_on 0 Missing None true))).2 = Exn.
Proof. vm_compute. reflexivity. Qed.

(** A pass that returns has followed the gesture machine. *)
Lemma loop_body_returns (e : Tick) (w w' : World) (tap : option Tap) :
  Inv w → loop_body e w = (w', Val tap) →
  Inv w'
  ∧ gesture_step (now e) (curr_btn e) (vars w) = Some (vars w', tap)
  ∧ (∃ offset, dust_history (st w') =
       drop 1 (dust_history (st w)) ++ [concentration (adc e) offset])
  ∧ dust_val (st w') = (sum (drop 45 (dust_history (st w'))) / 15)%Q.
Proof.
  intros Hinv Hrun.
  destruct (edge_vars (now e) (curr_btn e) (vars w)) as [l1|] eqn:Hedge.
  - assert (Hstep : gesture_step (now e) (curr_btn e) (vars w)
                    = Some ((aggregate_vars (now e) l1).1, (aggregate_vars (now e) l1).2)).
    { unfold gesture_step. rewrite Hedge. simpl.
      destruct (aggregate_vars (now e) l1); reflexivity. }
    destruct (loop_body_cases e w _ _ Hinv Hstep)
      as (w1 & r & Hrun1 & Hv & Hinv1 & Hh & Hd & _ & Hr).
    rewrite Hrun in Hrun1. injection Hrun1 as Hw Hres. subst w1 r.
    destruct Hr as [[= Htap]|[Hr _]]; [|discriminate].
    split; [exact Hinv1|]. split; [rewrite Hstep, Hv, Htap; reflexivity|].
    split; [eexists; exact Hh|exact Hd].
  - destruct (loop_body_portal e w Hedge) as [H|H]; rewrite Hrun in H; discriminate.
Qed.

(** What every returning pass preserves, a returning run preserves. *)
Lemma run_preserves (P : World → Prop) :
  (∀ e w w' tap, Inv w → P w → loop_body e w = (w', Val tap) → P w') →
  ∀ es w w' taps, Inv w → P w → run es w = (w', Val taps) → P w'.
Proof.
  intros Hstep es. induction es as [|e rest IH]; intros w w' taps Hinv HP Hrun.
  - inversion Hrun; subst. exact HP.
  - change (run (e :: rest) w) with
      (match loop_body e w with
       | (w1, Val tap) =>
           match run rest w1 with
           | (w2, Val taps) => (w2, Val (option_list tap ++ taps))
           | (w2, Exn) => (w2, Exn)
           | (w2, Reset) => (w2, Reset)
           | (w2, Blocked) => (w2, Blocked)
           end
       | (w1, Exn) => (w1, Exn)
       | (w1, Reset) => (w1, Reset)
       | (w1, Blocked) => (w1, Blocked)
       end) in Hrun.
    destruct (loop_body e w) as [w1 [tap| | |]] eqn:Hb; try discriminate.
    destruct (run rest w1) as [w2 [taps'| | |]] eqn:Hr; try discriminate.
    inversion Hrun; subst.
    destruct (loop_body_returns e w w1 tap Hinv Hb) as (Hinv1 & _).
    eapply IH; [exact Hinv1| |exact Hr].
    exact (Hstep e w w1 tap Hinv HP Hb).
Qed.

Lemma max0_nonneg (x : Q) : (0 <= max0 x)%Q.
Proof. unfold max0. destruct (Qltb_spec 0 x); lra. Qed.

Lemma foldl_Qplus_nonneg (l : list Q) :
  ∀ a : Q, (0 <= a)%Q → Forall (λ x, (0 <= x)%Q) l → (0 <= foldl Qplus a l)%Q.
Proof.
  induction l as [|x l IH]; intros a Ha Hl; [exact Ha|].
  inversion Hl; subst. simpl. apply IH; [lra|assumption].
Qed.

(** X6.  The concentration of a sensor read is never negative, and is
    zero whenever the voltage read does not exceed the calibration offset.
    Hence a window without negative entries (as the one of 60 zeros at
    start-up) stays so, together with the published mean [dust_val],
    through every pass and every run of passes of the main loop that
    returns. *)
Theorem window_never_negative (w : World) (Hinv : Inv w) (Hnn : nonneg_window w) :
  (∀ raw offset, (0 <= concentration raw offset)%Q
                 ∧ ((read_voltage raw <= offset)%Q → concentration raw offset = 0%Q))
  ∧ (∀ es w' taps, run es w = (w', Val taps) → nonneg_window w').
Proof.
  split.
  - intros raw offset. split; [apply max0_nonneg|].
    intros Hle. unfold concentration, max0.
    destruct (Qltb_spec 0 ((read_voltage raw - offset) * 170)); [|reflexivity].
    exfalso. nra.
  - intros es w' taps Hrun.
    apply (run_preserves nonneg_window) with (es := es) (w := w) (taps := taps);
      try assumption.
    clear. intros e w w' tap Hinv [Hh _] Hb.
    destruct (loop_body_returns e w w' tap Hinv Hb) as (_ & _ & [offset Hshift] & Hval).
    assert (Hh' : Forall (λ x, (0 <= x)%Q) (dust_history (st w'))).
    { rewrite Hshift. apply Forall_app. split; [apply Forall_drop; exact Hh|].
      constructor; [apply max0_nonneg|constructor]. }
    split; [exact Hh'|]. rewrite Hval.
    assert (Hs : (0 <= sum (drop 45 (dust_history (st w'))))%Q).
    { apply foldl_Qplus_nonneg; [lra|apply Forall_drop; exact Hh']. }
    apply Qle_shift_div_l; lra.
Qed.

Lemma window_never_negative_witness :
  ∃ w', run [quiet_tick 50 false; quiet_tick 100 false] (power_on 0 Missing None true)
          = (w', Val [])
        ∧ nonneg_window w'.
Proof.
  assert (Hinv : Inv (power_on 0 Missing None true))
    by (split; [reflexivity|simpl; lia]).
  assert (Hadc : Forall adc_ok [quiet_tick 50 false; quiet_tick 100 false])
    by (repeat constructor; apply quiet_tick_adc_ok).
  destruct (run_gesture [quiet_tick 50 false; quiet_tick 100 false]
              (power_on 0 Missing None true) (mkLoopVars false 0 0 0) [] Hinv
              (power_on_in_range 0 Missing None true) Hadc eq_refl)
    as (w' & Hrun & _).
  exists w'. split; [exact Hrun|].
  apply (window_never_negative (power_on 0 Missing None true) Hinv) in Hrun;
    [exact Hrun|].
  split; [|simpl; lra].
  apply (Forall_replicate (λ x, (0 <= x)%Q) 60 0%Q). lra.
Defined.

(** ** The view scheduler *)

(** X7.  The automatic view change acts only when auto-cycle is on and
    more than 10000 ms have gone by since the last change; it then moves
    dashboard -> weather -> graph -> dashboard, goes to the dashboard from
    either Wi-Fi view, restarts the 10 s timer at the current tick and
    touches nothing else.  So the automatic rotation never shows a Wi-Fi
    view, and three changes from an auto-rotatable view lead back to it. *)
Theorem auto_advance_cycle (e : Tick) (w : World) (Hmode : 0 ≤ mode (st w) < 5) :
  (auto_cycle (st w) = true →
   10000 < ticks_diff (now e) (last_mode_change (st w)) →
   auto_advance e w =
     (with_st (λ s, set_last_mode_change (now e)
                      (set_mode (next_auto (mode s)) s)) w, Val ())
   ∧ 0 ≤ next_auto (mode (st w)) < 3)
  ∧ (auto_cycle (st w) = false
     ∨ ticks_diff (now e) (last_mode_change (st w)) ≤ 10000 →
     auto_advance e w = (w, Val ()))
  ∧ (mode (st w) < 3 → next_auto (next_auto (next_auto (mode (st w)))) = mode (st w)).
Proof.
  assert (Hcases : mode (st w) = 0 ∨ mode (st w) = 1 ∨ mode (st w) = 2
                   ∨ mode (st w) = 3 ∨ mode (st w) = 4) by lia.
  split; [|split].
  - intros Hauto Hdue. unfold auto_advance. rewrite Hauto.
    replace (ticks_diff (now e) (last_mode_change (st w)) >? 10000) with true by lia.
    cbn [andb]. unfold with_st.
    destruct Hcases as [E|[E|[E|[E|E]]]]; rewrite E; split;
      first [reflexivity | (vm_compute; split; [discriminate|reflexivity])].
  - intros Hoff. unfold auto_advance.
    destruct Hoff as [-> | Hnot]; [reflexivity|].
    replace (ticks_diff (now e) (last_mode_change (st w)) >? 10000) with false by lia.
    rewrite andb_false_r. reflexivity.
  - intros Hlt. destruct Hcases as [E|[E|[E|[E|E]]]]; rewrite E in *;
      first [reflexivity | lia].
Qed.

Lemma auto_advance_cycle_witness :
  auto_advance (quiet_tick 10001 false) auto_cycling_one_click =
    (with_st (λ s, set_last_mode_change 10001 (set_mode 1 s)) auto_cycling_one_click,
     Val ()).
Proof.
  destruct (auto_advance_cycle (quiet_tick 10001 false) auto_cycling_one_click)
    as ([Hadv _] & _); [simpl; lia|reflexivity|reflexivity|exact Hadv].
Defined.

(** X8.  A DoubleTap leaves the runtime auto-cycle flag and the [auto]
    field of the configuration equal, and shows "AUTO ON" or "AUTO OFF"
    for 1000 ms accordingly; a second DoubleTap brings the flag back to
    what it was before the first. *)
Theorem double_tap_toggles (e1 e2 : Tick) (w : World)
    (Htwo : 2 ≤ click_count (vars w))
    (Hquiet : 250 < ticks_diff (now e1) (last_click (vars w)))
    (Hquiet2 : 250 < ticks_diff (now e2) (last_click (vars w))) :
  ∃ w1 w2,
    click_aggregation e1 w = (w1, Val (Some DoubleTap))
    ∧ cfg_auto (config (st w1)) = auto_cycle (st w1)
    ∧ msg_text (st w1) = (if auto_cycle (st w1) then "AUTO ON" else "AUTO OFF")
    ∧ msg_timer (st w1) = now e1 + 1000
    ∧ click_aggregation e2 (with_vars (set_click_count (click_count (vars w))) w1)
      = (w2, Val (Some DoubleTap))
    ∧ auto_cycle (st w2) = auto_cycle (st w)
    ∧ cfg_auto (config (st w2)) = auto_cycle (st w).
Proof.
  rewrite click_aggregation_eq.
  replace (click_count (vars w) >? 0) with true by lia.
  replace (ticks_diff (now e1) (last_click (vars w)) >? 250) with true by lia.
  replace (click_count (vars w) >=? 2) with true by lia.
  cbn [andb]. eexists. eexists.
  split; [reflexivity|].
  rewrite click_aggregation_eq.
  assert (Hv : vars (with_vars (set_click_count (click_count (vars w)))
                       (double_tap (now e1) w)) = vars w).
  { unfold double_tap, persist. destruct w as [? [? ? ? ?] ? ? ? ? ? []]; reflexivity. }
  rewrite Hv.
  replace (click_count (vars w) >? 0) with true by lia.
  replace (ticks_diff (now e2) (last_click (vars w)) >? 250) with true by lia.
  replace (click_count (vars w) >=? 2) with true by lia.
  cbn [andb].
  unfold double_tap, persist.
  destruct w as [[? [] ? ? ? ? ? ? ? ? ? ? ? ?] ? ? ? ? ? ? []]; repeat split.
Qed.

Lemma double_tap_toggles_witness :
  ∃ w1, click_aggregation (quiet_tick 300 false)
          (with_vars (set_click_count 2) auto_cycling_one_click)
          = (w1, Val (Some DoubleTap))
        ∧ auto_cycle (st w1) = false ∧ cfg_auto (config (st w1)) = false
        ∧ msg_text (st w1) = "AUTO OFF".
Proof.
  destruct (double_tap_toggles (quiet_tick 300 false) (quiet_tick 300 false)
              (with_vars (set_click_count 2) auto_cycling_one_click))
    as (w1 & w2 & H1 & H2 & H3 & _ & H5 & H6 & _);
    [simpl; lia|reflexivity|reflexivity|].
  exists w1. split; [exact H1|].
  rewrite click_aggregation_eq in H1. injection H1 as <-.
  repeat split.
Defined.

(** ** The request parsing of the portal *)

Lemma lacks_cons (c d : ascii) (s : string) :
  lacks c (String d s) = negb (Ascii.eqb d c) && lacks c s.
Proof. reflexivity. Qed.

Lemma lacks_app (c : ascii) (a b : string) :
  lacks c (a +:+ b) = lacks c a && lacks c b.
Proof.
  induction a as [|d a IH]; [reflexivity|].
  rewrite string_app_cons, !lacks_cons, IH. apply andb_assoc.
Qed.

Lemma split_cons (sep c : ascii) (s : string) :
  split sep (String c s) =
    if Ascii.eqb c sep then "" :: split sep s
    else match split sep s with
         | h :: t => String c h :: t
         | [] => [String c ""]
         end.
Proof. reflexivity. Qed.

Lemma split_nonempty (sep : ascii) (s : string) : split sep s ≠ [].
Proof.
  induction s as [|c s IH]; [discriminate|].
  rewrite split_cons. destruct (Ascii.eqb c sep); [discriminate|].
  destruct (split sep s); discriminate.
Qed.

(** A prefix without the separator stays in front of the first piece. *)
Lemma split_app (sep : ascii) (a b : string) :
  lacks sep a = true →
  split sep (a +:+ b) =
    match split sep b with
    | h :: t => (a +:+ h) :: t
    | [] => []
    end.
Proof.
  induction a as [|c a IH]; intros Ha.
  - change ("" +:+ b) with b. destruct (split sep b); reflexivity.
  - rewrite lacks_cons in Ha. apply andb_prop in Ha as [Hc Ha].
    rewrite string_app_cons, split_cons.
    destruct (Ascii.eqb c sep); [discriminate|].
    rewrite (IH Ha). pose proof (split_nonempty sep b).
    destruct (split sep b); [congruence|reflexivity].
Qed.

Lemma split_piece (sep : ascii) (a b : string) :
  lacks sep a = true → split sep (a +:+ String sep b) = a :: split sep b.
Proof.
  intros Ha. rewrite (split_app sep a _ Ha), split_cons, Ascii.eqb_refl.
  rewrite string_app_nil_r. reflexivity.
Qed.

Lemma split_whole (sep : ascii) (a : string) :
  lacks sep a = true → split sep a = [a].
Proof.
  intros Ha. rewrite <- (string_app_nil_r a) at 1.
  rewrite (split_app sep a "" Ha). simpl. rewrite string_app_nil_r. reflexivity.
Qed.

Lemma split_join (sep : ascii) (l : list string) :
  l ≠ [] → Forall (λ s, lacks sep s = true) l → split sep (join sep l) = l.
Proof.
  induction l as [|s l IH]; intros Hne Hl; [congruence|].
  inversion Hl as [|? ? Hs Hl']; subst.
  destruct l as [|s' l]; [apply split_whole; exact Hs|].
  cbn [join]. rewrite (split_piece sep s _ Hs). f_equal.
  apply IH; [discriminate|exact Hl'].
Qed.

(** The dictionary [parse_query] builds from the pieces [us], on top of
    [acc]. *)
Lemma parse_query_pairs (pairs : list (string * string)) :
  Forall (λ kv, clean kv.1 = true ∧ lacks "=" kv.2 = true) pairs →
  ∀ acc : gmap string string,
  foldl (λ acc u,
           p ← acc;
           let kv := split "=" u in
           k ← kv !! 0%nat;
           v ← kv !! 1%nat;
           Some (<[k := v]> p))
        (Some acc) ((λ kv, kv.1 +:+ String "=" kv.2) <$> pairs)
  = Some (foldl (λ m kv, <[kv.1 := kv.2]> m) acc pairs).
Proof.
  induction 1 as [|[k v] pairs [Hk Hv] _ IH]; intros acc; [reflexivity|].
  cbn [fmap list_fmap foldl fst snd]. cbn [fst snd] in Hk, Hv.
  unfold clean in Hk. apply andb_prop in Hk as [_ Hk].
  rewrite (split_piece "=" k v Hk), (split_whole "=" v Hv).
  cbn [lookup list_lookup mbind option_bind]. apply IH.
Qed.

Lemma parse_query_query_of (pairs : list (string * string)) :
  pairs ≠ [] →
  Forall (λ kv, clean kv.1 = true ∧ clean kv.2 = true) pairs →
  parse_query (query_of pairs) = Some (foldl (λ m kv, <[kv.1 := kv.2]> m) ∅ pairs).
Proof.
  intros Hne Hclean.
  unfold parse_query, query_of. rewrite split_join.
    - apply parse_query_pairs. eapply Forall_impl; [exact Hclean|].
      intros [k v] [Hk Hv]. split; [exact Hk|].
      unfold clean in Hv. apply andb_prop in Hv as [_ Hv]. exact Hv.
    - destruct pairs; [congruence|discriminate].
    - apply Forall_fmap. eapply Forall_impl; [exact Hclean|].
      intros [k v] [Hk Hv]. unfold compose. cbn [fst snd] in *. unfold clean in Hk, Hv.
      apply andb_prop in Hk as [Hk _]. apply andb_prop in Hv as [Hv _].
      rewrite lacks_app, lacks_cons, Hk, Hv. reflexivity.
Qed.

(** X9.  The portal's query parser is the inverse of joining
    [key=value] pairs with ['&']: on a non-empty list of pairs whose keys
    and values contain neither ['&'] nor ['='] it returns the dictionary of
    the pairs, a later pair overriding an earlier one with the same key;
    so the value looked up for a key is that of its last pair. *)
Theorem parse_query_of_pairs (pairs : list (string * string))
    (Hne : pairs ≠ [])
    (Hclean : Forall (λ kv, clean kv.1 = true ∧ clean kv.2 = true) pairs) :
  parse_query (query_of pairs) = Some (foldl (λ m kv, <[kv.1 := kv.2]> m) ∅ pairs)
  ∧ (∀ front k v, pairs = front ++ [(k, v)] →
       parse_query (query_of pairs) ≫= (λ p, p !! k) = Some v).
Proof.
  pose proof (parse_query_query_of pairs Hne Hclean) as Hparse.
  split; [exact Hparse|].
  intros front k v Hlast. rewrite Hparse. cbn [mbind option_bind].
  rewrite Hlast, foldl_app. cbn [foldl fst snd]. apply lookup_insert_eq.
Qed.

Lemma parse_query_of_pairs_witness :
  parse_query "s=home&p=one&p=two" ≫= (λ p, p !! "p") = Some "two".
Proof.
  destruct (parse_query_of_pairs [("s", "home"); ("p", "one"); ("p", "two")])
    as [_ Hlast].
  - discriminate.
  - repeat constructor.
  - apply (Hlast [("s", "home"); ("p", "one")]). reflexivity.
Defined.

(** X10.  A piece of the query without ['='] makes the parser raise
    (the [IndexError] of [u.split('=')[1]]), wherever it stands among
    well-formed pairs; in particular the empty query is rejected. *)
Theorem parse_query_missing_equals (front back : list (string * string)) (u : string)
    (Hfront : Forall (λ kv, clean kv.1 = true ∧ clean kv.2 = true) front)
    (Hback : Forall (λ kv, clean kv.1 = true ∧ clean kv.2 = true) back)
    (Hu : clean u = true) :
  parse_query (join "&" (((λ kv, kv.1 +:+ String "=" kv.2) <$> front)
                          ++ u :: ((λ kv, kv.1 +:+ String "=" kv.2) <$> back)))
    = None
  ∧ parse_query "" = None.
Proof.
  split; [|reflexivity].
  assert (Hpiece : ∀ l, Forall (λ kv, clean kv.1 = true ∧ clean kv.2 = true) l →
            Forall (λ s, lacks "&" s = true)
                   ((λ kv, kv.1 +:+ String "=" kv.2) <$> l)).
  { intros l Hl. apply Forall_fmap. eapply Forall_impl; [exact Hl|].
    intros [k v] [Hk Hv]. unfold compose. cbn [fst snd] in *. unfold clean in Hk, Hv.
    apply andb_prop in Hk as [Hk _]. apply andb_prop in Hv as [Hv _].
    rewrite lacks_app, lacks_cons, Hk, Hv. reflexivity. }
  unfold parse_query. rewrite split_join.
  - rewrite foldl_app.
    rewrite parse_query_pairs.
    2:{ eapply Forall_impl; [exact Hfront|]. intros [k v] [Hk Hv]. split; [exact Hk|].
        unfold clean in Hv. apply andb_prop in Hv as [_ Hv]. exact Hv. }
    cbn [foldl]. unfold clean in Hu. apply andb_prop in Hu as [_ Hu].
    rewrite (split_whole "=" u Hu). cbn [lookup list_lookup mbind option_bind].
    generalize ((λ kv : string * string, kv.1 +:+ String "=" kv.2) <$> back).
    intros l. induction l as [|x l IH]; [reflexivity|exact IH].
  - destruct front; discriminate.
  - apply Forall_app. split; [apply Hpiece; exact Hfront|].
    constructor; [|apply Hpiece; exact Hback].
    unfold clean in Hu. apply andb_prop in Hu as [Hu _]. exact Hu.
Qed.

Lemma parse_query_missing_equals_witness :
  parse_query "s=home&oops&p=x" = None.
Proof.
  apply (parse_query_missing_equals [("s", "home")] [("p", "x")] "oops");
    repeat constructor.
Defined.

(** The three indexings that take the query out of a request. *)
Lemma request_query (query rest : string) :
  lacks " " query = true → lacks "?" query = true →
  lacks (ascii_of_nat 10) query = true →
  ∃ line,
    split (ascii_of_nat 10) (get_request query rest) !! 0%nat = Some line
    ∧ split " " line !! 1%nat = Some ("/?" +:+ query)
    ∧ split "?" ("/?" +:+ query) !! 1%nat = Some query.
Proof.
  intros Hsp Hq Hnl.
  pose proof (split_nonempty (ascii_of_nat 10) rest) as Hne.
  destruct (split (ascii_of_nat 10) rest) as [|h0 t0] eqn:Hrest; [congruence|].
  exists (("GET /?" +:+ query) +:+ String " " h0). split; [|split].
  - unfold get_request. rewrite <- string_app_assoc.
    rewrite (split_app (ascii_of_nat 10) ("GET /?" +:+ query)).
    + rewrite split_cons. change (Ascii.eqb " " (ascii_of_nat 10)) with false.
      cbn iota. rewrite Hrest. reflexivity.
    + rewrite lacks_app, Hnl. reflexivity.
  - change (("GET /?" +:+ query) +:+ String " " h0)
      with ("GET" +:+ String " " (("/?" +:+ query) +:+ String " " h0)).
    rewrite (split_piece " " "GET") by reflexivity.
    rewrite (split_piece " " ("/?" +:+ query))
      by (rewrite lacks_app, Hsp; reflexivity).
    reflexivity.
  - change ("/?" +:+ query) with ("/" +:+ String "?" query).
    rewrite (split_piece "?" "/") by reflexivity.
    rewrite (split_whole "?" query Hq). reflexivity.
Qed.

Lemma contains_prefix (pat s : string) : contains pat (pat +:+ s) = true.
Proof.
  assert (H : String.prefix pat (pat +:+ s) = true).
  { induction pat as [|c pat IH]; [destruct s; reflexivity|].
    rewrite string_app_cons. cbn [String.prefix].
    destruct (ascii_dec c c); [exact IH|congruence]. }
  assert (Hunfold : ∀ x, contains pat x =
            String.prefix pat x
            || match x with String _ r => contains pat r | EmptyString => false end)
    by (intros []; reflexivity).
  rewrite Hunfold, H. reflexivity.
Qed.

(** A save request of the settings form, in one piece: the four text
    fields are decoded, the offset is not, and the reboot follows the
    confirmation only if [save_config] returns. *)
Lemma handle_request_save (t : LocalTime) (s p la lo os rest : string) (w : World) :
  form_value s = true → form_value p = true → form_value la = true →
  form_value lo = true → form_value os = true →
  contains "GET /logs" (get_request (form_query s p la lo os) rest) = false →
  handle_request t (get_request (form_query s p la lo os) rest) w =
    match decoded_fields s p la lo with
    | None => (w, Exn)
    | Some (s', p', la', lo') =>
        match save_config t (Some s') (Some p') (Some la') (Some lo') None
                          (Some (PyStr os)) w with
        | (w1, Val _) => (send Saved w1, Reset)
        | (w1, Exn) => (w1, Exn)
        | (w1, Reset) => (w1, Reset)
        | (w1, Blocked) => (w1, Blocked)
        end
    end.
Proof.
  intros Hs Hp Hla Hlo Hos Hlogs.
  assert (Hparts : ∀ v, form_value v = true →
            clean v = true ∧ lacks " " v = true ∧ lacks "?" v = true
            ∧ lacks (ascii_of_nat 10) v = true).
  { intros v Hv. unfold form_value in Hv.
    apply andb_prop in Hv as [Hv H4]. apply andb_prop in Hv as [Hv H3].
    apply andb_prop in Hv as [H1 H2]. auto. }
  destruct (Hparts s Hs) as (Cs & Ss & Qs & Ns), (Hparts p Hp) as (Cp & Sp & Qp & Np),
    (Hparts la Hla) as (Cla & Sla & Qla & Nla), (Hparts lo Hlo) as (Clo & Slo & Qlo & Nlo),
    (Hparts os Hos) as (Cos & Sos & Qos & Nos).
  assert (Hlacks : ∀ c, lacks c "s=" = true → lacks c "&p=" = true →
            lacks c "&la=" = true → lacks c "&lo=" = true → lacks c "&os=" = true →
            lacks c s = true → lacks c p = true → lacks c la = true →
            lacks c lo = true → lacks c os = true →
            lacks c (form_query s p la lo os) = true).
  { intros c H1 H2 H3 H4 H5 L1 L2 L3 L4 L5.
    change (form_query s p la lo os)
      with ("s=" +:+ s +:+ "&p=" +:+ p +:+ "&la=" +:+ la +:+ "&lo=" +:+ lo
            +:+ "&os=" +:+ os).
    rewrite !lacks_app, H1, H2, H3, H4, H5, L1, L2, L3, L4, L5. reflexivity. }
  destruct (request_query (form_query s p la lo os) rest) as (line & Hl1 & Hl2 & Hl3);
    [apply Hlacks; auto..|].
  assert (Hq : parse_query (form_query s p la lo os)
               = Some (<["os" := os]> (<["lo" := lo]> (<["la" := la]>
                        (<["p" := p]> (<["s" := s]> ∅)))))).
  { unfold form_query. rewrite parse_query_query_of; [reflexivity|discriminate|].
    repeat constructor; assumption. }
  unfold handle_request. rewrite Hlogs.
  assert (Hsave : contains "GET /?s=" (get_request (form_query s p la lo os) rest) = true)
    by (change (get_request (form_query s p la lo os) rest)
          with ("GET /?s=" +:+ ((s +:+ "&p=" +:+ p +:+ "&la=" +:+ la +:+ "&lo=" +:+ lo
                                 +:+ "&os=" +:+ os) +:+ String " " rest));
        apply contains_prefix).
  rewrite Hsave. unfold must. munfold. rewrite Hl1. cbn iota beta. rewrite Hl2.
  cbn iota beta.
  rewrite Hl3. cbn iota beta. rewrite Hq. cbn iota beta.
  rewrite lookup_insert_ne by discriminate.
  rewrite lookup_insert_ne by discriminate.
  rewrite lookup_insert_ne by discriminate.
  rewrite lookup_insert_ne by discriminate.
  rewrite lookup_insert_eq.
  unfold decoded_fields. cbn [mbind option_bind].
  destruct (url_decode s) as [s'|]; [|reflexivity]. cbn iota beta.
  rewrite lookup_insert_ne by discriminate.
  rewrite lookup_insert_ne by discriminate.
  rewrite lookup_insert_ne by discriminate.
  rewrite lookup_insert_eq. cbn [mbind option_bind].
  destruct (url_decode p) as [p'|]; [|reflexivity]. cbn iota beta.
  rewrite lookup_insert_ne by discriminate.
  rewrite lookup_insert_ne by discriminate.
  rewrite lookup_insert_eq. cbn [mbind option_bind].
  destruct (url_decode la) as [la'|]; [|reflexivity]. cbn iota beta.
  rewrite lookup_insert_ne by discriminate.
  rewrite lookup_insert_eq. cbn [mbind option_bind].
  destruct (url_decode lo) as [lo'|]; [|reflexivity]. cbn iota beta.
  rewrite lookup_insert_eq. cbn [mbind option_bind].
  destruct (save_config t (Some s') (Some p') (Some la') (Some lo') None
              (Some (PyStr os)) w) as [w1 [[]| | |]]; reflexivity.
Qed.

(** ** [float()] on the offset *)

Lemma numeric_cons (c : ascii) (s : string) :
  numeric (String c s) = numeric_char c && numeric s.
Proof. reflexivity. Qed.

Lemma numeric_lstrip (s : string) : numeric (lstrip s) = true → numeric s = true.
Proof.
  induction s as [|c s IH]; [trivial|]. cbn [lstrip].
  destruct (is_space c) eqn:Hc; [|trivial].
  intros H. rewrite numeric_cons, (IH H). unfold numeric_char. rewrite Hc. reflexivity.
Qed.

Lemma lstrip_empty_numeric (s : string) : lstrip s = "" → numeric s = true.
Proof.
  intros H. apply numeric_lstrip. rewrite H. reflexivity.
Qed.

Lemma sign_spec (s : string) :
  sign s = (false, s)
  ∨ (∃ r, s = String "-" r ∧ sign s = (true, r))
  ∨ (∃ r, s = String "+" r ∧ sign s = (false, r)).
Proof.
  destruct s as [|c r]; [left; reflexivity|].
  destruct (Ascii.eqb_spec c "-") as [->|Hm]; [right; left; eexists; split; reflexivity|].
  destruct (Ascii.eqb_spec c "+") as [->|Hp]; [right; right; eexists; split; reflexivity|].
  left. destruct c as [[] [] [] [] [] [] [] []]; try reflexivity; congruence.
Qed.

Lemma numeric_sign (s : string) : numeric (sign s).2 = true → numeric s = true.
Proof.
  destruct (sign_spec s) as [H|[(r & -> & H)|(r & -> & H)]]; rewrite H; simpl; trivial.
Qed.

Lemma numeric_digits (s : string) :
  ∀ acc, numeric (digits acc s).2 = true → numeric s = true.
Proof.
  induction s as [|c s IH]; intros acc; [trivial|]. cbn [digits].
  destruct (digit_val c) as [d|] eqn:Hd; [|trivial].
  specialize (IH (10 * acc + d)).
  destruct (digits (10 * acc + d) s) as [[v n] rest]. simpl in *.
  intros H. rewrite numeric_cons, (IH H). unfold numeric_char. rewrite Hd.
  rewrite bool_decide_eq_true_2 by (eexists; reflexivity).
  rewrite orb_true_r. reflexivity.
Qed.

Lemma after_point (A : Type) (s : string) (f : string → A) (d : A) :
  match s with
  | String "." r => f r
  | _ => d
  end = match s with
        | String c r => if Ascii.eqb c "." then f r else d
        | EmptyString => d
        end.
Proof.
  destruct s as [|c r]; [reflexivity|].
  destruct (Ascii.eqb_spec c ".") as [->|Hc]; [reflexivity|].
  destruct c as [[] [] [] [] [] [] [] []]; try reflexivity; congruence.
Qed.

(** Every string [float()] accepts is made of blanks, digits, signs, a
    point and an exponent mark. *)
Lemma py_float_numeric (s : string) (q : Q) : py_float s = Some q → numeric s = true.
Proof.
  unfold py_float. intros H. apply numeric_lstrip, numeric_sign.
  destruct (sign (lstrip s)) as [neg s1]. cbn [snd].
  apply (numeric_digits s1 0).
  destruct (digits 0 s1) as [[ip ni] s2]. cbn [snd].
  rewrite (after_point _ s2 (digits ip) (ip, O, s2)) in H.
  assert (Hs2 : ∀ m nf s3,
            (match s2 with
             | String c r => if Ascii.eqb c "." then digits ip r else (ip, O, s2)
             | EmptyString => (ip, O, s2)
             end) = (m, nf, s3) → numeric s3 = true → numeric s2 = true).
  { intros m nf s3 Heq Hn. destruct s2 as [|c r]; [injection Heq as _ _ <-; exact Hn|].
    destruct (Ascii.eqb_spec c ".") as [->|Hc]; [|injection Heq as _ _ <-; exact Hn].
    rewrite numeric_cons. apply andb_true_intro. split; [reflexivity|].
    apply (numeric_digits r ip). rewrite Heq. exact Hn. }
  destruct (match s2 with
            | String c r => if Ascii.eqb c "." then digits ip r else (ip, O, s2)
            | EmptyString => (ip, O, s2)
            end) as [[m nf] s3] eqn:Hpoint.
  apply (Hs2 m nf s3 eq_refl). clear Hs2 Hpoint.
  destruct (ni + nf =? 0)%nat; [discriminate|].
  destruct s3 as [|c r].
  - reflexivity.
  - destruct (Ascii.eqb c "e" || Ascii.eqb c "E")%bool eqn:He.
    + rewrite numeric_cons. apply andb_true_intro. split.
      { unfold numeric_char. apply orb_prop in He as [-> | ->];
          rewrite ?orb_true_r; reflexivity. }
      apply numeric_sign. destruct (sign r) as [eneg r2]. cbn [snd].
      apply (numeric_digits r2 0).
      destruct (digits 0 r2) as [[e ne] r3]. cbn [snd].
      destruct (ne =? 0)%nat; [discriminate|].
      destruct (lstrip r3) eqn:Hr3; [|discriminate].
      apply lstrip_empty_numeric. exact Hr3.
    + destruct (lstrip (String c r)) eqn:Hr3; [|discriminate].
      apply lstrip_empty_numeric. exact Hr3.
Qed.

Lemma numeric_lacks_percent (s : string) : numeric s = true → lacks "%" s = true.
Proof.
  assert (Hc : ∀ c, implb (numeric_char c) (negb (Ascii.eqb c "%")) = true).
  { apply all_ascii. vm_compute. reflexivity. }
  induction s as [|c s IH]; [trivial|].
  rewrite numeric_cons, lacks_cons. intros H. apply andb_prop in H as [H1 H2].
  specialize (Hc c). rewrite H1 in Hc. simpl in Hc. rewrite Hc, (IH H2). reflexivity.
Qed.

(** ** [save_config] and the strings [float()] rejects *)

Lemma numeric_not_float_raises (s : string) : numeric s = true → float_raises s = false.
Proof.
  assert (Hc : ∀ c, implb (numeric_char c) (negb (not_float_char c)) = true).
  { apply all_ascii. vm_compute. reflexivity. }
  unfold float_raises.
  induction s as [|c s IH]; [trivial|].
  rewrite numeric_cons. intros H. apply andb_prop in H as [H1 H2].
  specialize (Hc c). rewrite H1 in Hc. simpl in Hc.
  cbn [list_ascii_of_string existsb].
  rewrite (IH H2), orb_false_r. destruct (not_float_char c); [discriminate|reflexivity].
Qed.

(** What [float_raises] rejects, the model of [float()] rejects. *)
Lemma float_raises_spec (s : string) : float_raises s = true → py_float s = None.
Proof.
  intros H. destruct (py_float s) as [q|] eqn:Hq; [|reflexivity].
  apply py_float_numeric, numeric_not_float_raises in Hq. congruence.
Qed.

Lemma percent_float_raises (s : string) : lacks "%" s = false → float_raises s = true.
Proof.
  unfold float_raises. induction s as [|c s IH]; [discriminate|].
  rewrite lacks_cons. cbn [list_ascii_of_string existsb].
  destruct (Ascii.eqb_spec c "%") as [->|Hne]; [reflexivity|].
  simpl. intros H. rewrite (IH H). apply orb_true_r.
Qed.

(** X3.  An offset string with a character that no float literal has (so
    that [float()] raises [ValueError]) makes [save_config] raise after
    the other arguments have been assigned: the configuration in memory
    has the new ssid, password, latitude, longitude and auto flag but its
    old offset, and neither [config.json] nor the calibration log is
    written. *)
Theorem save_config_bad_offset (t : LocalTime) (ssid password lat lon : option string)
    (auto : option bool) (os : string) (w : World)
    (Hbad : float_raises os = true) :
  ∃ w', save_config t ssid password lat lon auto (Some (PyStr os)) w = (w', Exn)
    ∧ config (st w') = assigned ssid password lat lon auto (config (st w))
    ∧ cfg_offset (config (st w')) = cfg_offset (config (st w))
    ∧ config_file w' = config_file w
    ∧ log_file w' = log_file w.
Proof.
  rewrite save_config_str, (float_raises_spec os Hbad). eexists. split; [reflexivity|].
  repeat split.
Qed.

Lemma save_config_bad_offset_witness :
  ∃ w', save_config (mkLocalTime 2026 1 1 0 0 0) (Some "home") None None None None
                    (Some (PyStr "0,6")) (power_on 0 Missing None true) = (w', Exn)
        ∧ cfg_ssid (config (st w')) = "home"
        ∧ config_file w' = Missing.
Proof.
  destruct (save_config_bad_offset (mkLocalTime 2026 1 1 0 0 0) (Some "home") None
              None None None "0,6" (power_on 0 Missing None true) eq_refl)
    as (w' & Hs & Hc & _ & Hf & _).
  exists w'. split; [exact Hs|]. split; [rewrite Hc; reflexivity|exact Hf].
Defined.

(** X4.  [save_config] touches nothing but the configuration in memory
    and the two files: the other keys of [state], the loop variables, the
    pins, the telemetry printed and the responses sent are as before,
    whether it returns or raises.  The calibration log never loses a line.
    For an offset that is absent, a float, a decimal literal or a string
    with a character that no float literal has, the log grows by exactly
    one entry when the offset is given and accepted on a flash that takes
    the write, and is unchanged otherwise. *)
Theorem save_config_frame (t : LocalTime) (ssid password lat lon : option string)
    (auto : option bool) (offset : option PyVal) (w : World) :
  let w' := (save_config t ssid password lat lon auto offset w).1 in
  set_config (config (st w)) (st w') = st w
  ∧ vars w' = vars w ∧ gpio w' = gpio w ∧ serial w' = serial w ∧ sent w' = sent w
  ∧ storage_ok w' = storage_ok w
  ∧ (∃ new, default [] (log_file w') = default [] (log_file w) ++ new
            ∧ (offset_in_model offset = true →
               length new = (if storage_ok w && offset_ok offset
                                && bool_decide (is_Some offset)
                             then 1 else 0)%nat)).
Proof.
  destruct offset as [[q|os]|]; cbv zeta.
  - rewrite save_config_float.
    destruct w as [[? ? ? ? ? ? ? ? ? ? ? ? ? ?] ? ? ? ? ? ? []];
      (repeat (split; [reflexivity|])); simpl.
    + eexists. split; reflexivity.
    + exists []. rewrite app_nil_r. split; reflexivity.
  - rewrite save_config_str. unfold offset_ok.
    destruct (py_float os) as [q|].
    + rewrite bool_decide_eq_true_2 by (eexists; reflexivity).
      destruct w as [[? ? ? ? ? ? ? ? ? ? ? ? ? ?] ? ? ? ? ? ? []];
        (repeat (split; [reflexivity|])); simpl.
      * eexists. split; reflexivity.
      * exists []. rewrite app_nil_r. split; reflexivity.
    + rewrite bool_decide_eq_false_2 by (intros [? ?]; discriminate).
      rewrite andb_false_r.
      destruct w as [[? ? ? ? ? ? ? ? ? ? ? ? ? ?] ? ? ? ? ? ? ?];
        (repeat (split; [reflexivity|])); simpl.
      exists []. rewrite app_nil_r. split; reflexivity.
  - rewrite save_config_plain. rewrite andb_false_r.
    destruct w as [[? ? ? ? ? ? ? ? ? ? ? ? ? ?] ? ? ? ? ? ? []];
      (repeat (split; [reflexivity|])); simpl;
      exists []; rewrite app_nil_r; split; reflexivity.
Qed.

(** Saving the offset "0.71" on a fresh device adds the first line of the
    calibration log; saving "0,71" adds none. *)
Lemma save_config_frame_witness :
  let t := mkLocalTime 2026 3 14 9 26 53 in
  let w := power_on 0 Missing None true in
  length (default [] (log_file (save_config t None None None None None
                                  (Some (PyStr "0.71")) w).1)) = 1%nat
  ∧ length (default [] (log_file (save_config t None None None None None
                                    (Some (PyStr "0,71")) w).1)) = 0%nat.
Proof.
  intros t w. split.
  - destruct (save_config_frame t None None None None None (Some (PyStr "0.71")) w)
      as (_ & _ & _ & _ & _ & _ & new & Hlog & Hlen).
    rewrite Hlog, length_app, (Hlen eq_refl). reflexivity.
  - destruct (save_config_frame t None None None None None (Some (PyStr "0,71")) w)
      as (_ & _ & _ & _ & _ & _ & new & Hlog & Hlen).
    rewrite Hlog, length_app, (Hlen eq_refl). reflexivity.
Defined.

(** ** The portal, request by request *)



(** X12.  No offset that contains a percent sign is accepted by
    [float()]: the percent sign is a character that no float literal has.
    A save request whose offset has such a character (so that [float()]
    raises [ValueError]) is dropped after the four text fields have been
    assigned in memory: the portal goes on serving (no reset), sends
    nothing, and writes neither [config.json] nor the calibration log; the
    offset in the configuration is the old one. *)
Theorem portal_save_rejected :
  (∀ os : string, lacks "%" os = false → float_raises os = true ∧ py_float os = None)
  ∧ (∀ (t : LocalTime) (s p la lo os rest s' p' la' lo' : string) (bootsel : bool)
       (w : World),
       form_value s = true → form_value p = true → form_value la = true →
       form_value lo = true → form_value os = true →
       contains "GET /logs" (get_request (form_query s p la lo os) rest) = false →
       decoded_fields s p la lo = Some (s', p', la', lo') →
       float_raises os = true →
       ∃ w', serve (mkPoll (Some (get_request (form_query s p la lo os) rest)) t bootsel) w
               = (w', Val Fallthrough)
         ∧ config (st w') = mkConfig s' p' la' lo' (cfg_auto (config (st w)))
                                     (cfg_offset (config (st w)))
         ∧ config_file w' = config_file w
         ∧ log_file w' = log_file w
         ∧ sent w' = sent w).
Proof.
  split.
  - intros os Hpct. pose proof (percent_float_raises os Hpct) as Hr.
    split; [exact Hr|apply float_raises_spec, Hr].
  - intros t s p la lo os rest s' p' la' lo' bootsel w Hs Hp Hla Hlo Hos Hlogs Hdec Hbad.
    apply float_raises_spec in Hbad.
    pose proof (handle_request_save t s p la lo os rest w Hs Hp Hla Hlo Hos Hlogs) as Hh.
    rewrite Hdec, save_config_str, Hbad in Hh.
    unfold serve. cbn [poll_request poll_time]. rewrite Hh.
    eexists. split; [reflexivity|]. repeat split.
Qed.

Lemma portal_save_rejected_witness :
  float_raises "0%2E5" = true
  ∧ ∃ w', serve (mkPoll (Some (get_request (form_query "home" "pw" "51.5" "-0.1" "0%2E5")
                                           "HTTP/1.1"))
                        (mkLocalTime 2026 3 14 9 26 53) false)
                (power_on 0 Missing None true) = (w', Val Fallthrough)
          ∧ config_file w' = Missing.
Proof.
  destruct portal_save_rejected as [Hpct Hdrop].
  split; [apply (Hpct "0%2E5"); reflexivity|].
  destruct (Hdrop (mkLocalTime 2026 3 14 9 26 53) "home" "pw" "51.5" "-0.1" "0%2E5"
              "HTTP/1.1" "home" "pw" "51.5" "-0.1" false (power_on 0 Missing None true))
    as (w' & Hserve & _ & Hfile & _); try reflexivity.
  exists w'. split; [exact Hserve|exact Hfile].
Defined.

(** X13.  A malformed percent escape in the ssid, the password, the
    latitude or the longitude of a save request drops the request before
    anything is assigned: the device is exactly as it was, no response is
    sent and the portal goes on serving. *)
Theorem portal_save_bad_escape (t : LocalTime) (s p la lo os rest : string)
    (bootsel : bool) (w : World)
    (Hs : form_value s = true) (Hp : form_value p = true)
    (Hla : form_value la = true) (Hlo : form_value lo = true)
    (Hos : form_value os = true)
    (Hlogs : contains "GET /logs" (get_request (form_query s p la lo os) rest) = false)
    (Hbad : url_decode s = None ∨ url_decode p = None ∨ url_decode la = None
            ∨ url_decode lo = None) :
  serve (mkPoll (Some (get_request (form_query s p la lo os) rest)) t bootsel) w
    = (w, Val Fallthrough).
Proof.
  pose proof (handle_request_save t s p la lo os rest w Hs Hp Hla Hlo Hos Hlogs) as Hh.
  assert (Hdec : decoded_fields s p la lo = None).
  { unfold decoded_fields.
    destruct (url_decode s); [|reflexivity].
    destruct (url_decode p); [|reflexivity].
    destruct (url_decode la); [|reflexivity].
    destruct (url_decode lo); [|reflexivity].
    destruct Hbad as [H|[H|[H|H]]]; discriminate. }
  rewrite Hdec in Hh. unfold serve. cbn [poll_request poll_time]. rewrite Hh.
  reflexivity.
Qed.

Lemma portal_save_bad_escape_witness :
  serve (mkPoll (Some (get_request (form_query "caf%zz" "pw" "51.5" "-0.1" "0.5")
                                   "HTTP/1.1"))
                (mkLocalTime 2026 3 14 9 26 53) false)
        (power_on 0 Missing None true)
    = (power_on 0 Missing None true, Val Fallthrough).
Proof.
  apply (portal_save_bad_escape (mkLocalTime 2026 3 14 9 26 53)
           "caf%zz" "pw" "51.5" "-0.1" "0.5" "HTTP/1.1" false
           (power_on 0 Missing None true)); try reflexivity.
  left. reflexivity.
Defined.



(** X15.  The setup portal never returns to the main loop and never
    raises: it ends in a reset or is still serving.  Passes in which no
    request arrives change nothing; the first such pass that finds the
    recovery button held resets the device.  A request that is neither for
    the log nor a save is answered with the settings form filled with the
    current ssid, latitude, longitude and the offset in use, and changes
    nothing else. *)
Theorem portal_only_leaves_by_reset :
  (∀ (polls : list Poll) (w : World),
     (run_setup_ap polls w).2 = Reset ∨ (run_setup_ap polls w).2 = Blocked)
  ∧ (∀ (idle : list Poll) (w : World),
       Forall (λ p, poll_request p = None ∧ poll_bootsel p = false) idle →
       run_setup_ap idle w = (w, Blocked)
       ∧ ∀ t more, run_setup_ap (idle ++ mkPoll None t true :: more) w = (w, Reset))
  ∧ (∀ (t : LocalTime) (req : string) (bootsel : bool) (w : World),
       contains "GET /logs" req = false → contains "GET /?s=" req = false →
       serve (mkPoll (Some req) t bootsel) w =
         (send (Form (cfg_ssid (config (st w))) (cfg_lat (config (st w)))
                     (cfg_lon (config (st w))) (dust_offset (st w))) w,
          Val Fallthrough)).
Proof.
  split; [exact run_setup_ap_no_return|]. split.
  - intros idle w Hidle.
    assert (Hloop : ∀ tail, portal_loop (idle ++ tail) w = portal_loop tail w).
    { intros tail. induction Hidle as [|p idle [Hreq Hbtn] _ IH]; [reflexivity|].
      cbn [app portal_loop]. unfold mbind, M_bind, serve. rewrite Hreq, Hbtn.
      exact IH. }
    split.
    + unfold run_setup_ap, mbind, M_bind.
      rewrite <- (app_nil_r idle), Hloop. reflexivity.
    + intros t more. unfold run_setup_ap, mbind, M_bind. rewrite Hloop.
      reflexivity.
  - intros t req bootsel w Hlogs Hsave.
    unfold serve, handle_request. cbn [poll_request poll_time].
    rewrite Hlogs, Hsave. reflexivity.
Qed.

Lemma portal_only_leaves_by_reset_witness :
  run_setup_ap [mkPoll None (mkLocalTime 2026 1 1 0 0 0) false;
                mkPoll None (mkLocalTime 2026 1 1 0 0 1) true]
               (power_on 0 Missing None true)
    = (power_on 0 Missing None true, Reset).
Proof.
  destruct portal_only_leaves_by_reset as (_ & Hidle & _).
  apply (Hidle [mkPoll None (mkLocalTime 2026 1 1 0 0 0) false]).
  repeat constructor.
Defined.

(** ** The calibration routine: outputs and a failing flash *)

Lemma calibration_loop_gpio (adc : nat → Z) (l : list nat) :
  ∀ (w : World) (acc : list Q),
  gpio (foldl (λ '(w, samples) i,
                 let w := pin_value dust_led false w in
                 let v := read_voltage (adc i) in
                 let w := pin_value dust_led true w in
                 (w, samples ++ [v]))
              (w, acc) l).1
  = match l with
    | [] => gpio w
    | _ :: _ => <[dust_led := true]> (gpio w)
    end.
Proof.
  induction l as [|i l IH]; intros w acc; [reflexivity|].
  cbn [foldl]. rewrite IH. destruct l as [|j l].
  - cbn [pin_value gpio]. apply insert_insert_eq.
  - cbn [pin_value gpio]. rewrite !insert_insert_eq. reflexivity.
Qed.

Lemma calibrate_sensor_gpio (adc : nat → Z) (t : LocalTime) (t_end : Z) (w : World) :
  gpio (calibrate_sensor adc t t_end w).1 =
    <[dust_led := true]>
      (gpio (foldl (λ w pin, pin_value pin false w) w control_pins)).
Proof.
  pose proof (calibration_loop_gpio adc (seq 0 500)
                (foldl (λ w pin, pin_value pin false w) w control_pins) []) as Hg.
  change (seq 0 500) with (0%nat :: seq 1 499) in Hg at 2. cbv iota in Hg.
  unfold calibrate_sensor. munfold.
  fold (calibration_samples adc (foldl (λ w pin, pin_value pin false w) w control_pins))
    in Hg.
  destruct (calibration_samples_spec adc
              (foldl (λ w pin, pin_value pin false w) w control_pins))
    as (w1 & Heq & _).
  rewrite Heq in *. cbn [fst] in Hg.
  unfold py_div. rewrite length_fmap, length_seq.
  change (Qeq_bool (inject_Z (Z.of_nat 500)) 0) with false.
  munfold. cbn iota beta. rewrite save_config_float.
  rewrite <- Hg. destruct w1 as [? ? ? ? ? ? ? []]; reflexivity.
Qed.

(** X16.  The calibration routine switches all six category pins off and
    leaves the sensor LED pin high; no other pin changes.  It never fails:
    on a flash that refuses writes it still takes the new offset into use
    and into the configuration in memory and still announces
    "CAL & LOGGED!", although neither [config.json] nor the calibration
    log has changed. *)
Theorem calibrate_sensor_outputs (adc : nat → Z) (t : LocalTime) (t_end : Z)
    (w : World) :
  let w' := (calibrate_sensor adc t t_end w).1 in
  let avg := (sum ((λ i, read_voltage (adc i)) <$> seq 0 500) / inject_Z 500)%Q in
  (calibrate_sensor adc t t_end w).2 = Val ()
  ∧ control_levels w' = replicate 6 (Some false)
  ∧ gpio w' !! dust_led = Some true
  ∧ (∀ pin, pin ∉ control_pins → pin ≠ dust_led → gpio w' !! pin = gpio w !! pin)
  ∧ (storage_ok w = false →
     dust_offset (st w') = avg
     ∧ cfg_offset (config (st w')) = avg
     ∧ msg_text (st w') = "CAL & LOGGED!"
     ∧ config_file w' = config_file w
     ∧ log_file w' = log_file w).
Proof.
  intros w' avg.
  pose proof (calibrate_sensor_gpio adc t t_end w) as Hg. fold w' in Hg.
  destruct (calibrate_sensor_eq adc t t_end w) as (w1 & Hs & Heq). fold avg in Heq.
  split; [rewrite Heq; reflexivity|].
  split; [|split; [|split]].
  - unfold control_levels. rewrite Hg. unfold dust_led.
    cbn [fmap list_fmap control_pins seq foldl pin_value gpio].
    rewrite !lookup_insert. repeat (case_decide; try lia). reflexivity.
  - rewrite Hg. apply lookup_insert_eq.
  - intros pin Hpin Hled. rewrite Hg.
    assert (Hne : pin ≠ 2%nat ∧ pin ≠ 3%nat ∧ pin ≠ 4%nat ∧ pin ≠ 5%nat
                  ∧ pin ≠ 6%nat ∧ pin ≠ 7%nat).
    { repeat split; intros ->; apply Hpin; apply list_elem_of_In; simpl; tauto. }
    destruct Hne as (N2 & N3 & N4 & N5 & N6 & N7).
    cbn [control_pins seq foldl pin_value gpio].
    rewrite !lookup_insert_ne by congruence.
    reflexivity.
  - intros Hbad. unfold w'. rewrite Heq.
    destruct Hs as (H1 & _ & H3 & H4 & _ & _ & H7).
    destruct w1 as [? ? ? ? ? ? ? ok]. cbn in H1, H3, H4, H7. subst.
    rewrite Hbad. repeat split.
Qed.

Lemma calibrate_sensor_outputs_witness :
  let w' := (calibrate_sensor (λ _, 13107) (mkLocalTime 2026 3 14 9 26 53) 70000
               (power_on 0 Missing None false)).1 in
  (dust_offset (st w') == 0.66)%Q ∧ config_file w' = Missing ∧ log_file w' = None.
Proof.
  destruct (calibrate_sensor_outputs (λ _, 13107) (mkLocalTime 2026 3 14 9 26 53) 70000
              (power_on 0 Missing None false)) as (_ & _ & _ & _ & Hbad).
  destruct (Hbad eq_refl) as (Hoff & _ & _ & Hfile & Hlog).
  cbv zeta. split; [|split; assumption].
  rewrite Hoff.
  rewrite (fmap_const_replicate _ (read_voltage 13107)) by reflexivity.
  rewrite length_seq. rewrite (mean_replicate 500) by lia. reflexivity.
Defined.

(** ** [url_decode]: malformed escapes and length *)

Lemma malformed_escape (a b : ascii) :
  malformed a b = true →
  py_int16 (replace "+" " " (String a (String b ""))) ≫= py_chr = None.
Proof.
  intros Hm.
  assert (H : malformed_ok a b = true).
  { revert b Hm. revert a.
    assert (Hall : ∀ a b, malformed_ok a b = true).
    { intros a. apply (all_ascii (λ b, malformed_ok a b)). revert a.
      apply (all_ascii (λ a, forallb (λ b, malformed_ok a b) (ascii_of_nat <$> seq 0 256))).
      vm_compute. reflexivity. }
    intros a b _. apply Hall. }
  unfold malformed_ok in H. rewrite Hm in H. cbn [implb] in H.
  apply bool_decide_eq_true in H. exact H.
Qed.

(** X17.  A ['%'] that is followed by two characters which do not form a
    hexadecimal number makes [url_decode] raise, whatever precedes and
    follows it: the whole string is rejected, not only the escape. *)
Theorem url_decode_malformed_escape (pre : string) (a b : ascii) (rest : string)
    (Hpre : no_percent pre = true) (Hbad : malformed a b = true) :
  url_decode (pre +:+ String "%" (String a (String b rest))) = None.
Proof.
  pose proof (malformed_escape a b Hbad) as Hesc.
  rewrite url_decode_suffix, replace_app.
  rewrite decode_from_no_percent by (rewrite no_percent_replace; exact Hpre).
  cbn [replace] in *. change (Ascii.eqb "%" "+") with false.
  cbn [decode_from]. change (Ascii.eqb "%" "%") with true. cbn iota.
  destruct (py_int16 _) as [n|]; [|reflexivity].
  cbn [mbind option_bind] in *. rewrite Hesc. reflexivity.
Qed.

Lemma url_decode_malformed_escape_witness :
  url_decode "caf%zz+bar" = None ∧ url_decode "50%4x" = None.
Proof.
  split.
  - apply (url_decode_malformed_escape "caf" "z" "z" "+bar"); reflexivity.
  - apply (url_decode_malformed_escape "50" "4" "x" ""); reflexivity.
Defined.

Lemma decode_from_length (n : nat) :
  ∀ s r, (String.length s ≤ n)%nat → decode_from s = Some r →
         (String.length r ≤ String.length s)%nat.
Proof.
  induction n as [|n IH]; intros s r Hn Hd.
  - destruct s; [|simpl in Hn; lia]. injection Hd as <-. simpl. lia.
  - destruct s as [|c t]; [injection Hd as <-; simpl; lia|].
    assert (Hlit : ∀ r, String c <$> decode_from t = Some r →
                        (String.length r ≤ String.length (String c t))%nat).
    { intros r0 H0. destruct (decode_from t) as [r1|] eqn:Ht; [|discriminate].
      injection H0 as <-. simpl in *. apply le_n_S. apply (IH t r1); [lia|exact Ht]. }
    cbn [decode_from] in Hd. destruct t as [|a [|b u]]; try (apply Hlit; exact Hd).
    destruct (Ascii.eqb c "%"); [|apply Hlit; exact Hd].
    destruct (py_int16 (String a (String b ""))) as [m|]; [|discriminate].
    cbn [mbind option_bind] in Hd. destruct (py_chr m) as [ch|]; [|discriminate].
    cbn [mbind option_bind] in Hd.
    destruct (decode_from u) as [r1|] eqn:Hu; [|discriminate].
    injection Hd as <-. simpl in *.
    pose proof (IH u r1 ltac:(lia) Hu). lia.
Qed.

(** X18.  Decoding never lengthens a string: whenever [url_decode]
    returns, its result is at most as long as its argument. *)
Theorem url_decode_never_longer (s r : string) (Hdec : url_decode s = Some r) :
  (String.length r ≤ String.length s)%nat.
Proof.
  rewrite url_decode_suffix in Hdec.
  rewrite <- (replace_length "+" " " s).
  apply (decode_from_length (String.length (replace "+" " " s))); [lia|exact Hdec].
Qed.

Lemma url_decode_never_longer_witness :
  (String.length "a b/c" ≤ String.length "a+b%2Fc")%nat.
Proof. apply (url_decode_never_longer "a+b%2Fc" "a b/c"). reflexivity. Defined.

(** ** Telemetry and rounding *)

Lemma round_half_even_error (y : Q) :
  (-(1 # 2) <= inject_Z (round_half_even y) - y <= 1 # 2)%Q.
Proof.
  unfold round_half_even.
  pose proof (Qfloor_le y) as Hlo. pose proof (Qlt_floor y) as Hhi.
  rewrite inject_Z_plus in Hhi. change (inject_Z 1) with 1%Q in Hhi.
  destruct (Qltb_spec (y - inject_Z (Qfloor y)) 0.5) as [H1|H1].
  - lra.
  - destruct (Qltb_spec 0.5 (y - inject_Z (Qfloor y))) as [H2|H2].
    + rewrite inject_Z_plus. change (inject_Z 1) with 1%Q. lra.
    + destruct (Z.even (Qfloor y)); [lra|].
      rewrite inject_Z_plus. change (inject_Z 1) with 1%Q. lra.
Qed.

Lemma round_error (x : Q) (n : Z) (p : Q) :
  (Qpower 10 n == p)%Q → (0 < p)%Q →
  (-(1 # 2) <= (round x n - x) * p <= 1 # 2)%Q.
Proof.
  intros Hp Hpos. unfold round.
  pose proof (round_half_even_error (x * Qpower 10 n)) as H.
  set (k := inject_Z (round_half_even (x * Qpower 10 n))) in *.
  rewrite Hp in *. clearbody k.
  assert (Hx : ((k / p - x) * p == k - x * p)%Q) by (field; lra).
  rewrite Hx. exact H.
Qed.

(** X19.  A telemetry record is printed exactly when at least 1000 ms
    have passed since the last one (since tick 0 for the first).  It
    reports the category of the published dust value, the dust value within
    0.005 and the offset in use within 0.00005 (both rounded), the weather
    cache, the signal strength or the disconnect marker, and the auto-cycle
    flag.  After it, a pass less than 1000 ms later prints nothing and
    changes nothing; the lines already printed are never altered. *)
Theorem telemetry_once_per_second (e1 e2 : Tick) (w : World)
    (Hdue : 1000 ≤ ticks_diff (now e1) (default 0 (last_serial (st w)))) :
  ∃ w1 r,
    telemetry e1 w = (w1, Val ())
    ∧ serial w1 = serial w ++ [r]
    ∧ tm_cat r = (get_aqi_category (dust_val (st w))).1
    ∧ (-(0.005) <= tm_dust r - dust_val (st w) <= 0.005)%Q
    ∧ (-(0.00005) <= tm_cal r - dust_offset (st w) <= 0.00005)%Q
    ∧ tm_temp r = weather_temp (st w) ∧ tm_weather r = weather_desc (st w)
    ∧ tm_rssi r = rssi e1 ∧ tm_auto r = auto_cycle (st w)
    ∧ last_serial (st w1) = Some (now e1)
    ∧ (ticks_diff (now e2) (now e1) < 1000 → telemetry e2 w1 = (w1, Val ()))
    ∧ (1000 ≤ ticks_diff (now e2) (now e1) →
       ∃ r2, serial (telemetry e2 w1).1 = serial w ++ [r; r2]).
Proof.
  unfold telemetry at 1. munfold.
  replace (ticks_diff (now e1) (default 0 (last_serial (st w))) >=? 1000)
    with true by lia.
  eexists. eexists. split; [reflexivity|]. cbn.
  split; [reflexivity|]. split; [reflexivity|].
  split.
  { pose proof (round_error (dust_val (st w)) 2 100 ltac:(reflexivity) ltac:(lra)) as H.
    cbn [tm_dust]. lra. }
  split.
  { pose proof (round_error (dust_offset (st w)) 4 10000 ltac:(reflexivity) ltac:(lra))
      as H. cbn [tm_cal]. lra. }
  repeat (split; [reflexivity|]).
  split.
  - intros Hsoon. unfold telemetry. cbn.
    replace (ticks_diff (now e2) (now e1) >=? 1000) with false by lia. reflexivity.
  - intros Hlate. unfold telemetry. munfold. cbn.
    replace (ticks_diff (now e2) (now e1) >=? 1000) with true by lia.
    cbn. eexists. rewrite <- app_assoc. reflexivity.
Qed.

Lemma telemetry_once_per_second_witness :
  ∃ w1 r, telemetry (quiet_tick 1000 false) (power_on 0 Missing None true) = (w1, Val ())
          ∧ serial w1 = [r] ∧ tm_cat r = "GOOD"
          ∧ telemetry (quiet_tick 1999 false) w1 = (w1, Val ()).
Proof.
  destruct (telemetry_once_per_second (quiet_tick 1000 false) (quiet_tick 1999 false)
              (power_on 0 Missing None true))
    as (w1 & r & Hrun & Hser & Hcat & _ & _ & _ & _ & _ & _ & _ & Hsoon & _).
  - change (1000 ≤ 1000). lia.
  - exists w1, r. split; [exact Hrun|]. split; [exact Hser|]. split; [exact Hcat|].
    apply Hsoon. change (999 < 1000). lia.
Defined.

(** ** The background tasks, when they succeed *)

Lemma weather_codes_lookup (code : Z) :
  default "Cloudy" (weather_codes !! code) ∈ weather_descriptions.
Proof.
  unfold weather_codes, weather_descriptions. rewrite !lookup_insert.
  repeat (case_decide; [cbn; set_solver|]).
  rewrite lookup_empty. cbn. set_solver.
Qed.

(** X20.  A weather refresh that is due (more than 900000 ms since the
    last one) and gets a complete answer caches the temperature truncated
    to an integer followed by "C" and one of six fixed descriptions
    ("Cloudy" for a code the table does not list), and restarts its
    timer.  No refresh is then attempted for the next 900000 ms, whatever
    the network offers: the cache and the timer stay as they are. *)
Theorem weather_refresh_cycle (now now2 : Z) (net net2 : Net) (temp : Q) (code : Z)
    (w : World)
    (Hconn : isconnected net = true)
    (Hresp : current_weather net = Some (mkWeather (Some temp) (Some code)))
    (Hdue : 900000 < ticks_diff now (last_weather_update (st w)))
    (Hsoon : ticks_diff now2 now ≤ 900000) :
  let w1 := (sync_data now net w).1 in
  let w2 := (sync_data now2 net2 w1).1 in
  weather_temp (st w1) = str_of_int (int_of_float temp) +:+ "C"
  ∧ weather_desc (st w1) = default "Cloudy" (weather_codes !! code)
  ∧ weather_desc (st w1) ∈ weather_descriptions
  ∧ last_weather_update (st w1) = now
  ∧ weather_temp (st w2) = weather_temp (st w1)
  ∧ weather_desc (st w2) = weather_desc (st w1)
  ∧ last_weather_update (st w2) = now.
Proof.
  intros w1 w2.
  assert (H1 : weather_temp (st w1) = str_of_int (int_of_float temp) +:+ "C"
               ∧ weather_desc (st w1) = default "Cloudy" (weather_codes !! code)
               ∧ last_weather_update (st w1) = now).
  { unfold w1, sync_data. munfold. rewrite Hconn, Hresp. cbn [negb].
    destruct (ticks_diff now (last_ntp_update (st w)) >? 86400000);
      [destruct (settime_ok net)|]; cbn;
      (replace (ticks_diff now (last_weather_update (st w)) >? 900000) with true by lia);
      cbn; repeat split. }
  destruct H1 as (Ht & Hd & Hl).
  split; [exact Ht|]. split; [exact Hd|].
  split; [rewrite Hd; apply weather_codes_lookup|]. split; [exact Hl|].
  clearbody w1. unfold w2, sync_data. munfold.
  destruct (isconnected net2); cbn [negb]; [|cbn; rewrite Hl; repeat split].
  destruct (ticks_diff now2 (last_ntp_update (st w1)) >? 86400000);
    [destruct (settime_ok net2)|]; cbn; rewrite ?Hl;
    (replace (ticks_diff now2 now >? 900000) with false by lia);
    cbn; repeat split; exact Hl.
Qed.

Lemma weather_refresh_cycle_witness :
  let w1 := (sync_data 1000 (mkNet true true (Some (mkWeather (Some (-3.7)%Q) (Some 61))))
               (power_on 0 Missing None true)).1 in
  weather_temp (st w1) = "-3C" ∧ weather_desc (st w1) = "Rainy".
Proof.
  destruct (weather_refresh_cycle 1000 2000
              (mkNet true true (Some (mkWeather (Some (-3.7)%Q) (Some 61))))
              (mkNet false false None) (-3.7)%Q 61 (power_on 0 Missing None true))
    as (Ht & Hd & _); try reflexivity.
  - vm_compute. discriminate.
  - split; [exact Ht|exact Hd].
Defined.

(** X21.  A time sync that is due (more than 86400000 ms since the last
    one) and succeeds restarts its timer, and no time sync is attempted
    for the next 86400000 ms.  Whatever [sync_data] does, it only ever
    writes the weather cache and its two timers: the loop variables, the
    window, the offset, the flags, the message, the configuration, both
    files and the view are as before. *)
Theorem time_sync_cycle (now now2 : Z) (net net2 : Net) (w : World)
    (Hconn : isconnected net = true) (Hok : settime_ok net = true)
    (Hdue : 86400000 < ticks_diff now (last_ntp_update (st w)))
    (Hsoon : ticks_diff now2 now ≤ 86400000) :
  let w1 := (sync_data now net w).1 in
  let w2 := (sync_data now2 net2 w1).1 in
  last_ntp_update (st w1) = now
  ∧ last_ntp_update (st w2) = now
  ∧ late_frame w w2 ∧ mode (st w2) = mode (st w)
  ∧ last_mode_change (st w2) = last_mode_change (st w)
  ∧ gpio w2 = gpio w ∧ serial w2 = serial w.
Proof.
  intros w1 w2.
  assert (Hframe : ∀ n nt v,
            late_frame v (sync_data n nt v).1
            ∧ mode (st (sync_data n nt v).1) = mode (st v)
            ∧ last_mode_change (st (sync_data n nt v).1) = last_mode_change (st v)
            ∧ gpio (sync_data n nt v).1 = gpio v
            ∧ serial (sync_data n nt v).1 = serial v).
  { intros n nt v. unfold sync_data. munfold.
    destruct (isconnected nt); cbn; [|repeat split].
    destruct (ticks_diff n (last_ntp_update (st v)) >? 86400000);
      [destruct (settime_ok nt)|]; cbn;
      (destruct (ticks_diff n (last_weather_update (st v)) >? 900000);
       [destruct (current_weather nt) as [[[temp|] [code|]]|]|]); cbn;
      repeat split. }
  assert (H1 : last_ntp_update (st w1) = now).
  { unfold w1, sync_data. munfold. rewrite Hconn, Hok. cbn [negb].
    replace (ticks_diff now (last_ntp_update (st w)) >? 86400000) with true by lia.
    cbn.
    destruct (ticks_diff now (last_weather_update (st w)) >? 900000);
      [destruct (current_weather net) as [[[temp|] [code|]]|]|]; cbn; reflexivity. }
  assert (H2 : last_ntp_update (st w2) = now).
  { clearbody w1. unfold w2, sync_data. munfold.
    destruct (isconnected net2); cbn [negb]; [|exact H1].
    rewrite H1. replace (ticks_diff now2 now >? 86400000) with false by lia.
    cbn.
    destruct (ticks_diff now2 (last_weather_update (st w1)) >? 900000);
      [destruct (current_weather net2) as [[[temp|] [code|]]|]|]; cbn; exact H1. }
  split; [exact H1|]. split; [exact H2|].
  destruct (Hframe now net w) as (F1 & M1 & L1 & G1 & S1).
  destruct (Hframe now2 net2 w1) as (F2 & M2 & L2 & G2 & S2).
  fold w1 in F1, M1, L1, G1, S1. fold w2 in F2, M2, L2, G2, S2.
  split; [exact (late_frame_trans _ _ _ F1 F2)|].
  repeat split; congruence.
Qed.

Lemma time_sync_cycle_witness :
  last_ntp_update (st (sync_data 1 (mkNet true true None)
                         (power_on 0 Missing None true)).1) = 1.
Proof.
  assert (Hdue : 86400000
                 < ticks_diff 1 (last_ntp_update (st (power_on 0 Missing None true))))
    by (vm_compute; reflexivity).
  assert (Hsoon : ticks_diff 2 1 ≤ 86400000) by (vm_compute; discriminate).
  exact (proj1 (time_sync_cycle 1 2 (mkNet true true None) (mkNet true true None)
                  (power_on 0 Missing None true) eq_refl eq_refl Hdue Hsoon)).
Defined.

(** ** The press duration and the wrap of the tick counter *)

(** A duration below half the tick period is measured exactly, also when
    the counter has wrapped in between. *)
Lemma ticks_diff_wrap (s d : Z) :
  0 ≤ d < 2 ^ 29 → ticks_diff ((s + d) `mod` 2 ^ 30) s = d.
Proof.
  intros Hd. rewrite ticks_diff_mod.
  replace ((s + d) `mod` 2 ^ 30 - s + 2 ^ 29)
    with ((s + d) `mod` 2 ^ 30 + (2 ^ 29 - s)) by lia.
  rewrite Zplus_mod_idemp_l.
  replace (s + d + (2 ^ 29 - s)) with (d + 2 ^ 29) by lia.
  rewrite Z.mod_small by lia. lia.
Qed.

(** X22.  A press changes nothing but the recorded button state and the
    start tick.  When the button is released [d] ms later, [d] below half
    the tick period, the duration the loop measures is [d] itself, also
    when the tick counter has wrapped around in between: a release after
    more than 20 and at most 5000 ms counts one click at the tick of the
    release, one after at most 20 ms is dropped, and one after more than
    10000 ms opens the setup portal. *)
Theorem press_release_across_wrap (e1 e2 : Tick) (w : World) (d : Z)
    (Hup : last_btn_state (vars w) = false)
    (Hpress : curr_btn e1 = true) (Hrel : curr_btn e2 = false)
    (Hd : 0 ≤ d < 2 ^ 29) (Hnow : now e2 = (now e1 + d) `mod` 2 ^ 30) :
  let w1 := with_vars (λ l, mkLoopVars true (now e1) (click_count l) (last_click l)) w in
  button_edge e1 w = (w1, Val ())
  ∧ ticks_diff (now e2) (btn_start (vars w1)) = d
  ∧ (20 < d ≤ 5000 →
     button_edge e2 w1 =
       (with_vars (λ l, mkLoopVars false (now e1) (click_count l + 1) (now e2)) w, Val ()))
  ∧ (d ≤ 20 →
     button_edge e2 w1 =
       (with_vars (λ l, mkLoopVars false (now e1) (click_count l) (last_click l)) w, Val ()))
  ∧ (10000 < d → button_edge e2 w1 = run_setup_ap (portal_polls e2) w1).
Proof.
  intros w1.
  assert (Hdur : ticks_diff (now e2) (btn_start (vars w1)) = d).
  { unfold w1. cbn. rewrite Hnow. apply ticks_diff_wrap, Hd. }
  split.
  { unfold button_edge. rewrite Hpress, Hup. reflexivity. }
  split; [exact Hdur|].
  pose proof (button_edge_release e2 w1 eq_refl Hrel) as Hedge.
  cbv zeta in Hedge. rewrite Hdur in Hedge. rewrite Hedge. clear Hedge.
  split; [|split]; intros H.
  - replace (d >? 10000) with false by lia. replace (d >? 5000) with false by lia.
    replace (d >? 20) with true by lia. reflexivity.
  - replace (d >? 10000) with false by lia. replace (d >? 5000) with false by lia.
    replace (d >? 20) with false by lia. reflexivity.
  - replace (d >? 10000) with true by lia.
    munfold. pose proof (run_setup_ap_no_return (portal_polls e2) w1) as Hno.
    destruct (run_setup_ap (portal_polls e2) w1) as [w2 [[]| | |]];
      cbn in Hno |- *; try reflexivity; destruct Hno; discriminate.
Qed.

Lemma press_release_across_wrap_witness :
  let w := power_on 0 Missing None true in
  let w1 := (button_edge (quiet_tick (2 ^ 30 - 100) true) w).1 in
  click_count (vars (button_edge (quiet_tick 200 false) w1).1) = 1.
Proof.
  intros w w1.
  assert (Hd : 0 ≤ 300 < 2 ^ 29) by lia.
  destruct (press_release_across_wrap (quiet_tick (2 ^ 30 - 100) true)
              (quiet_tick 200 false) w 300 eq_refl eq_refl eq_refl Hd eq_refl)
    as (H1 & _ & H2 & _).
  unfold w1. rewrite H1. cbn [fst]. rewrite H2 by lia. reflexivity.
Defined.

(** ** The views *)

(** X23.  The dashboard shows ["!!! WARNING !!!"] exactly when the mean
    exceeds 35 and the tick count is in an even half second, and the
    category after ["STATUS: "] otherwise; drawing it changes only the
    pins.  Every category from UNHEALTHY-S upwards has a mean above 35 and
    so flashes the warning, GOOD never does; but the threshold is not the
    classifier's 35.4: a mean above 35 and at most 35.4 flashes the
    warning while the category is MODERATE. *)
Theorem dashboard_warning (ticks : Z) (w : World) :
  let c := dust_val (st w) in
  ∃ w1 label, dashboard_label ticks w = (w1, Val label)
    ∧ same_but_gpio w w1
    ∧ (label = "!!! WARNING !!!" ↔ (35 < c)%Q ∧ (ticks / 500) `mod` 2 = 0)
    ∧ (label ≠ "!!! WARNING !!!" → label = "STATUS: " +:+ (get_aqi_category c).1)
    ∧ (2 ≤ (get_aqi_category c).2 → (35 < c)%Q)
    ∧ ((get_aqi_category c).2 = 0 → label ≠ "!!! WARNING !!!")
    ∧ ((35 < c)%Q ∧ (c <= 35.4)%Q → get_aqi_category c = ("MODERATE", 1)).
Proof.
  intros c. unfold dashboard_label.
  pose proof (update_hardware_frame c w) as Hf. cbv zeta in Hf.
  assert (Hcat : (update_hardware c w).2 = (get_aqi_category c).1).
  { unfold update_hardware. destruct (get_aqi_category c). reflexivity. }
  fold c. destruct (update_hardware c w) as [w1 cat]. cbn [fst snd] in Hf, Hcat.
  subst cat. eexists _, _. split; [reflexivity|]. split; [exact Hf|].
  destruct Hf as (Hst & _). rewrite Hst. fold c.
  assert (Hne : ∀ s, "STATUS: " +:+ s ≠ "!!! WARNING !!!").
  { intros s. change ("STATUS: " +:+ s) with (String "S" ("TATUS: " +:+ s)).
    discriminate. }
  assert (Hlow : (get_aqi_category c).2 = 0 → (c <= 12)%Q).
  { unfold get_aqi_category.
    destruct (Qle_bool_spec c 12.0); [intros _; lra|].
    repeat match goal with
           | |- context [Qle_bool c ?d] => destruct (Qle_bool c d)
           end; cbn; lia. }
  assert (Hhigh : 2 ≤ (get_aqi_category c).2 → (35 < c)%Q).
  { unfold get_aqi_category.
    destruct (Qle_bool_spec c 12.0); [cbn; lia|].
    destruct (Qle_bool_spec c 35.4); [cbn; lia|]. intros _. lra. }
  assert (Hmod : (35 < c)%Q ∧ (c <= 35.4)%Q → get_aqi_category c = ("MODERATE", 1)).
  { intros [H1 H2]. unfold get_aqi_category.
    destruct (Qle_bool_spec c 12.0); [lra|].
    destruct (Qle_bool_spec c 35.4); [reflexivity|lra]. }
  destruct (Qltb_spec 35 c) as [Hc|Hc];
    destruct (Z.eqb_spec ((ticks / 500) `mod` 2) 0) as [He|He]; cbn [andb];
    (split; [split; [try (intros H; exfalso; exact (Hne _ H))|]|]);
    try (split; [intros H; first [reflexivity | exfalso; apply H; reflexivity]|]);
    try (split; [exact Hhigh|]);
    try (split; [intros H0; first [apply Hne | specialize (Hlow H0); lra]|]);
    try exact Hmod; try tauto; try (intros [? ?]; first [lra | lia]).
Qed.

Lemma dashboard_warning_witness :
  let w := with_st (set_dust_val 35.2%Q) (power_on 0 Missing None true) in
  (dashboard_label 0 w).2 = Val "!!! WARNING !!!"
  ∧ get_aqi_category (dust_val (st w)) = ("MODERATE", 1).
Proof.
  intros w.
  destruct (dashboard_warning 0 w) as (w1 & label & Hrun & _ & Hiff & _ & _ & _ & Hmod).
  rewrite Hrun. cbn [snd]. split.
  - f_equal. apply Hiff. split; [cbn; lra|reflexivity].
  - apply Hmod. split; cbn; lra.
Defined.




(** ** The network scan *)






